(** * notion-sync: master catalogue to public catalogues

    A shallow embedding of the replication code of the repository
    (utils.js, notion-client.js, sync.js, cleanup.js) and the proofs of
    the properties its specification states.

    Conventions.
    - A JavaScript value is a [value]; an object is the finite map of its
      own properties (a [gmap string value]).  A property read with a
      computed key, [o[k]], goes through [js_get]: own properties first,
      then the members every plain object inherits from Object.prototype.
    - Strings are byte strings (UTF-8, as the source files are); the code
      only compares, concatenates and tests them for emptiness.
    - Numbers are integers ([Z]); the code copies them and compares them
      with [null], it does no arithmetic on record data.
    - A call that may throw returns a [completion]. *)

From stdpp Require Import base gmap strings list pretty.
From Stdlib Require Import ZArith Lia.

Set Warnings "-register-all".
Open Scope string_scope.
Open Scope Z_scope.

(** ** JavaScript values *)

Module JS.

Inductive value : Type :=
| VUndef : value
| VNull : value
| VBool (b : bool) : value
| VNum (n : Z) : value
| VStr (s : string) : value
| VArr (l : list value) : value
| VObj (m : gmap string value) : value
| VNative (name : string) : value.

Abbreviation obj := (gmap string value).

(** What a thrown value is: an error of the remote client, carrying the
    fields the retry policy inspects, a TypeError raised when the code
    reads a property of [undefined] or [null], or an [Error] the code
    throws itself. *)
Record api_error : Type := ApiError {
  code : option string;
  status : option Z;
  retry_after : option Z;
  message : string
}.

Inductive exn : Type :=
| Api (e : api_error)
| TypeError (msg : string)
| Error (msg : string).

Inductive completion (A : Type) : Type :=
| Return (a : A)
| Throw (e : exn).
Arguments Return {A} a.
Arguments Throw {A} e.

(** The names every plain object inherits from Object.prototype. *)
Definition object_prototype_members : list string :=
  [ "constructor"; "__defineGetter__"; "__defineSetter__"; "hasOwnProperty";
    "__lookupGetter__"; "__lookupSetter__"; "isPrototypeOf";
    "propertyIsEnumerable"; "toString"; "valueOf"; "__proto__";
    "toLocaleString" ].

Definition inherited (k : string) : bool :=
  bool_decide (k ∈ object_prototype_members).

(** [o[k]] on a plain object. *)
Definition js_get (o : obj) (k : string) : value :=
  match o !! k with
  | Some v => v
  | None => if inherited k then VNative k else VUndef
  end.

(** [o[k] = v] on a plain object: [__proto__] is an accessor, assigning to
    it replaces the prototype and adds no own property. *)
Definition js_set (o : obj) (k : string) (v : value) : obj :=
  if bool_decide (k = "__proto__") then o else <[k := v]> o.

(** ToBoolean. *)
Definition truthy (v : value) : bool :=
  match v with
  | VUndef | VNull => false
  | VBool b => b
  | VNum n => negb (n =? 0)
  | VStr s => negb (bool_decide (s = ""))
  | VArr _ | VObj _ | VNative _ => true
  end.

(** [a || b]. *)
Definition js_or (a b : value) : value := if truthy a then a else b.

(** The name of an inherited member as a function ([constructor] is the
    function [Object]); [__proto__] is Object.prototype itself, an object
    and not a function. *)
Definition native_name (k : string) : string :=
  if bool_decide (k = "constructor") then "Object" else k.

(** [v.k] for the literal keys [k] the program reads (none of them is an
    inherited name or a member of strings, numbers or arrays; [name] is a
    member of functions): a TypeError on [undefined] and [null], the own
    property on objects, [undefined] elsewhere. *)
Definition field (v : value) (k : string) : completion value :=
  match v with
  | VUndef | VNull =>
      Throw (TypeError ("Cannot read properties of undefined or null, reading " +:+ k))
  | VObj m => Return (default VUndef (m !! k))
  | VNative n =>
      if bool_decide (k = "name") && negb (bool_decide (n = "__proto__"))
      then Return (VStr (native_name n))
      else Return VUndef
  | _ => Return VUndef
  end.

(** [v?.k]. *)
Definition opt_field (v : value) (k : string) : value :=
  match field v k with
  | Return x => x
  | Throw _ => VUndef
  end.

(** [v === s] for a string literal [s]. *)
Definition is_string (v : value) (s : string) : bool :=
  match v with
  | VStr x => bool_decide (x = s)
  | _ => false
  end.

(** [v == null]. *)
Definition nullish (v : value) : bool :=
  match v with
  | VUndef | VNull => true
  | _ => false
  end.

(** ToString, as Node prints it. *)
Fixpoint js_toString (v : value) : string :=
  match v with
  | VUndef => "undefined"
  | VNull => "null"
  | VBool true => "true"
  | VBool false => "false"
  | VNum n => pretty n
  | VStr s => s
  | VArr l =>
      String.concat ","
        (map (fun x => match x with
                       | VUndef | VNull => ""
                       | _ => js_toString x
                       end) l)
  | VObj _ => "[object Object]"
  | VNative k =>
      if bool_decide (k = "__proto__") then "[object Object]"
      else "function " +:+ native_name k +:+ "() { [native code] }"
  end.

(** [{ ...v }]: the own enumerable properties of [v].  Objects give their
    properties, arrays their elements under their indexes, functions and
    the other primitives nothing, a string its characters under their
    indexes (code units in JavaScript, bytes here: the same on ASCII). *)
Definition index_map (l : list value) : obj :=
  list_to_map (imap (fun i x => (pretty (Z.of_nat i), x)) l).

Definition spread (v : value) : obj :=
  match v with
  | VObj m => m
  | VArr l => index_map l
  | VStr s => index_map ((fun a => VStr (String a EmptyString)) <$> String.list_ascii_of_string s)
  | _ => ∅
  end.

(** A page (Document) as the client returns it. *)
Record page : Type := Page {
  page_id : string;
  properties : obj
}.

(** The filters the orchestrators pass to [queryDatabase]. *)
Inductive query_filter : Type :=
| StatusEquals (property : string) (status : string)
| NumberEquals (property : string) (number : value).

(** Sequencing of calls that may throw. *)
Definition bind {A B} (c : completion A) (k : A -> completion B) : completion B :=
  match c with
  | Return a => k a
  | Throw e => Throw e
  end.

End JS.
Export JS.

Notation "x <- c ;; k" := (bind c (fun x => k))
  (at level 100, c at next level, right associativity).

(** ** utils.js *)

Module Utils.

(** [getTimestamp]: the local time that [new Date()] holds, as its
    getters give it; the month counts from 0. *)
Record date : Type := Date {
  getFullYear : Z;
  getMonth : Z;
  getDate : Z;
  getHours : Z;
  getMinutes : Z;
  getSeconds : Z
}.

(** [s.padStart(2, '0')]. *)
Definition padStart2 (s : string) : string :=
  match String.length s with
  | 0%nat => "00" +:+ s
  | 1%nat => "0" +:+ s
  | _ => s
  end.

(** [pad]: [String(n).padStart(2, '0')]. *)
Definition pad (n : Z) : string := padStart2 (pretty n).

Definition getTimestamp (now : date) : string :=
  pretty (getFullYear now) +:+ "-" +:+ pad (getMonth now + 1) +:+ "-"
  +:+ pad (getDate now) +:+ " " +:+ pad (getHours now) +:+ ":"
  +:+ pad (getMinutes now) +:+ ":" +:+ pad (getSeconds now).

(** [log]: one line on one of the two streams of the console. *)
Record console : Type := Console {
  stdout : list string;
  stderr : list string
}.

Definition log (now : date) (level message : string) (c : console) : console :=
  let timestamp := getTimestamp now in
  let line := "[" +:+ timestamp +:+ "] " +:+ level +:+ ": " +:+ message in
  if bool_decide (level = "ERROR")
  then Console (stdout c) (stderr c ++ [line])
  else Console (stdout c ++ [line]) (stderr c).

(** [getTypePrefix]: [mapping[jobType] || null]. *)
Definition mapping : obj :=
  {[ "動画制作" := VStr "video"; "デザイン制作" := VStr "design" ]}.

Definition getTypePrefix (jobType : value) : value :=
  js_or (js_get mapping (js_toString jobType)) VNull.

(** [getTargetDatabases]: the [switch] compares with [===], a template
    literal applies ToString to the prefix. *)
Definition getTargetDatabases (jobType level : value) : list string :=
  let typePrefix := getTypePrefix jobType in
  if negb (truthy typePrefix) then []
  else
    let p := js_toString typePrefix in
    if is_string level "レベル1" then
      [ p +:+ "_level1"; p +:+ "_level2"; p +:+ "_level3" ]
    else if is_string level "レベル2" then
      [ p +:+ "_level2"; p +:+ "_level3" ]
    else if is_string level "レベル3" then
      [ p +:+ "_level3" ]
    else [].

(** [buildPropertyValue].  The only operation that can throw is the
    [map] over the selections of a multi-choice field. *)
Definition name_of (item : value) : completion value :=
  n <- field item "name" ;; Return (VObj {[ "name" := n ]}).

Fixpoint map_name_of (items : list value) : completion (list value) :=
  match items with
  | [] => Return []
  | item :: rest =>
      x <- name_of item ;;
      xs <- map_name_of rest ;;
      Return (x :: xs)
  end.

Definition js_map_name_of (v : value) : completion value :=
  match v with
  | VArr items => xs <- map_name_of items ;; Return (VArr xs)
  | _ => Throw (TypeError "map is not a function")
  end.

Definition pass_through (prop : value) (k : string) : completion value :=
  x <- field prop k ;; Return (VObj {[ k := x ]}).

Definition rich_text_of (prop : value) : completion value :=
  x <- field prop "rich_text" ;;
  Return (VObj {[ "rich_text" := js_or x (VArr []) ]}).

Definition select_of (prop : value) : completion value :=
  sel <- field prop "select" ;;
  if truthy sel then
    n <- field sel "name" ;;
    Return (VObj {[ "select" := VObj {[ "name" := n ]} ]})
  else Return (VObj {[ "select" := VNull ]}).

Definition multi_select_of (prop : value) : completion value :=
  ms <- field prop "multi_select" ;;
  xs <- js_map_name_of (js_or ms (VArr [])) ;;
  Return (VObj {[ "multi_select" := xs ]}).

(** The [switch] compares [prop.type] with each label in turn, with
    [===]. *)
Definition buildPropertyValue (prop : value) : completion value :=
  ty <- field prop "type" ;;
  if is_string ty "rich_text" then rich_text_of prop
  else if is_string ty "number" then pass_through prop "number"
  else if is_string ty "select" then select_of prop
  else if is_string ty "multi_select" then multi_select_of prop
  else if is_string ty "date" then pass_through prop "date"
  else if is_string ty "url" then pass_through prop "url"
  else if is_string ty "checkbox" then pass_through prop "checkbox"
  else if is_string ty "email" then pass_through prop "email"
  else if is_string ty "phone_number" then pass_through prop "phone_number"
  else rich_text_of prop.

(** [mapProperties]: the copy loop over [copyFields] ... *)
Fixpoint copy_loop (sourceProps : obj) (copyFields : list string) (mapped : obj)
  : completion obj :=
  match copyFields with
  | [] => Return mapped
  | f :: rest =>
      if bool_decide (f = "案件詳細") then copy_loop sourceProps rest mapped
      else if bool_decide (f = "案件名") then copy_loop sourceProps rest mapped
      else
        let prop := js_get sourceProps f in
        if negb (truthy prop) then copy_loop sourceProps rest mapped
        else
          v <- buildPropertyValue prop ;;
          copy_loop sourceProps rest (js_set mapped f v)
  end.

(** ... then the title ... *)
Definition add_title (sourceProps mapped : obj) : completion obj :=
  let titleProp := js_get sourceProps "案件名" in
  if truthy titleProp then
    t <- field titleProp "title" ;;
    Return (<[ "案件名" := VObj {[ "title" := js_or t (VArr []) ]} ]> mapped)
  else Return mapped.

(** ... then the back-reference to the master record. *)
Definition add_master_id (sourceProps mapped : obj) : completion obj :=
  let masterIdProp := js_get sourceProps "案件ID" in
  if truthy masterIdProp then
    u <- field masterIdProp "unique_id" ;;
    if truthy u then
      n <- field u "number" ;;
      Return (<[ "マスター案件ID" := VObj {[ "number" := n ]} ]> mapped)
    else Return mapped
  else Return mapped.

Definition mapProperties (p : page) (copyFields : list string) : completion obj :=
  let sourceProps := properties p in
  mapped <- copy_loop sourceProps copyFields ∅ ;;
  mapped <- add_title sourceProps mapped ;;
  add_master_id sourceProps mapped.

(** [getPageTitle]; [join] prints [undefined] and [null] as nothing. *)
Definition join_string (v : value) : string :=
  if nullish v then "" else js_toString v.

Fixpoint plain_texts (spans : list value) : completion (list string) :=
  match spans with
  | [] => Return []
  | t :: rest =>
      x <- field t "plain_text" ;;
      xs <- plain_texts rest ;;
      Return (join_string x :: xs)
  end.

Definition untitled : string := "(無題)".

Definition getPageTitle (p : page) : completion string :=
  let titleProp := js_get (properties p) "案件名" in
  if negb (truthy titleProp) then Return untitled
  else
    t <- field titleProp "title" ;;
    if negb (truthy t) then Return untitled
    else
      match t with
      | VArr spans =>
          xs <- plain_texts spans ;;
          let s := String.concat "" xs in
          Return (if bool_decide (s = "") then untitled else s)
      | _ => Throw (TypeError "map is not a function")
      end.

(** [loadDbConfig]: the seven identifiers, the public ones in the order
    [Object.entries] lists them. *)
Record dbConfig : Type := DbConfig {
  master : string;
  public : list (string * string)
}.

Definition required : list (string * string) :=
  [ ("master", "NOTION_MASTER_DB_ID");
    ("video_level1", "NOTION_VIDEO_LEVEL1_DB_ID");
    ("video_level2", "NOTION_VIDEO_LEVEL2_DB_ID");
    ("video_level3", "NOTION_VIDEO_LEVEL3_DB_ID");
    ("design_level1", "NOTION_DESIGN_LEVEL1_DB_ID");
    ("design_level2", "NOTION_DESIGN_LEVEL2_DB_ID");
    ("design_level3", "NOTION_DESIGN_LEVEL3_DB_ID") ].

(** [process.env[k]], [undefined] read as the empty string: both are
    falsy. *)
Definition getenv (env : gmap string string) (k : string) : string :=
  default "" (env !! k).

Definition unset (env : gmap string string) (k : string) : bool :=
  bool_decide (getenv env k = "").

Definition loadDbConfig (env : gmap string string) : completion dbConfig :=
  let missing := filter (fun e => unset env e = true) (snd <$> required) in
  if (0 <? length missing)%nat then
    Throw (Error ("必須環境変数が未設定です: " +:+ String.concat ", " missing))
  else
    Return {| master := getenv env "NOTION_MASTER_DB_ID";
              public := [ ("video_level1", getenv env "NOTION_VIDEO_LEVEL1_DB_ID");
                          ("video_level2", getenv env "NOTION_VIDEO_LEVEL2_DB_ID");
                          ("video_level3", getenv env "NOTION_VIDEO_LEVEL3_DB_ID");
                          ("design_level1", getenv env "NOTION_DESIGN_LEVEL1_DB_ID");
                          ("design_level2", getenv env "NOTION_DESIGN_LEVEL2_DB_ID");
                          ("design_level3", getenv env "NOTION_DESIGN_LEVEL3_DB_ID") ] |}.

End Utils.

(** ** notion-client.js *)

Module NotionClient.

Definition MAX_RETRIES : nat := 3.
Definition API_INTERVAL_MS : Z := 350.

(** [error.code === 'rate_limited']. *)
Definition rate_limited (error : exn) : bool :=
  match error with
  | Api e => bool_decide (code e = Some "rate_limited")
  | _ => false
  end.

(** [(error.headers?.['retry-after'] || 60) * 1000]. *)
Definition retryAfter (error : exn) : Z :=
  match error with
  | Api e =>
      match retry_after e with
      | Some n => (if n =? 0 then 60 else n) * 1000
      | None => 60 * 1000
      end
  | _ => 60 * 1000
  end.

Definition retryableCodes : list string :=
  ["ECONNREFUSED"; "ECONNRESET"; "ETIMEDOUT"; "rate_limited"].

(** [isRetryable]. *)
Definition isRetryable (error : exn) : bool :=
  match error with
  | Api e =>
      if match code e with
         | Some c => bool_decide (c ∈ retryableCodes)
         | None => false
         end
      then true
      else match status e with
           | Some st => 500 <=? st
           | None => false
           end
  | _ => false
  end.

(** [Math.pow(2, attempt) * 1000]. *)
Definition backoff (attempt : nat) : Z := 2 ^ Z.of_nat attempt * 1000.

(** What one run of the wrapper does, in order: each invocation of the
    wrapped call with its attempt number and how it ended, and each
    sleep with its duration in milliseconds. *)
Inductive retry_event : Type :=
| Succeeded (attempt : nat)
| Failed (attempt : nat) (error : exn)
| Sleep (ms : Z).

Section WithRetry.
Context {W R : Type}.

(** The wrapped call: it acts on the remote world and returns or
    throws. *)
Definition thunk : Type := W -> completion R * W.

(** The [for] loop of [withRetry] from a given attempt number.  The
    result [Return None] is the [undefined] the function returns when
    the loop ends without a [return] or a [throw]. *)
Fixpoint retry_from (fuel attempt : nat) (fn : thunk) (w : W)
  : option (completion (option R) * W * list retry_event) :=
  if bool_decide (attempt ≤ MAX_RETRIES)%nat then
    match fuel with
    | O => None
    | S fuel' =>
        match fn w with
        | (Return result, w') =>
            Some (Return (Some result), w',
                  [Succeeded attempt; Sleep API_INTERVAL_MS])
        | (Throw error, w') =>
            if rate_limited error then
              match retry_from fuel' (S attempt) fn w' with
              | Some (c, w'', tr) =>
                  Some (c, w'', Failed attempt error :: Sleep (retryAfter error) :: tr)
              | None => None
              end
            else if bool_decide (attempt < MAX_RETRIES)%nat && isRetryable error then
              match retry_from fuel' (S attempt) fn w' with
              | Some (c, w'', tr) =>
                  Some (c, w'', Failed attempt error :: Sleep (backoff attempt) :: tr)
              | None => None
              end
            else Some (Throw error, w', [Failed attempt error])
        end
    end
  else Some (Return None, w, []).

Definition withRetry (fn : thunk) (w : W)
  : option (completion (option R) * W * list retry_event) :=
  retry_from MAX_RETRIES 1 fn w.

End WithRetry.

(** The client of the remote store, as the module uses it: the four
    calls of the SDK, acting on the remote world; a listing call answers
    one page of results. *)
Record response (A : Type) : Type := Response {
  results : list A;
  has_more : bool;
  next_cursor : value
}.
Arguments Response {A}.
Arguments results {A}.
Arguments has_more {A}.
Arguments next_cursor {A}.

Record sdk (W : Type) : Type := {
  databases_query : value -> query_filter -> value -> W -> completion (response page) * W;
  pages_create : value -> obj -> option (list obj) -> W -> completion page * W;
  pages_update_archived : string -> W -> completion page * W;
  blocks_children_list : string -> value -> W -> completion (response obj) * W
}.
Arguments databases_query {W}.
Arguments pages_create {W}.
Arguments pages_update_archived {W}.
Arguments blocks_children_list {W}.

Section Calls.
Context {W : Type} (notion : sdk W).

(** The [do ... while (cursor)] loop of [queryDatabase] and of
    [getPageBlocks]: each page is fetched through [withRetry]; reading
    [results] of the [undefined] that [withRetry] may return is a
    TypeError.  The fuel bounds the number of pages. *)
Fixpoint paginate {A} (fuel : nat) (list_page : value -> thunk (W := W) (R := response A))
    (cursor : value) (pages : list A) (w : W)
  : option (completion (list A) * W * list retry_event) :=
  match fuel with
  | O => None
  | S fuel' =>
      match withRetry (list_page cursor) w with
      | None => None
      | Some (Throw e, w', tr) => Some (Throw e, w', tr)
      | Some (Return None, w', tr) =>
          Some (Throw (TypeError "Cannot read properties of undefined, reading results"),
                w', tr)
      | Some (Return (Some response), w', tr) =>
          let pages := (pages ++ results response)%list in
          let cursor := if has_more response then next_cursor response else VUndef in
          if truthy cursor then
            match paginate fuel' list_page cursor pages w' with
            | Some (c, w'', tr') => Some (c, w'', (tr ++ tr')%list)
            | None => None
            end
          else Some (Return pages, w', tr)
      end
  end.

Definition queryDatabase (fuel : nat) (databaseId : value) (f : query_filter) (w : W)
  : option (completion (list page) * W * list retry_event) :=
  paginate fuel (databases_query notion databaseId f) VUndef [] w.

(** [createPage]: the children are sent only when there are some. *)
Definition createPage (databaseId : value) (properties : obj) (children : list obj) (w : W)
  : option (completion (option page) * W * list retry_event) :=
  let children := if (0 <? length children)%nat then Some children else None in
  withRetry (pages_create notion databaseId properties children) w.

Definition archivePage (pageId : string) (w : W)
  : option (completion (option page) * W * list retry_event) :=
  withRetry (pages_update_archived notion pageId) w.

Definition getPageBlocks (fuel : nat) (pageId : string) (w : W)
  : option (completion (list obj) * W * list retry_event) :=
  paginate fuel (blocks_children_list notion pageId) VUndef [] w.

End Calls.

(** How many times the wrapped call was invoked. *)
Definition is_attempt (ev : retry_event) : bool :=
  match ev with
  | Succeeded _ | Failed _ _ => true
  | Sleep _ => false
  end.

Definition attempts (tr : list retry_event) : nat :=
  length (filter (fun ev => is_attempt ev = true) tr).


End NotionClient.

(** ** The client as the orchestrators see it *)

Module Client.

(** The four functions sync.js and cleanup.js import from
    notion-client.js, acting on a remote world [W].  [createPage] and
    [archivePage] hand back what [withRetry] returns, which may be
    [undefined] ([None]). *)
Record client (W : Type) : Type := {
  queryDatabase : value -> query_filter -> W -> completion (list page) * W;
  createPage : value -> obj -> list obj -> W -> completion (option page) * W;
  archivePage : string -> W -> completion (option page) * W;
  getPageBlocks : string -> W -> completion (list obj) * W
}.
Arguments queryDatabase {W}.
Arguments createPage {W}.
Arguments archivePage {W}.
Arguments getPageBlocks {W}.

(** What an orchestrator does that can be observed: its calls of the
    routing table, and its calls of the client with what they gave. *)
Inductive call : Type :=
| Routed (jobType level : value)
| Queried (databaseId : value) (f : query_filter) (result : completion (list page))
| Created (databaseId : value) (properties : obj) (children : list obj)
    (result : completion (option page))
| Archived (pageId : string) (result : completion (option page))
| ListedBlocks (pageId : string) (result : completion (list obj)).

Definition is_create (c : call) : bool :=
  match c with Created _ _ _ _ => true | _ => false end.
Definition is_archive (c : call) : bool :=
  match c with Archived _ _ => true | _ => false end.
Definition is_query (c : call) : bool :=
  match c with Queried _ _ _ => true | _ => false end.
Definition is_routing (c : call) : bool :=
  match c with Routed _ _ => true | _ => false end.

(** [dbConfig.public[dbKey]]. *)
Definition public_get (cfg : Utils.dbConfig) (dbKey : string) : value :=
  js_get (list_to_map ((fun e => (e.1, VStr e.2)) <$> Utils.public cfg)) dbKey.

(** The counters and the trace of a run. *)
Record run (W : Type) : Type := Run {
  world : W;
  calls : list call;
  createdCount : nat;
  skippedCount : nat;
  archivedCount : nat;
  errorCount : nat
}.
Arguments Run {W}.
Arguments world {W}.
Arguments calls {W}.
Arguments createdCount {W}.
Arguments skippedCount {W}.
Arguments archivedCount {W}.
Arguments errorCount {W}.

Definition start {W} (w : W) : run W := Run w [] 0 0 0 0.

Definition called {W} (c : call) (w : W) (s : run W) : run W :=
  Run w (calls s ++ [c]) (createdCount s) (skippedCount s) (archivedCount s) (errorCount s).
Definition created {W} (s : run W) : run W :=
  Run (world s) (calls s) (S (createdCount s)) (skippedCount s) (archivedCount s) (errorCount s).
Definition skipped {W} (s : run W) : run W :=
  Run (world s) (calls s) (createdCount s) (S (skippedCount s)) (archivedCount s) (errorCount s).
Definition archived {W} (s : run W) : run W :=
  Run (world s) (calls s) (createdCount s) (skippedCount s) (S (archivedCount s)) (errorCount s).
Definition failed {W} (s : run W) : run W :=
  Run (world s) (calls s) (createdCount s) (skippedCount s) (archivedCount s) (S (errorCount s)).

(** How a run of [main] ends: by returning, through [process.exit(1)],
    or with an exception nothing catches. *)
Inductive ending : Type :=
| Completed
| Exit1
| Uncaught (e : exn).

End Client.
Export Client.

(** ** sync.js *)

Module Sync.

(** [sanitizeBlock]. *)
Definition read_only : list string :=
  [ "id"; "created_time"; "last_edited_time"; "created_by"; "last_edited_by";
    "has_children"; "parent"; "archived" ].

(** The eight [delete] statements, in their order. *)
Definition strip (content : obj) : obj :=
  fold_left (fun sanitized k => delete k sanitized) read_only content.

Definition sanitizeBlock (block : obj) : obj :=
  let type := js_get block "type" in
  let key := js_toString type in
  let content := js_get block key in
  if negb (truthy content) then <[ key := VObj ∅ ]> {[ "type" := type ]}
  else <[ key := VObj (strip (spread content)) ]> {[ "type" := type ]}.

(** The filter of [main] on the blocks of a page. *)
Definition duplicable (b : obj) : bool :=
  negb (is_string (js_get b "type") "child_database")
  && negb (is_string (js_get b "type") "child_page").

Definition sanitized_children (blocks : list obj) : list obj :=
  sanitizeBlock <$> filter (fun b => duplicable b = true) blocks.

(** The three values [main] reads from a master record. *)
Definition select_name (job : page) (property : string) : value :=
  opt_field (opt_field (js_get (properties job) property) "select") "name".

Definition jobType_of (job : page) : value := select_name job "案件タイプ".
Definition level_of (job : page) : value := select_name job "レベル".
Definition masterId_of (job : page) : value :=
  opt_field (opt_field (js_get (properties job) "案件ID") "unique_id") "number".

(** [!jobType || !level || masterId == null]. *)
Definition inconsistent (job : page) : bool :=
  negb (truthy (jobType_of job)) || negb (truthy (level_of job))
  || nullish (masterId_of job).

Definition existence_filter (masterId : value) : query_filter :=
  NumberEquals "マスター案件ID" masterId.

Section Main.
Context {W : Type} (cl : client W).
Variable dbConfig : Utils.dbConfig.
Variable copy : list string.

(** The body of the loop over the target keys of one record. *)
Definition place (masterId : value) (mapped : obj) (children : list obj)
  (s : run W) (dbKey : string) : run W :=
  let targetDbId := public_get dbConfig dbKey in
  if negb (truthy targetDbId) then failed s
  else
    let '(existing, w1) :=
      queryDatabase cl targetDbId (existence_filter masterId) (world s) in
    let s1 := called (Queried targetDbId (existence_filter masterId) existing) w1 s in
    match existing with
    | Throw _ => failed s1
    | Return existing =>
        if (0 <? length existing)%nat then skipped s1
        else
          let '(made, w2) := createPage cl targetDbId mapped children (world s1) in
          let s2 := called (Created targetDbId mapped children made) w2 s1 in
          match made with
          | Return (Some _) => created s2
          | Return None => failed s2
          | Throw _ => failed s2
          end
    end.

(** The page content: fetched and sanitized, or empty when that
    fails. *)
Definition fetch_children (job : page) (s : run W) : list obj * run W :=
  let '(blocks, w1) := getPageBlocks cl (page_id job) (world s) in
  let s1 := called (ListedBlocks (page_id job) blocks) w1 s in
  match blocks with
  | Return blocks => (sanitized_children blocks, s1)
  | Throw _ => ([], s1)
  end.

(** The body of the loop over the records.  A [Throw] leaves the loop
    for the handler around it. *)
Definition replicate (s : run W) (job : page) : completion (run W) :=
  _ <- Utils.getPageTitle job ;;
  if inconsistent job then Return (failed s)
  else
    let targetDbKeys := Utils.getTargetDatabases (jobType_of job) (level_of job) in
    let s := called (Routed (jobType_of job) (level_of job)) (world s) s in
    if (length targetDbKeys =? 0)%nat then Return (skipped s)
    else
      mapped <- Utils.mapProperties job copy ;;
      let '(children, s) := fetch_children job s in
      Return (fold_left (place (masterId_of job) mapped children) targetDbKeys s).

(** The loop over the records: it ends with the list, or with the first
    record whose processing throws. *)
Fixpoint replicate_all (s : run W) (jobs : list page) : option exn * run W :=
  match jobs with
  | [] => (None, s)
  | job :: rest =>
      match replicate s job with
      | Return s' => replicate_all s' rest
      | Throw e => (Some e, s)
      end
  end.

Definition open_filter : query_filter := StatusEquals "ステータス" "募集中".

(** The [try] block of [main]. *)
Definition sync (w : W) : ending * run W :=
  let s := start w in
  let '(activeJobs, w1) :=
    queryDatabase cl (VStr (Utils.master dbConfig)) open_filter (world s) in
  let s := called (Queried (VStr (Utils.master dbConfig)) open_filter activeJobs) w1 s in
  match activeJobs with
  | Throw _ => (Exit1, s)
  | Return activeJobs =>
      if (length activeJobs =? 0)%nat then (Completed, s)
      else
        match replicate_all s activeJobs with
        | (None, s') => (Completed, s')
        | (Some _, s') => (Exit1, s')
        end
  end.

End Main.

(** [main]: the credential, the configuration, then the [try] block. *)
Definition main {W} (cl : client W) (env : gmap string string)
  (copy : list string) (w : W) : ending * run W :=
  if Utils.unset env "NOTION_API_KEY" then (Exit1, start w)
  else
    match Utils.loadDbConfig env with
    | Throw e => (Uncaught e, start w)
    | Return dbConfig => sync cl dbConfig copy w
    end.

End Sync.

(** ** cleanup.js *)

Module Cleanup.

Definition closed_filter : query_filter := StatusEquals "ステータス" "募集終了".

Section Main.
Context {W : Type} (cl : client W).
Variable dbConfig : Utils.dbConfig.

(** The loop over the pages found in one collection: it ends with the
    list, or with the first archive call that throws. *)
Fixpoint archive_all (s : run W) (found : list page) : option exn * run W :=
  match found with
  | [] => (None, s)
  | p :: rest =>
      let '(r, w1) := archivePage cl (page_id p) (world s) in
      let s1 := called (Archived (page_id p) r) w1 s in
      match r with
      | Return _ => archive_all (archived s1) rest
      | Throw e => (Some e, s1)
      end
  end.

(** The body of the loop over the public collections. *)
Definition retract (masterId : value) (s : run W) (entry : string * string) : run W :=
  let dbId := entry.2 in
  if negb (truthy (VStr dbId)) then s
  else
    let '(found, w1) :=
      queryDatabase cl (VStr dbId) (Sync.existence_filter masterId) (world s) in
    let s1 := called (Queried (VStr dbId) (Sync.existence_filter masterId) found) w1 s in
    match found with
    | Throw _ => failed s1
    | Return found =>
        match archive_all s1 found with
        | (None, s2) => s2
        | (Some _, s2) => failed s2
        end
    end.

(** The body of the loop over the records. *)
Definition retire (s : run W) (job : page) : completion (run W) :=
  _ <- Utils.getPageTitle job ;;
  let masterId := Sync.masterId_of job in
  if nullish masterId then Return (failed s)
  else Return (fold_left (retract masterId) (Utils.public dbConfig) s).

Fixpoint retire_all (s : run W) (jobs : list page) : option exn * run W :=
  match jobs with
  | [] => (None, s)
  | job :: rest =>
      match retire s job with
      | Return s' => retire_all s' rest
      | Throw e => (Some e, s)
      end
  end.

(** The [try] block of [main]. *)
Definition cleanup (w : W) : ending * run W :=
  let s := start w in
  let '(closedJobs, w1) :=
    queryDatabase cl (VStr (Utils.master dbConfig)) closed_filter (world s) in
  let s := called (Queried (VStr (Utils.master dbConfig)) closed_filter closedJobs) w1 s in
  match closedJobs with
  | Throw _ => (Exit1, s)
  | Return closedJobs =>
      if (length closedJobs =? 0)%nat then (Completed, s)
      else
        match retire_all s closedJobs with
        | (None, s') => (Completed, s')
        | (Some _, s') => (Exit1, s')
        end
  end.

End Main.

Definition main {W} (cl : client W) (env : gmap string string) (w : W)
  : ending * run W :=
  if Utils.unset env "NOTION_API_KEY" then (Exit1, start w)
  else
    match Utils.loadDbConfig env with
    | Throw e => (Uncaught e, start w)
    | Return dbConfig => cleanup cl dbConfig w
    end.

End Cleanup.

(** ** Test doubles

    A scripted call for the retry wrapper, and a store kept in memory that
    answers the four client functions without ever failing. *)

(** A wrapped call that follows a script: the outcomes of its successive
    invocations, the last one repeated for ever. *)
Definition scripted {R} (last : completion R) : NotionClient.thunk (W := list (completion R)) :=
  fun w => match w with
           | [] => (last, [])
           | c :: rest => (c, rest)
           end.

(** A wrapped call that ends the same way each time. *)
Definition always {W R} (c : completion R) : NotionClient.thunk (W := W) :=
  fun w => (c, w).

Definition rate_limit_error (after : option Z) : exn :=
  Api {| code := Some "rate_limited"; status := Some 429;
         retry_after := after; message := "rate limited" |}.

Definition server_error : exn :=
  Api {| code := None; status := Some 503; retry_after := None;
         message := "service unavailable" |}.

Definition validation_error : exn :=
  Api {| code := Some "validation_error"; status := Some 400;
         retry_after := None; message := "bad request" |}.

Module Memory.

(** One stored document: the collection it lives in, the page, and
    whether it was archived. *)
Record entry : Type := Entry {
  collection : string;
  document : page;
  is_archived : bool
}.

Record store : Type := Store {
  entries : list entry;
  contents : gmap string (list obj)
}.

(** Does a page satisfy a filter?  A status filter compares the name of
    the status, a number filter the number. *)
Definition same_number (a b : value) : bool :=
  match a, b with
  | VNum x, VNum y => x =? y
  | _, _ => false
  end.

Definition satisfies (f : query_filter) (p : page) : bool :=
  match f with
  | StatusEquals property st =>
      is_string (opt_field (opt_field (js_get (properties p) property) "status") "name") st
  | NumberEquals property n =>
      same_number (opt_field (js_get (properties p) property) "number") n
  end.

Definition selected (db : string) (f : query_filter) (e : entry) : bool :=
  bool_decide (collection e = db) && negb (is_archived e) && satisfies f (document e).

Definition not_found : exn :=
  Api {| code := Some "object_not_found"; status := Some 404;
         retry_after := None; message := "not found" |}.

Definition invalid_filter : exn :=
  Api {| code := Some "validation_error"; status := Some 400;
         retry_after := None; message := "number filter on a value that is no number" |}.

(** A number filter needs a number. *)
Definition well_formed (f : query_filter) : bool :=
  match f with
  | NumberEquals _ (VNum _) => true
  | NumberEquals _ _ => false
  | StatusEquals _ _ => true
  end.

Definition query (db : value) (f : query_filter) (w : store)
  : completion (list page) * store :=
  match db with
  | VStr d =>
      if well_formed f
      then (Return (document <$> filter (fun e => selected d f e = true) (entries w)), w)
      else (Throw invalid_filter, w)
  | _ => (Throw not_found, w)
  end.

Definition fresh_id (w : store) : string :=
  "page-" +:+ pretty (Z.of_nat (length (entries w))).

Definition create (db : value) (props : obj) (children : list obj) (w : store)
  : completion (option page) * store :=
  match db with
  | VStr d =>
      let p := Page (fresh_id w) props in
      (Return (Some p),
       Store (entries w ++ [Entry d p false]) (<[ page_id p := children ]> (contents w)))
  | _ => (Throw not_found, w)
  end.

Definition mark (pageId : string) (e : entry) : entry :=
  if bool_decide (page_id (document e) = pageId)
  then Entry (collection e) (document e) true
  else e.

Definition archive (pageId : string) (w : store)
  : completion (option page) * store :=
  match filter (fun e => page_id (document e) = pageId) (entries w) with
  | [] => (Throw not_found, w)
  | e :: _ => (Return (Some (document e)), Store (mark pageId <$> entries w) (contents w))
  end.

Definition blocks (pageId : string) (w : store)
  : completion (list obj) * store :=
  (Return (default [] (contents w !! pageId)), w).

Definition memory : client store :=
  {| queryDatabase := query;
     createPage := create;
     archivePage := archive;
     getPageBlocks := blocks |}.

(** The same store, whose listing of page content always fails. *)
Definition without_content : client store :=
  {| queryDatabase := query;
     createPage := create;
     archivePage := archive;
     getPageBlocks := fun _ w =>
       (Throw (Api {| code := None; status := Some 503; retry_after := None;
                      message := "service unavailable" |}), w) |}.

End Memory.

(** A remote store that is down: every call throws. *)
Definition unavailable : exn :=
  Api {| code := None; status := Some 503; retry_after := None;
         message := "service unavailable" |}.

Definition down : client unit :=
  {| queryDatabase := fun _ _ w => (Throw unavailable, w);
     createPage := fun _ _ _ w => (Throw unavailable, w);
     archivePage := fun _ w => (Throw unavailable, w);
     getPageBlocks := fun _ w => (Throw unavailable, w) |}.

(** A listing endpoint that serves a script of pages: the request with
    no cursor gets the first one, the request with cursor [i] the page
    [i]; each answer says whether another page follows and under which
    cursor. *)
Definition paged {A} (script : list (completion (list A))) (cursor : value)
  : NotionClient.thunk (W := unit) (R := NotionClient.response A) :=
  fun w =>
    let i := match cursor with VNum n => Z.to_nat n | _ => 0%nat end in
    match script !! i with
    | Some (Return chunk) =>
        let more := bool_decide (S i < length script)%nat in
        (Return (NotionClient.Response chunk more
                   (if more then VNum (Z.of_nat (S i)) else VNull)), w)
    | Some (Throw e) => (Throw e, w)
    | None => (Return (NotionClient.Response [] false VNull), w)
    end.

Definition paged_sdk (pages : list (completion (list page)))
    (blocks : list (completion (list obj))) : NotionClient.sdk unit :=
  {| NotionClient.databases_query := fun _ _ cursor => paged pages cursor;
     NotionClient.pages_create := fun _ props _ w => (Return (Page "new" props), w);
     NotionClient.pages_update_archived := fun pageId w => (Return (Page pageId ∅), w);
     NotionClient.blocks_children_list := fun _ cursor => paged blocks cursor |}.

(** A remote store that answers every attempt with a rate-limit error. *)
Definition throttled : NotionClient.sdk unit :=
  {| NotionClient.databases_query := fun _ _ _ w => (Throw (rate_limit_error (Some 1)), w);
     NotionClient.pages_create := fun _ _ _ w => (Throw (rate_limit_error (Some 1)), w);
     NotionClient.pages_update_archived := fun _ w => (Throw (rate_limit_error (Some 1)), w);
     NotionClient.blocks_children_list := fun _ _ w => (Throw (rate_limit_error (Some 1)), w) |}.

(** The client over such a store, as the orchestrators see it once the
    attempts are used up: the queries answer [found], the writes return
    [undefined]. *)
Definition exhausted (found : list page) : client unit :=
  {| queryDatabase := fun _ _ w => (Return found, w);
     createPage := fun _ _ _ w => (Return None, w);
     archivePage := fun _ w => (Return None, w);
     getPageBlocks := fun _ w => (Return [], w) |}.

(** The page and the copy list of the repository's tests. *)
Module Fixtures.

Definition text (s : string) : value :=
  VObj {[ "type" := VStr "text"; "plain_text" := VStr s;
          "text" := VObj {[ "content" := VStr s ]} ]}.

Definition option_named (s : string) : value := VObj {[ "name" := VStr s ]}.

Definition prop (ty : string) (v : value) : value :=
  VObj {[ "type" := VStr ty; ty := v ]}.

Definition mock_properties : obj :=
  list_to_map
    [ ("案件名", prop "title" (VArr [text "テスト案件"]));
      ("案件ID", prop "unique_id" (VObj {[ "number" := VNum 1001; "prefix" := VStr "JOB" ]}));
      ("カテゴリ", prop "select" (option_named "YouTube動画編集"));
      ("タグ", prop "multi_select" (VArr [option_named "YouTube"; option_named "横型"]));
      ("案件概要", prop "rich_text" (VArr [text "概要テキスト"]));
      ("報酬金額", prop "number" (VNum 50000));
      ("応募フォーム", prop "url" (VStr "https://example.com/form"));
      ("仕事の特徴", prop "multi_select" (VArr [option_named "未経験歓迎"]));
      ("経験レベル", prop "select" (option_named "未経験OK"));
      ("必須スキル", prop "multi_select" (VArr [option_named "Premiere Pro"]));
      ("推奨スキル", prop "multi_select" (VArr []));
      ("納期目安", prop "date" (VObj {[ "start" := VStr "2026-03-01"; "end" := VNull ]}));
      ("想定工数", prop "rich_text" (VArr [text "10時間"]));
      ("単発/継続", prop "select" (option_named "単発"));
      ("報酬形態", prop "select" (option_named "固定報酬"));
      ("報酬詳細", prop "rich_text" (VArr []));
      ("募集人数", prop "number" (VNum 3));
      ("契約形態", prop "multi_select" (VArr [option_named "業務委託"])) ].

Definition mockNotionPage : page := Page "test-page-id" mock_properties.

Definition copyFields : list string :=
  [ "案件名"; "カテゴリ"; "タグ"; "案件概要"; "仕事の特徴";
    "経験レベル"; "必須スキル"; "推奨スキル"; "納期目安"; "想定工数";
    "単発/継続"; "報酬形態"; "報酬金額"; "報酬詳細"; "募集人数";
    "契約形態"; "応募フォーム"; "案件詳細" ].

(** An Open master record: the test page with a category, a tier and a
    status. *)
Definition open_job (id : string) (masterId : Z) (category tier : string) : page :=
  Page id
    (<[ "案件ID" := prop "unique_id" (VObj {[ "number" := VNum masterId ]}) ]>
     (<[ "案件タイプ" := prop "select" (option_named category) ]>
      (<[ "レベル" := prop "select" (option_named tier) ]>
       (<[ "ステータス" := prop "status" (option_named "募集中") ]>
        mock_properties)))).

Definition closed_job (id : string) (masterId : Z) : page :=
  Page id
    (<[ "案件ID" := prop "unique_id" (VObj {[ "number" := VNum masterId ]}) ]>
     (<[ "ステータス" := prop "status" (option_named "募集終了") ]>
      mock_properties)).

(** A public record that mirrors master record [masterId]. *)
Definition copy_of (id : string) (masterId : Z) : page :=
  Page id {[ "マスター案件ID" := VObj {[ "number" := VNum masterId ]} ]}.

Definition env : gmap string string :=
  {[ "NOTION_API_KEY" := "secret";
     "NOTION_MASTER_DB_ID" := "db-master";
     "NOTION_VIDEO_LEVEL1_DB_ID" := "db-v1";
     "NOTION_VIDEO_LEVEL2_DB_ID" := "db-v2";
     "NOTION_VIDEO_LEVEL3_DB_ID" := "db-v3";
     "NOTION_DESIGN_LEVEL1_DB_ID" := "db-d1";
     "NOTION_DESIGN_LEVEL2_DB_ID" := "db-d2";
     "NOTION_DESIGN_LEVEL3_DB_ID" := "db-d3" ]}.

Definition config : Utils.dbConfig :=
  Utils.DbConfig "db-master"
    [ ("video_level1", "db-v1"); ("video_level2", "db-v2"); ("video_level3", "db-v3");
      ("design_level1", "db-d1"); ("design_level2", "db-d2"); ("design_level3", "db-d3") ].

(** Stores kept in memory: the master collection with one Open
    Tier1 video record and no copy yet; the same with a copy in the first
    target; the master collection with one Closed record and copies of it
    in two of the six public collections, two of them in one. *)
Definition job1 : page := open_job "job-1" 1001 "動画制作" "レベル1".

Definition fresh : Memory.store :=
  Memory.Store [Memory.Entry "db-master" job1 false] ∅.

Definition replicated_once : Memory.store :=
  Memory.Store [Memory.Entry "db-master" job1 false;
                Memory.Entry "db-v1" (copy_of "copy-1" 1001) false] ∅.

Definition job2 : page := closed_job "job-2" 2002.

Definition retired : Memory.store :=
  Memory.Store [Memory.Entry "db-master" job2 false;
                Memory.Entry "db-v2" (copy_of "copy-a" 2002) false;
                Memory.Entry "db-d3" (copy_of "copy-b" 2002) false;
                Memory.Entry "db-d3" (copy_of "copy-c" 2002) false;
                Memory.Entry "db-d3" (copy_of "other" 3003) false] ∅.

(** A record without tier. *)
Definition untiered : page :=
  Page "job-3"
    (<[ "案件ID" := prop "unique_id" (VObj {[ "number" := VNum 3003 ]}) ]>
     (<[ "案件タイプ" := prop "select" (option_named "動画制作") ]> mock_properties)).

(** A paragraph block as the client lists it. *)
Definition paragraph : obj :=
  {[ "object" := VStr "block"; "id" := VStr "b-1"; "type" := VStr "paragraph";
     "created_time" := VStr "2026-01-01T00:00:00.000Z";
     "last_edited_time" := VStr "2026-01-02T00:00:00.000Z";
     "created_by" := VObj {[ "id" := VStr "u-1" ]};
     "last_edited_by" := VObj {[ "id" := VStr "u-1" ]};
     "parent" := VObj {[ "page_id" := VStr "job-1" ]};
     "has_children" := VBool false; "archived" := VBool false;
     "paragraph" := VObj {[ "rich_text" := VArr [text "本文"]; "color" := VStr "default";
                            "id" := VStr "inner" ]} ]}.

End Fixtures.

(** * Vocabulary of the properties

    The words the specification uses, over the traces and the values of
    the embedding. *)

(** The cascade of the specification for a prefix and a tier. *)
Definition cascade (prefix : string) (level : string) : list string :=
  if bool_decide (level = "レベル1")
  then [prefix +:+ "_level1"; prefix +:+ "_level2"; prefix +:+ "_level3"]
  else if bool_decide (level = "レベル2")
  then [prefix +:+ "_level2"; prefix +:+ "_level3"]
  else if bool_decide (level = "レベル3")
  then [prefix +:+ "_level3"]
  else [].






Section Policy.
Context {W R : Type}.
Variable fn : NotionClient.thunk (W := W) (R := R).


End Policy.

(** What the copy loop does with one listed name: nothing for the two
    reserved names and for a name the source does not hold, the built
    value otherwise. *)
Definition reserved (f : string) : bool :=
  bool_decide (f = "案件詳細") || bool_decide (f = "案件名").

Definition copied (sourceProps : obj) (f : string) : option (completion value) :=
  if reserved f then None
  else
    let prop := js_get sourceProps f in
    if truthy prop then Some (Utils.buildPropertyValue prop) else None.

Definition passed_through : list string :=
  ["number"; "date"; "url"; "checkbox"; "email"; "phone_number"].

Definition named (sel : obj) : value :=
  VObj {[ "name" := default VUndef (sel !! "name") ]}.

Definition recognized : list string :=
  ["rich_text"; "number"; "select"; "multi_select"; "date"; "url"; "checkbox";
   "email"; "phone_number"].

(** A property of the mapper's output, [None] when the mapper throws. *)
Definition lookup_mapped (c : completion obj) (k : string) : option value :=
  match c with
  | Return m => m !! k
  | Throw _ => None
  end.

(** A content block: an object with a kind tag, whose payload under that
    kind, when it has one, is an object. *)
Definition content_block (b : obj) (t : string) : Prop :=
  b !! "type" = Some (VStr t) /\
  match b !! t with
  | None | Some VUndef | Some VNull | Some (VObj _) => True
  | _ => False
  end.

Definition payload (b : obj) (t : string) : obj :=
  match b !! t with
  | Some (VObj m) => m
  | _ => ∅
  end.

(** Every record [place] creates carries the mapped properties it was
    given. *)
Definition carries (mapped : obj) (c : call) : Prop :=
  match c with
  | Created _ props _ _ => props = mapped
  | _ => True
  end.

(** The calls the retraction of one record is made of, in the words of
    the specification: for each public collection in turn one existence
    query; when it returns, one archive call per record found, in order,
    up to the first archive call that throws; then the next collection,
    whatever happened in this one. *)
Inductive archives : list page -> list call -> Prop :=
| archives_done : archives [] []
| archives_next p rest r tr :
    archives rest tr ->
    archives (p :: rest) (Archived (page_id p) (Return r) :: tr)
| archives_thrown p rest e :
    archives (p :: rest) [Archived (page_id p) (Throw e)].

Inductive fan_out (masterId : value) : list string -> list call -> Prop :=
| fan_out_done : fan_out masterId [] []
| fan_out_query_thrown dbId dbIds e tr :
    fan_out masterId dbIds tr ->
    fan_out masterId (dbId :: dbIds)
      (Queried (VStr dbId) (Sync.existence_filter masterId) (Throw e) :: tr)
| fan_out_found dbId dbIds found atr tr :
    archives found atr ->
    fan_out masterId dbIds tr ->
    fan_out masterId (dbId :: dbIds)
      (Queried (VStr dbId) (Sync.existence_filter masterId) (Return found) :: atr ++ tr).

Section FanOut.
Context {W : Type} (cl : client W).



End FanOut.

Definition archive_returned (c : call) : bool :=
  match c with Archived _ (Return _) => true | _ => false end.

Definition thrown (c : call) : bool :=
  match c with
  | Queried _ _ (Throw _) | Archived _ (Throw _) => true
  | _ => false
  end.

Definition count (P : call -> bool) (tr : list call) : nat :=
  length (filter (fun c => P c = true) tr).


Definition archived_id (c : call) : list string :=
  match c with
  | Archived pageId _ => [pageId]
  | _ => []
  end.

Definition archive_calls (tr : list call) : list string := concat (archived_id <$> tr).

(** What a step leaves of the run it started from: the trace grows by
    [new], the archived tally by the archive calls that returned, the
    error tally by [errs]; nothing is created or skipped. *)
Definition grows {W} (s s' : run W) (new : list call) (errs : nat) : Prop :=
  calls s' = (calls s ++ new)%list
  /\ archivedCount s' = (archivedCount s + count archive_returned new)%nat
  /\ errorCount s' = (errorCount s + errs)%nat
  /\ createdCount s' = createdCount s
  /\ skippedCount s' = skippedCount s.

(** The ending and the four tallies of a run; the records a trace
    creates, with the collection and the masterId of each. *)
Definition tallies {W} (r : ending * run W) : ending * (nat * nat * nat * nat) :=
  (r.1, (createdCount r.2, skippedCount r.2, archivedCount r.2, errorCount r.2)).

Definition created_in (tr : list call) : list (value * option value) :=
  concat ((fun c => match c with
                    | Created db props _ _ => [(db, props !! "マスター案件ID")]
                    | _ => []
                    end) <$> tr).

(** The words of the idempotence property, on the store in memory. *)

(** The collection [d] of the store holds a live copy of master record
    [n]. *)
Definition has_copy (w : Memory.store) (d : string) (n : Z) : Prop :=
  exists e, e ∈ Memory.entries w
    /\ Memory.selected d (Sync.existence_filter (VNum n)) e = true.

(** The store [w'] is [w] with more documents, all of them in the
    collections [ds], and nothing archived. *)
Definition extends (ds : list string) (w w' : Memory.store) : Prop :=
  exists more, Memory.entries w' = (Memory.entries w ++ more)%list
    /\ Forall (fun e => Memory.collection e ∈ ds) more.

(** Every target of the record, when it passes the validation, holds a
    copy of it. *)
Definition settled (dbConfig : Utils.dbConfig) (w : Memory.store) (job : page) : Prop :=
  Sync.inconsistent job = false ->
  forall dbKey d n,
    dbKey ∈ Utils.getTargetDatabases (Sync.jobType_of job) (Sync.level_of job) ->
    public_get dbConfig dbKey = VStr d -> d <> "" ->
    Sync.masterId_of job = VNum n ->
    has_copy w d n.

(** The Open records the store lists. *)
Definition open_records (dbConfig : Utils.dbConfig) (w : Memory.store) : list page :=
  Memory.document <$>
    filter (fun e => Memory.selected (Utils.master dbConfig) Sync.open_filter e = true)
           (Memory.entries w).

(** Two records the code cannot read: an Open record whose title has a
    hole where a span should be, and a page whose tags are a text and not
    a list. *)
Definition holed_title : page :=
  Page "job-4"
    (<[ "案件名" := Fixtures.prop "title" (VArr [VNull]) ]> (properties Fixtures.job1)).

Definition broken_tags : page :=
  Page "job-5" {[ "タグ" := Fixtures.prop "multi_select" (VStr "YouTube") ]}.

(** The words of the further properties. *)

(** A multi-choice value the mapper cannot convert: something that is
    not a list, or a list with a hole. *)
Definition malformed_choices (ms : value) : Prop :=
  truthy ms = true /\
  match ms with
  | VArr items => exists item, item ∈ items /\ nullish item = true
  | _ => True
  end.

(** A date of the calendar, with a year of four digits. *)
Definition calendar (now : Utils.date) : Prop :=
  1000 <= Utils.getFullYear now <= 9999 /\ 0 <= Utils.getMonth now <= 11
  /\ 1 <= Utils.getDate now <= 31 /\ 0 <= Utils.getHours now <= 23
  /\ 0 <= Utils.getMinutes now <= 59 /\ 0 <= Utils.getSeconds now <= 59.

(** Reading a timestamp back: the decimal digits of each field, between
    the separators of the format YYYY-MM-DD HH:mm:ss. *)
Definition digit (a : Ascii.ascii) : option Z :=
  let n := Ascii.nat_of_ascii a in
  if (48 <=? n)%nat && (n <=? 57)%nat then Some (Z.of_nat n - 48) else None.

Fixpoint number (acc : Z) (s : list Ascii.ascii) : option Z :=
  match s with
  | [] => Some acc
  | a :: rest =>
      match digit a with
      | Some d => number (10 * acc + d) rest
      | None => None
      end
  end.

Definition is_char (a : Ascii.ascii) (c : nat) : bool :=
  (Ascii.nat_of_ascii a =? c)%nat.

Definition read_timestamp (s : string) : option Utils.date :=
  match String.list_ascii_of_string s with
  | [y1; y2; y3; y4; p1; m1; m2; p2; d1; d2; p3; h1; h2; p4; n1; n2; p5; s1; s2] =>
      if is_char p1 45 && is_char p2 45 && is_char p3 32 && is_char p4 58 && is_char p5 58
      then
        match number 0 [y1; y2; y3; y4], number 0 [m1; m2], number 0 [d1; d2],
              number 0 [h1; h2], number 0 [n1; n2], number 0 [s1; s2] with
        | Some y, Some mo, Some d, Some h, Some n, Some sec =>
            Some (Utils.Date y (mo - 1) d h n sec)
        | _, _, _, _, _, _ => None
        end
      else None
  | _ => None
  end.

(** The text [s] is the number [n] written with [width] digits. *)
Definition written (width : nat) (s : string) (n : Z) : bool :=
  (length (String.list_ascii_of_string s) =? width)%nat
  && match number 0 (String.list_ascii_of_string s) with
     | Some m => m =? n
     | None => false
     end.

(** One request that succeeds at once, and the pause after it. *)
Definition one_request : list NotionClient.retry_event :=
  [NotionClient.Succeeded 1; NotionClient.Sleep NotionClient.API_INTERVAL_MS].

Section Listing.
Context {W A : Type}.
Variable list_page : value -> NotionClient.thunk (W := W) (R := NotionClient.response A).

(** The endpoint answers the request at [cursor] and the requests that
    follow it with the pages [chunks], the last of which announces no
    other. *)
Inductive serves : value -> W -> list (list A) -> W -> Prop :=
| serves_last cursor w r w' :
    list_page cursor w = (Return r, w') ->
    NotionClient.has_more r = false \/ truthy (NotionClient.next_cursor r) = false ->
    serves cursor w [NotionClient.results r] w'
| serves_more cursor w r w1 chunks w' :
    list_page cursor w = (Return r, w1) ->
    NotionClient.has_more r = true -> truthy (NotionClient.next_cursor r) = true ->
    serves (NotionClient.next_cursor r) w1 chunks w' ->
    serves cursor w (NotionClient.results r :: chunks) w'.

(** The endpoint answers [n] requests from [cursor] on with pages that
    each announce another, then fails with [e]. *)
Inductive breaks (e : exn) : value -> W -> nat -> W -> Prop :=
| breaks_now cursor w w' :
    list_page cursor w = (Throw e, w') ->
    breaks e cursor w 0 w'
| breaks_later cursor w r w1 n w' :
    list_page cursor w = (Return r, w1) ->
    NotionClient.has_more r = true -> truthy (NotionClient.next_cursor r) = true ->
    breaks e (NotionClient.next_cursor r) w1 n w' ->
    breaks e cursor w (S n) w'.

End Listing.

(** A trace in which every create call comes right after a query of the
    same collection for the masterId the new record carries, a query
    that found nothing. *)
Inductive checked : list call -> Prop :=
| checked_nil : checked []
| checked_create db masterId props children r tr :
    props !! "マスター案件ID" = Some (VObj {[ "number" := masterId ]}) ->
    checked tr ->
    checked (Queried db (Sync.existence_filter masterId) (Return [])
             :: Created db props children r :: tr)
| checked_other c tr :
    is_create c = false -> checked tr -> checked (c :: tr).

Definition create_returned (c : call) : bool :=
  match c with Created _ _ _ (Return (Some _)) => true | _ => false end.

(** The three tallies of the forward sync, together. *)
Definition accounted {W} (s : run W) : nat :=
  (createdCount s + skippedCount s + errorCount s)%nat.

(** What a step of the forward sync leaves of the run it started from:
    the trace grows by [new], the created tally by the create calls that
    returned a page, the three tallies together by [outcomes]; nothing is
    archived. *)
Definition advances {W} (s s' : run W) (new : list call) (outcomes : nat) : Prop :=
  calls s' = (calls s ++ new)%list
  /\ checked new
  /\ Forall (fun c => is_archive c = false) new
  /\ createdCount s' = (createdCount s + count create_returned new)%nat
  /\ accounted s' = (accounted s + outcomes)%nat
  /\ archivedCount s' = archivedCount s.

(** A record the forward sync can read: its title and its mapped
    properties are computed without an exception. *)
Definition readable (copy : list string) (job : page) : Prop :=
  (exists jobName, Utils.getPageTitle job = Return jobName)
  /\ (exists mapped, Utils.mapProperties job copy = Return mapped).

(** A record the forward sync cannot read: computing its title throws, or
    it is valid and routed and computing its mapped properties throws. *)
Definition unreadable (copy : list string) (job : page) (e : exn) : Prop :=
  Utils.getPageTitle job = Throw e
  \/ ((exists jobName, Utils.getPageTitle job = Return jobName)
      /\ Sync.inconsistent job = false
      /\ Utils.getTargetDatabases (Sync.jobType_of job) (Sync.level_of job) <> []
      /\ Utils.mapProperties job copy = Throw e).

(** A trace of queries and archive calls only, in which every archive
    call names a record that the latest query found, that query being a
    query by masterId. *)
Fixpoint licensed (allowed : list string) (tr : list call) : Prop :=
  match tr with
  | [] => True
  | Queried _ (NumberEquals _ _) (Return found) :: tr => licensed (page_id <$> found) tr
  | Queried _ _ _ :: tr => licensed [] tr
  | Archived pageId _ :: tr => pageId ∈ allowed /\ licensed allowed tr
  | _ :: _ => False
  end.

Definition self_contained (tr : list call) : Prop := forall allowed, licensed allowed tr.

(** What a step of the cleanup leaves of the run: it [grows] by a
    self-contained piece of trace, and counts every call that threw. *)
Definition retires {W} (s s' : run W) : Prop :=
  exists new errs,
    grows s s' new errs /\ self_contained new /\ (count thrown new <= errs)%nat.

(** The store [w'] is [w] with some documents archived: the same
    documents in the same collections, and nothing restored. *)
Definition ages (w w' : Memory.store) : Prop :=
  Forall2 (fun e e' =>
             Memory.collection e' = Memory.collection e
             /\ Memory.document e' = Memory.document e
             /\ (Memory.is_archived e = true -> Memory.is_archived e' = true))
          (Memory.entries w) (Memory.entries w').

(** The Closed records the store lists. *)
Definition closed_records (dbConfig : Utils.dbConfig) (w : Memory.store) : list page :=
  Memory.document <$>
    filter (fun e => Memory.selected (Utils.master dbConfig) Cleanup.closed_filter e = true)
           (Memory.entries w).

(** * Properties *)

(** ** Counting in traces *)

Lemma count_app P tr1 tr2 : count P (tr1 ++ tr2) = (count P tr1 + count P tr2)%nat.
Proof. unfold count. rewrite filter_app, length_app. reflexivity. Qed.

Lemma count_cons P c tr :
  count P (c :: tr) = ((if P c then 1 else 0) + count P tr)%nat.
Proof.
  unfold count. destruct (P c) eqn:E.
  - rewrite filter_cons_True by assumption. reflexivity.
  - rewrite filter_cons_False by congruence. reflexivity.
Qed.

Lemma count_nil P : count P [] = 0%nat.
Proof. reflexivity. Qed.

(** ** Routing table *)

Lemma getTypePrefix_video : Utils.getTypePrefix (VStr "動画制作") = VStr "video".
Proof. reflexivity. Qed.

Lemma getTypePrefix_design : Utils.getTypePrefix (VStr "デザイン制作") = VStr "design".
Proof. reflexivity. Qed.

(** A category that is neither in the table nor an inherited name has no
    prefix. *)
Lemma getTypePrefix_unknown (c : string) :
  c ≠ "動画制作" -> c ≠ "デザイン制作" -> inherited c = false ->
  Utils.getTypePrefix (VStr c) = VNull.
Proof.
  intros Hv Hd Hi. unfold Utils.getTypePrefix, js_get, Utils.mapping.
  cbn [js_toString].
  rewrite lookup_insert_ne by congruence.
  rewrite lookup_singleton_ne by congruence.
  rewrite Hi. reflexivity.
Qed.

(** The documented cascade holds for the two categories of the table,
    and a category that is neither in the table nor an inherited name gets
    no target. *)
Lemma getTargetDatabases_video (level : string) :
  Utils.getTargetDatabases (VStr "動画制作") (VStr level) = cascade "video" level.
Proof.
  unfold Utils.getTargetDatabases, cascade. rewrite getTypePrefix_video.
  reflexivity.
Qed.

Lemma getTargetDatabases_design (level : string) :
  Utils.getTargetDatabases (VStr "デザイン制作") (VStr level) = cascade "design" level.
Proof.
  unfold Utils.getTargetDatabases, cascade. rewrite getTypePrefix_design.
  reflexivity.
Qed.

Lemma getTargetDatabases_unknown_category (c : string) (level : value) :
  c ≠ "動画制作" -> c ≠ "デザイン制作" -> inherited c = false ->
  Utils.getTargetDatabases (VStr c) level = [].
Proof.
  intros Hv Hd Hi. unfold Utils.getTargetDatabases.
  rewrite getTypePrefix_unknown by assumption. reflexivity.
Qed.

Lemma getTargetDatabases_unknown_level (jobType : value) (level : string) :
  level ≠ "レベル1" -> level ≠ "レベル2" -> level ≠ "レベル3" ->
  Utils.getTargetDatabases jobType (VStr level) = [].
Proof.
  intros H1 H2 H3. unfold Utils.getTargetDatabases.
  destruct (negb (truthy (Utils.getTypePrefix jobType))); [reflexivity|].
  cbn [is_string]. rewrite !bool_decide_eq_false_2 by assumption. reflexivity.
Qed.

(** The documented cascade, where it holds: for the two categories of the
    table at every tier, for every category at an unknown tier, and for
    every unknown category that is not an inherited name. *)
Theorem getTargetDatabases_documented_cascade :
  (forall level,
     Utils.getTargetDatabases (VStr "動画制作") (VStr level) = cascade "video" level)
  /\ (forall level,
        Utils.getTargetDatabases (VStr "デザイン制作") (VStr level) = cascade "design" level)
  /\ (forall jobType level,
        level <> "レベル1" -> level <> "レベル2" -> level <> "レベル3" ->
        Utils.getTargetDatabases jobType (VStr level) = [])
  /\ (forall c level,
        c <> "動画制作" -> c <> "デザイン制作" -> inherited c = false ->
        Utils.getTargetDatabases (VStr c) level = []).
Proof.
  split_and!.
  - apply getTargetDatabases_video.
  - apply getTargetDatabases_design.
  - apply getTargetDatabases_unknown_level.
  - apply getTargetDatabases_unknown_category.
Qed.

(** The assertions of the repository's tests on the routing table. *)
Example test_video_level1 :
  Utils.getTargetDatabases (VStr "動画制作") (VStr "レベル1")
  = ["video_level1"; "video_level2"; "video_level3"].
Proof. reflexivity. Qed.

Example test_video_level2 :
  Utils.getTargetDatabases (VStr "動画制作") (VStr "レベル2")
  = ["video_level2"; "video_level3"].
Proof. reflexivity. Qed.

Example test_video_level3 :
  Utils.getTargetDatabases (VStr "動画制作") (VStr "レベル3") = ["video_level3"].
Proof. reflexivity. Qed.

Example test_design_level1 :
  Utils.getTargetDatabases (VStr "デザイン制作") (VStr "レベル1")
  = ["design_level1"; "design_level2"; "design_level3"].
Proof. reflexivity. Qed.

Example test_design_level2 :
  Utils.getTargetDatabases (VStr "デザイン制作") (VStr "レベル2")
  = ["design_level2"; "design_level3"].
Proof. reflexivity. Qed.

Example test_design_level3 :
  Utils.getTargetDatabases (VStr "デザイン制作") (VStr "レベル3") = ["design_level3"].
Proof. reflexivity. Qed.

Example test_out_of_scope_type :
  Utils.getTargetDatabases (VStr "プログラミング") (VStr "レベル1") = [].
Proof. reflexivity. Qed.

Example test_invalid_level :
  Utils.getTargetDatabases (VStr "動画制作") (VStr "レベル4") = [].
Proof. reflexivity. Qed.

(** C2, at a category the table does not list: the name [constructor] is
    unknown to the routing table, and yet a record of that category at
    Tier1 is routed to three targets, because the lookup of the prefix
    finds the member [constructor] that every object inherits. *)
Theorem getTargetDatabases_inherited_category :
  Utils.mapping !! "constructor" = None
  /\ Utils.getTargetDatabases (VStr "constructor") (VStr "レベル1")
     = [ "function Object() { [native code] }_level1";
         "function Object() { [native code] }_level2";
         "function Object() { [native code] }_level3" ].
Proof. split; reflexivity. Qed.

(** ** Retry wrapper *)

Section RetryPolicy.
Import NotionClient.
Context {W R : Type}.
Implicit Types (fn : thunk (W := W) (R := R)) (e : exn) (tr : list retry_event).
Implicit Types (c : completion (option R)).








Lemma attempts_cons_failed a e ms tr :
  attempts (Failed a e :: Sleep ms :: tr) = S (attempts tr).
Proof. reflexivity. Qed.





(** A call that only ever meets rate-limit errors: the loop runs to its
    end and the wrapper returns [undefined]. *)
Lemma retry_from_rate_limited (fuel a : nat) fn (w : W) :
  (forall w0, exists e w1, fn w0 = (Throw e, w1) /\ rate_limited e = true) ->
  (MAX_RETRIES < fuel + a)%nat ->
  exists w' tr, retry_from fuel a fn w = Some (Return None, w', tr)
    /\ attempts tr = (MAX_RETRIES + 1 - a)%nat.
Proof.
  intros Hfn. unfold MAX_RETRIES. revert a w.
  induction fuel as [|fuel IH]; intros a w Hf.
  - cbn [retry_from]. unfold MAX_RETRIES.
    rewrite bool_decide_eq_false_2 by lia.
    exists w, []. split; [reflexivity|]. unfold attempts. simpl. lia.
  - cbn [retry_from]. unfold MAX_RETRIES. case_bool_decide as Hle.
    + destruct (Hfn w) as (e & w1 & -> & ->).
      destruct (IH (S a) w1) as (w' & tr & -> & Hn); [lia|].
      exists w', (Failed a e :: Sleep (retryAfter e) :: tr).
      split; [reflexivity|]. rewrite attempts_cons_failed, Hn. lia.
    + exists w, []. split; [reflexivity|]. unfold attempts. simpl. lia.
Qed.

(** C4, on the code: when every attempt fails with a rate-limit error,
    the wrapper makes its 3 attempts and then returns [undefined]; it
    throws nothing. *)
Theorem withRetry_rate_limit_exhaustion fn (w : W) :
  (forall w0, exists e w1, fn w0 = (Throw e, w1) /\ rate_limited e = true) ->
  exists w' tr, withRetry fn w = Some (Return None, w', tr) /\ attempts tr = 3%nat.
Proof.
  intros Hfn.
  destruct (retry_from_rate_limited MAX_RETRIES 1 fn w Hfn) as (w' & tr & Hr & Hn).
  - unfold MAX_RETRIES. lia.
  - exists w', tr. split; [exact Hr|]. rewrite Hn. reflexivity.
Qed.

(** The scenario of the specification: a rate-limit error on the first
    attempt with an advised wait, then a success: the call returns the
    result, after sleeping the advised wait and the spacing interval. *)
Theorem withRetry_rate_limit_then_success fn (w w1 w2 : W) (a : api_error)
    (seconds : Z) (result : R) :
  code a = Some "rate_limited" -> retry_after a = Some seconds -> seconds <> 0 ->
  fn w = (Throw (Api a), w1) -> fn w1 = (Return result, w2) ->
  withRetry fn w
  = Some (Return (Some result), w2,
          [Failed 1 (Api a); Sleep (seconds * 1000); Succeeded 2; Sleep 350]).
Proof.
  intros Hcode Hafter Hnz H1 H2. unfold withRetry, MAX_RETRIES. cbn [retry_from].
  unfold MAX_RETRIES. rewrite !bool_decide_eq_true_2 by lia.
  rewrite H1. cbn [rate_limited]. rewrite bool_decide_eq_true_2 by assumption.
  rewrite H2. cbn [retryAfter]. rewrite Hafter.
  destruct (seconds =? 0) eqn:E; [apply Z.eqb_eq in E; contradiction|].
  reflexivity.
Qed.

(** With a transient error instead, the ceiling does end in a throw. *)
Theorem withRetry_transient_exhaustion fn (w : W) e :
  rate_limited e = false -> isRetryable e = true ->
  (forall w0, exists w1, fn w0 = (Throw e, w1)) ->
  exists w' tr, withRetry fn w = Some (Throw e, w', tr) /\ attempts tr = 3%nat.
Proof.
  intros Hrl Hre Hfn. unfold withRetry, MAX_RETRIES. cbn [retry_from].
  unfold MAX_RETRIES.
  destruct (Hfn w) as (w1 & ->).
  destruct (Hfn w1) as (w2 & ->).
  destruct (Hfn w2) as (w3 & ->).
  rewrite Hrl, Hre.
  rewrite !(bool_decide_eq_true_2 (_ <= _)%nat) by lia.
  rewrite !(bool_decide_eq_true_2 (_ < _)%nat) by lia.
  rewrite (bool_decide_eq_false_2 (3 < 3)%nat) by lia.
  eexists _, _. split; reflexivity.
Qed.

End RetryPolicy.


(** What the callers of the wrapper make of the [undefined] of C4:
    [createPage] hands it to the orchestrator, which counts an error when
    it reads the identifier of the created page; [queryDatabase] throws a
    TypeError when it reads the results. *)
Lemma createPage_rate_limit_exhaustion {W} (notion : NotionClient.sdk W)
    (databaseId : value) (properties : obj) (children : list obj) (w : W) :
  (forall ch w0, exists e w1,
     NotionClient.pages_create notion databaseId properties ch w0 = (Throw e, w1)
     /\ NotionClient.rate_limited e = true) ->
  exists w' tr,
    NotionClient.createPage notion databaseId properties children w
    = Some (Return None, w', tr).
Proof.
  intros H. unfold NotionClient.createPage.
  destruct (retry_from_rate_limited NotionClient.MAX_RETRIES 1
              (NotionClient.pages_create notion databaseId properties
                 (if (0 <? length children)%nat then Some children else None)) w)
    as (w' & tr & Hr & _); [apply H|unfold NotionClient.MAX_RETRIES; lia|].
  exists w', tr. exact Hr.
Qed.

Lemma queryDatabase_rate_limit_exhaustion {W} (notion : NotionClient.sdk W)
    (fuel : nat) (databaseId : value) (f : query_filter) (w : W) :
  (forall cursor w0, exists e w1,
     NotionClient.databases_query notion databaseId f cursor w0 = (Throw e, w1)
     /\ NotionClient.rate_limited e = true) ->
  exists msg w' tr,
    NotionClient.queryDatabase notion (S fuel) databaseId f w
    = Some (Throw (TypeError msg), w', tr).
Proof.
  intros H. unfold NotionClient.queryDatabase. cbn [NotionClient.paginate].
  destruct (retry_from_rate_limited NotionClient.MAX_RETRIES 1
              (NotionClient.databases_query notion databaseId f VUndef) w)
    as (w' & tr & Hr & _); [apply H|unfold NotionClient.MAX_RETRIES; lia|].
  unfold NotionClient.withRetry. rewrite Hr.
  eexists _, w', tr. reflexivity.
Qed.

Lemma withRetry_rate_limit_exhaustion_witness :
  exists w' tr,
    NotionClient.withRetry (R := Z) (always (Throw (rate_limit_error None))) tt
    = Some (Return None, w', tr) /\ NotionClient.attempts tr = 3%nat.
Proof.
  apply (withRetry_rate_limit_exhaustion (always (Throw (rate_limit_error None))) tt).
  intros w0. exists (rate_limit_error None), w0. split; reflexivity.
Defined.

(** ** Property mapper *)

Lemma field_truthy (v : value) (k : string) :
  truthy v = true -> field v k = Return (opt_field v k).
Proof.
  unfold opt_field. destruct v; simpl; try discriminate; try reflexivity.
  intros _. destruct (_ && _); reflexivity.
Qed.

Lemma field_obj (m : obj) (k : string) :
  field (VObj m) k = Return (default VUndef (m !! k)).
Proof. reflexivity. Qed.

Lemma js_set_lookup_ne (m : obj) (g f : string) (v : value) :
  f <> g -> js_set m g v !! f = m !! f.
Proof.
  intros Hne. unfold js_set. case_bool_decide; [reflexivity|].
  apply lookup_insert_ne. congruence.
Qed.

Lemma js_set_lookup_eq (m : obj) (f : string) (v : value) :
  f <> "__proto__" -> js_set m f v !! f = Some v.
Proof.
  intros Hne. unfold js_set. rewrite bool_decide_eq_false_2 by assumption.
  apply lookup_insert_eq.
Qed.

Lemma js_set_proto (m : obj) (v : value) : js_set m "__proto__" v = m.
Proof. reflexivity. Qed.

Lemma copy_loop_cons (sourceProps : obj) f rest (mapped : obj) :
  Utils.copy_loop sourceProps (f :: rest) mapped =
  match copied sourceProps f with
  | None => Utils.copy_loop sourceProps rest mapped
  | Some c => v <- c ;; Utils.copy_loop sourceProps rest (js_set mapped f v)
  end.
Proof.
  unfold copied, reserved. cbn [Utils.copy_loop].
  repeat case_bool_decide; simpl; try reflexivity.
  destruct (truthy (js_get sourceProps f)); reflexivity.
Qed.

Lemma copy_loop_lookup (sourceProps : obj) copy (m0 m : obj) (f : string) :
  Utils.copy_loop sourceProps copy m0 = Return m ->
  f <> "__proto__" ->
  m !! f =
    if bool_decide (f ∈ copy) then
      match copied sourceProps f with
      | Some (Return v) => Some v
      | _ => m0 !! f
      end
    else m0 !! f.
Proof.
  intros Hrun Hf. revert m0 Hrun.
  induction copy as [|g rest IH]; intros m0 Hrun.
  - injection Hrun as <-. reflexivity.
  - rewrite copy_loop_cons in Hrun.
    destruct (decide (f = g)) as [->|Hne].
    + rewrite bool_decide_eq_true_2 by apply list_elem_of_here.
      destruct (copied sourceProps g) as [[v|e]|] eqn:Ec; simpl in Hrun.
      * rewrite (IH _ Hrun).
        rewrite js_set_lookup_eq by assumption.
        case_bool_decide; reflexivity.
      * discriminate.
      * rewrite (IH _ Hrun). case_bool_decide; reflexivity.
    + assert (Hmem : bool_decide (f ∈ g :: rest) = bool_decide (f ∈ rest)).
      { apply bool_decide_ext. rewrite elem_of_cons. tauto. }
      rewrite Hmem.
      destruct (copied sourceProps g) as [[v|e]|] eqn:Ec; simpl in Hrun.
      * rewrite (IH _ Hrun). rewrite js_set_lookup_ne by assumption. reflexivity.
      * discriminate.
      * apply (IH _ Hrun).
Qed.

Lemma add_title_returns (sourceProps mapped : obj) :
  Utils.add_title sourceProps mapped =
  Return (let titleProp := js_get sourceProps "案件名" in
          if truthy titleProp
          then <[ "案件名" := VObj {[ "title" := js_or (opt_field titleProp "title") (VArr []) ]} ]> mapped
          else mapped).
Proof.
  unfold Utils.add_title. simpl.
  destruct (truthy (js_get sourceProps "案件名")) eqn:E; [|reflexivity].
  rewrite field_truthy by assumption. reflexivity.
Qed.

Lemma add_master_id_returns (sourceProps mapped : obj) :
  Utils.add_master_id sourceProps mapped =
  Return (let masterIdProp := js_get sourceProps "案件ID" in
          let u := opt_field masterIdProp "unique_id" in
          if truthy masterIdProp && truthy u
          then <[ "マスター案件ID" := VObj {[ "number" := opt_field u "number" ]} ]> mapped
          else mapped).
Proof.
  unfold Utils.add_master_id. simpl.
  destruct (truthy (js_get sourceProps "案件ID")) eqn:E; [|reflexivity].
  rewrite field_truthy by assumption. simpl.
  destruct (truthy (opt_field _ "unique_id")) eqn:E2; [|reflexivity].
  rewrite field_truthy by assumption. reflexivity.
Qed.

(** [mapProperties] is the copy loop followed by two insertions. *)
Lemma mapProperties_unfold (p : page) copy :
  Utils.mapProperties p copy =
  (m0 <- Utils.copy_loop (properties p) copy ∅ ;;
   Return
     (let src := properties p in
      let m1 := if truthy (js_get src "案件名")
                then <[ "案件名" := VObj {[ "title" := js_or (opt_field (js_get src "案件名") "title") (VArr []) ]} ]> m0
                else m0 in
      let u := opt_field (js_get src "案件ID") "unique_id" in
      if truthy (js_get src "案件ID") && truthy u
      then <[ "マスター案件ID" := VObj {[ "number" := opt_field u "number" ]} ]> m1
      else m1)).
Proof.
  unfold Utils.mapProperties.
  destruct (Utils.copy_loop (properties p) copy ∅) as [m0|e]; [|reflexivity].
  simpl. rewrite add_title_returns. simpl. rewrite add_master_id_returns. reflexivity.
Qed.

Example test_master_id :
  lookup_mapped (Utils.mapProperties Fixtures.mockNotionPage Fixtures.copyFields) "マスター案件ID"
  = Some (VObj {[ "number" := VNum 1001 ]}).
Proof. vm_compute. reflexivity. Qed.

Example test_title :
  lookup_mapped (Utils.mapProperties Fixtures.mockNotionPage Fixtures.copyFields) "案件名"
  = Some (VObj {[ "title" := VArr [Fixtures.text "テスト案件"] ]}).
Proof. vm_compute. reflexivity. Qed.

Example test_select :
  lookup_mapped (Utils.mapProperties Fixtures.mockNotionPage Fixtures.copyFields) "カテゴリ"
  = Some (VObj {[ "select" := VObj {[ "name" := VStr "YouTube動画編集" ]} ]}).
Proof. vm_compute. reflexivity. Qed.

Example test_multi_select :
  lookup_mapped (Utils.mapProperties Fixtures.mockNotionPage Fixtures.copyFields) "タグ"
  = Some (VObj {[ "multi_select" :=
        VArr [VObj {[ "name" := VStr "YouTube" ]}; VObj {[ "name" := VStr "横型" ]}] ]}).
Proof. vm_compute. reflexivity. Qed.

Example test_number :
  lookup_mapped (Utils.mapProperties Fixtures.mockNotionPage Fixtures.copyFields) "報酬金額"
  = Some (VObj {[ "number" := VNum 50000 ]}).
Proof. vm_compute. reflexivity. Qed.

Example test_url :
  lookup_mapped (Utils.mapProperties Fixtures.mockNotionPage Fixtures.copyFields) "応募フォーム"
  = Some (VObj {[ "url" := VStr "https://example.com/form" ]}).
Proof. vm_compute. reflexivity. Qed.

Example test_excluded :
  lookup_mapped (Utils.mapProperties Fixtures.mockNotionPage Fixtures.copyFields) "案件ID" = None
  /\ lookup_mapped (Utils.mapProperties Fixtures.mockNotionPage Fixtures.copyFields) "ステータス" = None.
Proof. vm_compute. split; reflexivity. Qed.

Example test_page_title :
  Utils.getPageTitle Fixtures.mockNotionPage = Return "テスト案件".
Proof. vm_compute. reflexivity. Qed.

Example test_page_title_empty :
  Utils.getPageTitle (Page "p" {[ "案件名" := Fixtures.prop "title" (VArr []) ]})
  = Return Utils.untitled.
Proof. vm_compute. reflexivity. Qed.

Example test_page_title_absent : Utils.getPageTitle (Page "p" ∅) = Return Utils.untitled.
Proof. vm_compute. reflexivity. Qed.

(** The shapes [buildPropertyValue] emits, per type of the source
    property. *)
Lemma build_type (o : obj) (ty : string) :
  o !! "type" = Some (VStr ty) -> field (VObj o) "type" = Return (VStr ty).
Proof. intros H. rewrite field_obj, H. reflexivity. Qed.

Lemma build_rich_text (o : obj) :
  o !! "type" = Some (VStr "rich_text") ->
  Utils.buildPropertyValue (VObj o)
  = Return (VObj {[ "rich_text" := js_or (default VUndef (o !! "rich_text")) (VArr []) ]}).
Proof.
  intros H. unfold Utils.buildPropertyValue. rewrite (build_type o _ H). reflexivity.
Qed.

Lemma build_pass_through (o : obj) (ty : string) :
  ty ∈ passed_through -> o !! "type" = Some (VStr ty) ->
  Utils.buildPropertyValue (VObj o)
  = Return (VObj {[ ty := default VUndef (o !! ty) ]}).
Proof.
  intros Hty H. unfold Utils.buildPropertyValue. rewrite (build_type o _ H).
  unfold passed_through in Hty. rewrite !elem_of_cons, elem_of_nil in Hty.
  destruct Hty as [->|[->|[->|[->|[->|[->|[]]]]]]]; reflexivity.
Qed.

Lemma build_select (o sel : obj) :
  o !! "type" = Some (VStr "select") -> o !! "select" = Some (VObj sel) ->
  Utils.buildPropertyValue (VObj o)
  = Return (VObj {[ "select" := VObj {[ "name" := default VUndef (sel !! "name") ]} ]}).
Proof.
  intros H Hs. unfold Utils.buildPropertyValue. rewrite (build_type o _ H).
  simpl. unfold Utils.select_of. rewrite field_obj, Hs. reflexivity.
Qed.

Lemma build_select_none (o : obj) :
  o !! "type" = Some (VStr "select") ->
  o !! "select" = None \/ o !! "select" = Some VNull ->
  Utils.buildPropertyValue (VObj o) = Return (VObj {[ "select" := VNull ]}).
Proof.
  intros H Hs. unfold Utils.buildPropertyValue. rewrite (build_type o _ H).
  simpl. unfold Utils.select_of. rewrite field_obj.
  destruct Hs as [-> | ->]; reflexivity.
Qed.

Lemma map_name_of_objects (sels : list obj) :
  Utils.map_name_of (VObj <$> sels) = Return (named <$> sels).
Proof.
  induction sels as [|sel sels IH]; [reflexivity|].
  cbn [fmap list_fmap Utils.map_name_of]. unfold Utils.name_of at 1.
  rewrite field_obj. simpl. fold (@fmap list _ _ _ VObj sels). rewrite IH. reflexivity.
Qed.

Lemma build_multi_select (o : obj) (sels : list obj) :
  o !! "type" = Some (VStr "multi_select") ->
  o !! "multi_select" = Some (VArr (VObj <$> sels)) ->
  Utils.buildPropertyValue (VObj o)
  = Return (VObj {[ "multi_select" := VArr (named <$> sels) ]}).
Proof.
  intros H Hs. unfold Utils.buildPropertyValue. rewrite (build_type o _ H).
  simpl. unfold Utils.multi_select_of. rewrite field_obj, Hs. simpl.
  rewrite map_name_of_objects. reflexivity.
Qed.

Lemma build_multi_select_none (o : obj) :
  o !! "type" = Some (VStr "multi_select") ->
  o !! "multi_select" = None \/ o !! "multi_select" = Some VNull ->
  Utils.buildPropertyValue (VObj o) = Return (VObj {[ "multi_select" := VArr [] ]}).
Proof.
  intros H Hs. unfold Utils.buildPropertyValue. rewrite (build_type o _ H).
  simpl. unfold Utils.multi_select_of. rewrite field_obj.
  destruct Hs as [-> | ->]; reflexivity.
Qed.

Lemma build_unrecognized (o : obj) (ty : string) :
  ty ∉ recognized -> o !! "type" = Some (VStr ty) ->
  Utils.buildPropertyValue (VObj o)
  = Return (VObj {[ "rich_text" := js_or (default VUndef (o !! "rich_text")) (VArr []) ]}).
Proof.
  intros Hty H. unfold Utils.buildPropertyValue. rewrite (build_type o _ H).
  unfold recognized in Hty. rewrite !not_elem_of_cons in Hty.
  destruct Hty as (H1 & H2 & H3 & H4 & H5 & H6 & H7 & H8 & H9 & _).
  cbn [bind is_string]. rewrite !bool_decide_eq_false_2 by assumption.
  reflexivity.
Qed.

(** C6 as stated fails on a reserved name: a listed field that the
    source holds is not emitted when it is the long-form content field. *)
Lemma mapProperties_skips_reserved_field :
  let source := Page "p" {[ "案件詳細" := Fixtures.prop "rich_text" (VArr [Fixtures.text "本文"]) ]} in
  "案件詳細" ∈ ["案件詳細"]
  /\ is_Some (properties source !! "案件詳細")
  /\ exists mapped, Utils.mapProperties source ["案件詳細"] = Return mapped
       /\ mapped !! "案件詳細" = None.
Proof.
  split_and!.
  - apply list_elem_of_here.
  - eexists. reflexivity.
  - eexists. split; [reflexivity|]. reflexivity.
Qed.

(** The output of the mapper under a name that is neither the title nor
    the back-reference is what the copy loop left there. *)
Lemma mapProperties_lookup (source : page) (copy : list string) (mapped : obj)
    (f : string) :
  Utils.mapProperties source copy = Return mapped ->
  f <> "案件名" -> f <> "マスター案件ID" ->
  exists m0, Utils.copy_loop (properties source) copy ∅ = Return m0
    /\ mapped !! f = m0 !! f.
Proof.
  intros Hrun Hf2 Hf3. rewrite mapProperties_unfold in Hrun.
  destruct (Utils.copy_loop (properties source) copy ∅) as [m0|e]; [|discriminate].
  simpl in Hrun. injection Hrun as <-. exists m0. split; [reflexivity|].
  destruct (_ && _); destruct (truthy (js_get _ "案件名"));
    rewrite ?lookup_insert_ne by congruence; reflexivity.
Qed.

(** A listed name whose value cannot be built stops the loop. *)
Lemma copy_loop_throws (sourceProps : obj) copy (f : string) (e : exn) :
  f ∈ copy -> copied sourceProps f = Some (Throw e) ->
  forall m, exists e', Utils.copy_loop sourceProps copy m = Throw e'.
Proof.
  intros Hin Hc. induction copy as [|g rest IH]; intros m.
  - apply elem_of_nil in Hin. destruct Hin.
  - rewrite copy_loop_cons. destruct (decide (g = f)) as [->|Hne].
    + rewrite Hc. simpl. eauto.
    + apply elem_of_cons in Hin as [->|Hin]; [contradiction|].
      destruct (copied sourceProps g) as [[v|e']|]; simpl; eauto.
Qed.

Lemma mapProperties_listed_present (source : page) (copy : list string) (mapped : obj)
    (f : string) (prop : value) :
  Utils.mapProperties source copy = Return mapped ->
  f <> "案件詳細" -> f <> "案件名" -> f <> "マスター案件ID" -> f <> "__proto__" ->
  f ∈ copy -> properties source !! f = Some prop -> truthy prop = true ->
  exists v, Utils.buildPropertyValue prop = Return v /\ mapped !! f = Some v.
Proof.
  intros Hrun Hf1 Hf2 Hf3 Hproto Hin Hp Htruthy.
  destruct (mapProperties_lookup source copy mapped f Hrun Hf2 Hf3) as (m0 & Hloop & ->).
  assert (Hc : copied (properties source) f = Some (Utils.buildPropertyValue prop)).
  { unfold copied, reserved, js_get.
    rewrite !bool_decide_eq_false_2 by assumption. rewrite Hp. simpl.
    rewrite Htruthy. reflexivity. }
  rewrite (copy_loop_lookup _ _ _ _ f Hloop Hproto).
  rewrite bool_decide_eq_true_2 by assumption. rewrite Hc.
  destruct (Utils.buildPropertyValue prop) as [v|e] eqn:Hb.
  - exists v. split; reflexivity.
  - destruct (copy_loop_throws _ _ _ _ Hin Hc ∅) as [e' He']. congruence.
Qed.

Lemma mapProperties_omitted (source : page) (copy : list string) (mapped : obj)
    (f : string) :
  Utils.mapProperties source copy = Return mapped ->
  f <> "案件名" -> f <> "マスター案件ID" -> inherited f = false ->
  f ∉ copy \/ properties source !! f = None ->
  mapped !! f = None.
Proof.
  intros Hrun Hf2 Hf3 Hinh Hcase.
  assert (Hproto : f <> "__proto__") by (intros ->; discriminate).
  destruct (mapProperties_lookup source copy mapped f Hrun Hf2 Hf3) as (m0 & Hloop & ->).
  rewrite (copy_loop_lookup _ _ _ _ f Hloop Hproto).
  destruct Hcase as [Hnot | Habs].
  - rewrite bool_decide_eq_false_2 by assumption. apply lookup_empty.
  - unfold copied, js_get. rewrite Habs, Hinh. simpl.
    destruct (reserved f); case_bool_decide; apply lookup_empty.
Qed.

(** The accessor name is never set. *)
Lemma copy_loop_proto (sourceProps : obj) copy (m0 m : obj) :
  Utils.copy_loop sourceProps copy m0 = Return m ->
  m !! "__proto__" = m0 !! "__proto__".
Proof.
  revert m0. induction copy as [|g rest IH]; intros m0 Hrun.
  - injection Hrun as <-. reflexivity.
  - rewrite copy_loop_cons in Hrun.
    destruct (copied sourceProps g) as [[v|e]|]; simpl in Hrun;
      [|discriminate|exact (IH _ Hrun)].
    rewrite (IH _ Hrun). destruct (decide (g = "__proto__")) as [->|Hne].
    + rewrite js_set_proto. reflexivity.
    + apply js_set_lookup_ne. congruence.
Qed.

Lemma mapProperties_proto (source : page) (copy : list string) (mapped : obj) :
  Utils.mapProperties source copy = Return mapped -> mapped !! "__proto__" = None.
Proof.
  intros Hrun.
  destruct (mapProperties_lookup source copy mapped "__proto__" Hrun)
    as (m0 & Hloop & ->); [discriminate|discriminate|].
  rewrite (copy_loop_proto _ _ _ _ Hloop). apply lookup_empty.
Qed.

(** A name that is not listed gets nothing. *)
Lemma mapProperties_not_listed (source : page) (copy : list string) (mapped : obj)
    (f : string) :
  Utils.mapProperties source copy = Return mapped ->
  f <> "案件名" -> f <> "マスター案件ID" -> f ∉ copy ->
  mapped !! f = None.
Proof.
  intros Hrun Hf2 Hf3 Hnot.
  destruct (decide (f = "__proto__")) as [->|Hproto];
    [exact (mapProperties_proto _ _ _ Hrun)|].
  destruct (mapProperties_lookup source copy mapped f Hrun Hf2 Hf3) as (m0 & Hloop & ->).
  rewrite (copy_loop_lookup _ _ _ _ f Hloop Hproto).
  rewrite bool_decide_eq_false_2 by assumption. apply lookup_empty.
Qed.

(** A name under which the source holds a falsy value gets nothing. *)
Lemma mapProperties_falsy (source : page) (copy : list string) (mapped : obj)
    (f : string) (prop : value) :
  Utils.mapProperties source copy = Return mapped ->
  f <> "案件名" -> f <> "マスター案件ID" ->
  properties source !! f = Some prop -> truthy prop = false ->
  mapped !! f = None.
Proof.
  intros Hrun Hf2 Hf3 Hp Hfalsy.
  destruct (decide (f = "__proto__")) as [->|Hproto];
    [exact (mapProperties_proto _ _ _ Hrun)|].
  destruct (mapProperties_lookup source copy mapped f Hrun Hf2 Hf3) as (m0 & Hloop & ->).
  rewrite (copy_loop_lookup _ _ _ _ f Hloop Hproto).
  unfold copied, js_get. rewrite Hp, Hfalsy.
  destruct (reserved f); case_bool_decide; apply lookup_empty.
Qed.

(** A listed name that the source does not hold but every object
    inherits is read as the inherited member, which has no type: the
    fallback shape is emitted for it. *)
Lemma mapProperties_inherited (source : page) (copy : list string) (mapped : obj)
    (f : string) :
  Utils.mapProperties source copy = Return mapped ->
  f ∈ copy -> properties source !! f = None -> inherited f = true -> f <> "__proto__" ->
  mapped !! f = Some (VObj {[ "rich_text" := VArr [] ]}).
Proof.
  intros Hrun Hin Habs Hinh Hproto.
  assert (Hf1 : f <> "案件詳細") by (intros ->; discriminate).
  assert (Hf2 : f <> "案件名") by (intros ->; discriminate).
  assert (Hf3 : f <> "マスター案件ID") by (intros ->; discriminate).
  destruct (mapProperties_lookup source copy mapped f Hrun Hf2 Hf3) as (m0 & Hloop & ->).
  rewrite (copy_loop_lookup _ _ _ _ f Hloop Hproto).
  rewrite bool_decide_eq_true_2 by assumption.
  unfold copied, reserved, js_get.
  rewrite !bool_decide_eq_false_2 by assumption. rewrite Habs, Hinh. reflexivity.
Qed.

(** C6, amended.  Take a listed field that the source record holds with
    a truthy value, under a name other than the two reserved names, the
    back-reference name and the accessor name [__proto__]: the output
    holds under that name what [buildPropertyValue] emits for the field.
    Apart from the title and the back-reference: a name that is not
    listed gets nothing; a name that the source does not hold and that no
    object inherits gets nothing; a name under which the source holds a
    falsy value gets nothing; a listed name that the source does not hold
    but every object inherits ([constructor], [toString], ...) gets an
    empty text span list; and nothing is ever emitted under [__proto__].
    What is emitted, per source type: a text span list as it is; a
    number, date, url, checkbox, email or phone value as it is; for a
    single choice the name of the selection, or the explicit null marker
    when nothing is selected; for a multiple choice the list of the names
    of the selections, the empty list when there is none; for an
    unrecognized type the text span list of the field, empty when it has
    none. *)
Theorem mapProperties_copies_listed_fields (source : page) (copy : list string)
    (mapped : obj) :
  Utils.mapProperties source copy = Return mapped ->
  (forall f prop,
     f <> "案件詳細" -> f <> "案件名" -> f <> "マスター案件ID" -> f <> "__proto__" ->
     f ∈ copy -> properties source !! f = Some prop -> truthy prop = true ->
     exists v, Utils.buildPropertyValue prop = Return v /\ mapped !! f = Some v)
  /\ (forall f,
        f <> "案件名" -> f <> "マスター案件ID" -> f ∉ copy ->
        mapped !! f = None)
  /\ (forall f,
        f <> "案件名" -> f <> "マスター案件ID" ->
        properties source !! f = None ->
        f ∉ [ "constructor"; "__defineGetter__"; "__defineSetter__"; "hasOwnProperty";
              "__lookupGetter__"; "__lookupSetter__"; "isPrototypeOf";
              "propertyIsEnumerable"; "toString"; "valueOf"; "__proto__";
              "toLocaleString" ] ->
        mapped !! f = None)
  /\ (forall f prop,
        f <> "案件名" -> f <> "マスター案件ID" ->
        properties source !! f = Some prop -> truthy prop = false ->
        mapped !! f = None)
  /\ (forall f,
        f ∈ copy -> properties source !! f = None ->
        f ∈ [ "constructor"; "__defineGetter__"; "__defineSetter__"; "hasOwnProperty";
              "__lookupGetter__"; "__lookupSetter__"; "isPrototypeOf";
              "propertyIsEnumerable"; "toString"; "valueOf"; "toLocaleString" ] ->
        mapped !! f = Some (VObj {[ "rich_text" := VArr [] ]}))
  /\ mapped !! "__proto__" = None
  /\ (forall o spans, o !! "type" = Some (VStr "rich_text") ->
        o !! "rich_text" = Some (VArr spans) ->
        Utils.buildPropertyValue (VObj o) = Return (VObj {[ "rich_text" := VArr spans ]}))
  /\ (forall o ty, ty ∈ passed_through -> o !! "type" = Some (VStr ty) ->
        Utils.buildPropertyValue (VObj o)
        = Return (VObj {[ ty := default VUndef (o !! ty) ]}))
  /\ (forall o sel, o !! "type" = Some (VStr "select") ->
        o !! "select" = Some (VObj sel) ->
        Utils.buildPropertyValue (VObj o)
        = Return (VObj {[ "select" := VObj {[ "name" := default VUndef (sel !! "name") ]} ]}))
  /\ (forall o, o !! "type" = Some (VStr "select") ->
        o !! "select" = None \/ o !! "select" = Some VNull ->
        Utils.buildPropertyValue (VObj o) = Return (VObj {[ "select" := VNull ]}))
  /\ (forall o sels, o !! "type" = Some (VStr "multi_select") ->
        o !! "multi_select" = Some (VArr (VObj <$> sels)) ->
        Utils.buildPropertyValue (VObj o)
        = Return (VObj {[ "multi_select" := VArr (named <$> sels) ]}))
  /\ (forall o, o !! "type" = Some (VStr "multi_select") ->
        o !! "multi_select" = None \/ o !! "multi_select" = Some VNull
        \/ o !! "multi_select" = Some (VArr []) ->
        Utils.buildPropertyValue (VObj o) = Return (VObj {[ "multi_select" := VArr [] ]}))
  /\ (forall o ty, ty ∉ recognized -> o !! "type" = Some (VStr ty) ->
        Utils.buildPropertyValue (VObj o)
        = Return (VObj {[ "rich_text" := js_or (default VUndef (o !! "rich_text")) (VArr []) ]})).
Proof.
  intros Hrun. split_and!.
  - intros f prop. apply mapProperties_listed_present. exact Hrun.
  - intros f. exact (mapProperties_not_listed source copy mapped f Hrun).
  - intros f Hf2 Hf3 Habs Hinh. apply (mapProperties_omitted source copy mapped f Hrun Hf2 Hf3).
    + unfold inherited, object_prototype_members. apply bool_decide_eq_false_2. exact Hinh.
    + right. exact Habs.
  - intros f prop. exact (mapProperties_falsy source copy mapped f prop Hrun).
  - intros f Hin Habs Hinh. apply (mapProperties_inherited source copy mapped f Hrun Hin Habs).
    + unfold inherited, object_prototype_members. apply bool_decide_eq_true_2.
      rewrite !elem_of_cons in Hinh. rewrite !elem_of_cons. tauto.
    + intros ->. rewrite !elem_of_cons, elem_of_nil in Hinh.
      repeat (destruct Hinh as [Hinh|Hinh]; [discriminate Hinh|]). exact Hinh.
  - exact (mapProperties_proto _ _ _ Hrun).
  - intros o spans H Hs. rewrite (build_rich_text o H), Hs. reflexivity.
  - apply build_pass_through.
  - apply build_select.
  - apply build_select_none.
  - apply build_multi_select.
  - intros o H [Hs|[Hs|Hs]].
    + apply build_multi_select_none; auto.
    + apply build_multi_select_none; auto.
    + apply (build_multi_select o [] H Hs).
  - apply build_unrecognized.
Qed.

Lemma mapProperties_copies_listed_fields_witness :
  exists mapped,
    Utils.mapProperties Fixtures.mockNotionPage Fixtures.copyFields = Return mapped
    /\ mapped !! "カテゴリ"
       = Some (VObj {[ "select" := VObj {[ "name" := VStr "YouTube動画編集" ]} ]})
    /\ mapped !! "案件ID" = None
    /\ mapped !! "ステータス" = None.
Proof.
  pose (mapped := match Utils.mapProperties Fixtures.mockNotionPage Fixtures.copyFields with
                  | Return m => m
                  | Throw _ => ∅
                  end).
  assert (Hrun : Utils.mapProperties Fixtures.mockNotionPage Fixtures.copyFields
                 = Return mapped) by reflexivity.
  exists mapped. split; [exact Hrun|]. clearbody mapped.
  destruct (mapProperties_copies_listed_fields
              Fixtures.mockNotionPage Fixtures.copyFields mapped Hrun)
    as (Hpresent & Hunlisted & Habsent & _).
  split_and!.
  - destruct (Hpresent "カテゴリ" (Fixtures.prop "select" (Fixtures.option_named "YouTube動画編集"))
                ltac:(discriminate) ltac:(discriminate)
                ltac:(discriminate) ltac:(discriminate)
                ltac:(vm_compute; repeat constructor) eq_refl eq_refl)
      as (v & Hv & ->).
    injection Hv as <-. reflexivity.
  - apply Hunlisted; [discriminate|discriminate|].
    apply (bool_decide_unpack _). vm_compute. exact I.
  - apply Habsent; [discriminate|discriminate|reflexivity|].
    apply (bool_decide_unpack _). vm_compute. exact I.
Defined.

(** Title and back-reference in the output of the mapper. *)
Lemma opt_field_falsy (v : value) (k : string) :
  truthy v = false -> opt_field v k = VUndef.
Proof.
  unfold opt_field. destruct v; simpl; try discriminate; reflexivity.
Qed.

Lemma mapProperties_title (source : page) (copy : list string) (mapped : obj)
    (titleProp : value) :
  Utils.mapProperties source copy = Return mapped ->
  properties source !! "案件名" = Some titleProp -> truthy titleProp = true ->
  mapped !! "案件名"
  = Some (VObj {[ "title" := js_or (opt_field titleProp "title") (VArr []) ]}).
Proof.
  intros Hrun Ht Htruthy. rewrite mapProperties_unfold in Hrun.
  destruct (Utils.copy_loop _ _ _) as [m0|e]; [|discriminate].
  simpl in Hrun. injection Hrun as <-.
  assert (Hg : js_get (properties source) "案件名" = titleProp)
    by (unfold js_get; rewrite Ht; reflexivity).
  rewrite Hg, Htruthy.
  destruct (_ && _); rewrite ?lookup_insert_ne by discriminate;
    apply lookup_insert_eq.
Qed.

Lemma mapProperties_master_id (source : page) (copy : list string) (mapped : obj) :
  Utils.mapProperties source copy = Return mapped ->
  truthy (opt_field (js_get (properties source) "案件ID") "unique_id") = true ->
  mapped !! "マスター案件ID" = Some (VObj {[ "number" := Sync.masterId_of source ]}).
Proof.
  intros Hrun Hu. rewrite mapProperties_unfold in Hrun.
  destruct (Utils.copy_loop _ _ _) as [m0|e]; [|discriminate].
  simpl in Hrun. injection Hrun as <-.
  destruct (truthy (js_get (properties source) "案件ID")) eqn:Hp.
  - rewrite Hu. simpl. apply lookup_insert_eq.
  - rewrite (opt_field_falsy _ _ Hp) in Hu. discriminate.
Qed.

Lemma masterId_present (source : page) :
  nullish (Sync.masterId_of source) = false ->
  truthy (opt_field (js_get (properties source) "案件ID") "unique_id") = true.
Proof.
  unfold Sync.masterId_of. intros Hn.
  destruct (truthy (opt_field _ "unique_id")) eqn:Hu; [reflexivity|].
  rewrite (opt_field_falsy _ _ Hu) in Hn. discriminate.
Qed.

(** C5 as stated fails on a record that has neither a title property nor
    a unique id: the output of the mapper has no title and no masterId. *)
Lemma mapProperties_without_title_and_id :
  exists mapped,
    Utils.mapProperties (Page "p" ∅) Fixtures.copyFields = Return mapped
    /\ mapped !! "案件名" = None
    /\ mapped !! "マスター案件ID" = None.
Proof. eexists. split_and!; reflexivity. Qed.

(** ** Content sanitizer *)

Lemma content_block_kind_not_type (b : obj) (t : string) :
  content_block b t -> t <> "type".
Proof. intros [Ht Hp] ->. rewrite Ht in Hp. exact Hp. Qed.

Lemma lookup_delete_all (keys : list string) (m : obj) (k : string) :
  fold_left (fun sanitized k => delete k sanitized) keys m !! k
  = if bool_decide (k ∈ keys) then None else m !! k.
Proof.
  revert m. induction keys as [|g keys IH]; intros m; simpl.
  - reflexivity.
  - rewrite IH. rewrite lookup_delete.
    destruct (decide (g = k)) as [->|Hne].
    + rewrite (bool_decide_eq_true_2 (k ∈ k :: keys)) by apply list_elem_of_here.
      case_bool_decide; reflexivity.
    + assert (Hmem : bool_decide (k ∈ g :: keys) = bool_decide (k ∈ keys)).
      { apply bool_decide_ext. rewrite elem_of_cons. split; [|tauto].
        intros [->|?]; [contradiction|assumption]. }
      rewrite Hmem. reflexivity.
Qed.

Lemma lookup_strip (m : obj) (k : string) :
  Sync.strip m !! k = if bool_decide (k ∈ Sync.read_only) then None else m !! k.
Proof. apply lookup_delete_all. Qed.

Lemma strip_empty : Sync.strip ∅ = ∅.
Proof.
  apply map_eq. intros k. rewrite lookup_strip, lookup_empty.
  case_bool_decide; reflexivity.
Qed.

Lemma strip_strip (m : obj) : Sync.strip (Sync.strip m) = Sync.strip m.
Proof.
  apply map_eq. intros k. rewrite !lookup_strip. case_bool_decide; reflexivity.
Qed.

(** The sanitized block is the kind tag and the stripped payload, and
    nothing else. *)
Lemma sanitizeBlock_content_block (b : obj) (t : string) :
  content_block b t ->
  Sync.sanitizeBlock b = <[ t := VObj (Sync.strip (payload b t)) ]> {[ "type" := VStr t ]}.
Proof.
  intros [Ht Hp]. unfold Sync.sanitizeBlock, payload.
  assert (Hty : js_get b "type" = VStr t) by (unfold js_get; rewrite Ht; reflexivity).
  rewrite Hty. cbn [js_toString]. unfold js_get.
  destruct (b !! t) as [v|] eqn:Hv.
  - destruct v; try contradiction; simpl; rewrite ?strip_empty; reflexivity.
  - destruct (inherited t); simpl; rewrite strip_empty; reflexivity.
Qed.


(** C10.  Sanitizing a sanitized content block changes nothing. *)
Theorem sanitizeBlock_idempotent (b : obj) (t : string) :
  content_block b t ->
  Sync.sanitizeBlock (Sync.sanitizeBlock b) = Sync.sanitizeBlock b.
Proof.
  intros Hb. pose proof (content_block_kind_not_type b t Hb) as Hne.
  rewrite (sanitizeBlock_content_block b t Hb).
  set (out := <[ t := VObj (Sync.strip (payload b t)) ]> {[ "type" := VStr t ]} : obj).
  assert (Hout : content_block out t).
  { split.
    - unfold out. rewrite lookup_insert_ne by congruence. apply lookup_singleton_eq.
    - unfold out. rewrite lookup_insert_eq. exact I. }
  rewrite (sanitizeBlock_content_block out t Hout).
  unfold payload at 1. unfold out at 1. rewrite lookup_insert_eq.
  rewrite strip_strip. reflexivity.
Qed.

(** ** Sync orchestrator *)

Section SyncProperties.
Context {W : Type} (cl : client W).
Variable dbConfig : Utils.dbConfig.
Variable copy : list string.
Implicit Types (s : run W) (job : page).

(** C8.  A fetched record that lacks its category, its tier or its
    masterId is not routed and causes no call of the client: processing
    it adds one to the error tally and changes nothing else, and the loop
    goes on with the next record. *)
Theorem replicate_inconsistent_record s job (jobName : string) rest :
  Utils.getPageTitle job = Return jobName ->
  truthy (Sync.jobType_of job) = false
  \/ truthy (Sync.level_of job) = false
  \/ nullish (Sync.masterId_of job) = true ->
  Sync.replicate cl dbConfig copy s job = Return (failed s)
  /\ world (failed s) = world s
  /\ calls (failed s) = calls s
  /\ errorCount (failed s) = S (errorCount s)
  /\ createdCount (failed s) = createdCount s
  /\ skippedCount (failed s) = skippedCount s
  /\ Sync.replicate_all cl dbConfig copy s (job :: rest)
     = Sync.replicate_all cl dbConfig copy (failed s) rest.
Proof.
  intros Htitle Hmissing.
  assert (Hinc : Sync.inconsistent job = true).
  { unfold Sync.inconsistent.
    destruct Hmissing as [-> | [-> | ->]]; simpl;
      rewrite ?orb_true_r; reflexivity. }
  assert (Hrep : Sync.replicate cl dbConfig copy s job = Return (failed s)).
  { unfold Sync.replicate. rewrite Htitle. simpl. rewrite Hinc. reflexivity. }
  split_and!; try reflexivity; try assumption.
  cbn [Sync.replicate_all]. rewrite Hrep. reflexivity.
Qed.

(** C1.  When the existence query of a target collection returns a
    record with the source's masterId, the sync calls nothing but that
    query for the target: it creates no record there and adds one to the
    skipped tally. *)
Theorem place_existing_is_skipped s (masterId : value) (mapped : obj)
    (children : list obj) (dbKey dbId : string) (existing : list page) (w1 : W) :
  public_get dbConfig dbKey = VStr dbId -> dbId <> "" ->
  queryDatabase cl (VStr dbId) (Sync.existence_filter masterId) (world s)
    = (Return existing, w1) ->
  (0 < length existing)%nat ->
  let s' := Sync.place cl dbConfig masterId mapped children s dbKey in
  calls s' = (calls s ++ [Queried (VStr dbId) (Sync.existence_filter masterId) (Return existing)])%list
  /\ filter (fun c => is_create c = true) (calls s')
     = filter (fun c => is_create c = true) (calls s)
  /\ skippedCount s' = S (skippedCount s)
  /\ createdCount s' = createdCount s
  /\ errorCount s' = errorCount s
  /\ world s' = w1.
Proof.
  intros Hdb Hne Hq Hlen s'. subst s'. unfold Sync.place.
  rewrite Hdb. simpl. rewrite bool_decide_eq_false_2 by assumption. simpl.
  rewrite Hq.
  assert (Hpos : (0 <? length existing)%nat = true) by (apply Nat.ltb_lt; assumption).
  rewrite Hpos. simpl. split_and!; try reflexivity.
  rewrite filter_app. simpl. rewrite filter_cons_False by (simpl; discriminate).
  rewrite filter_nil, app_nil_r. reflexivity.
Qed.

Lemma place_calls s (masterId : value) (mapped : obj) (children : list obj)
    (dbKey : string) :
  exists new,
    calls (Sync.place cl dbConfig masterId mapped children s dbKey)
    = (calls s ++ new)%list
    /\ Forall (carries mapped) new.
Proof.
  unfold Sync.place.
  destruct (negb (truthy (public_get dbConfig dbKey))).
  { exists []. rewrite app_nil_r. split; [reflexivity|constructor]. }
  destruct (queryDatabase cl _ _ (world s)) as [[existing|e] w1].
  2:{ eexists [_]. split; [reflexivity|]. repeat constructor. }
  destruct (0 <? length existing)%nat.
  { eexists [_]. split; [reflexivity|]. repeat constructor. }
  cbn [world called].
  destruct (createPage cl _ mapped children w1) as [[[made|]|e] w2];
    (eexists [_; _]; split; [simpl; rewrite <- app_assoc; reflexivity|];
     repeat constructor).
Qed.

Lemma fold_place_calls (masterId : value) (mapped : obj) (children : list obj)
    (targetDbKeys : list string) s :
  exists new,
    calls (fold_left (Sync.place cl dbConfig masterId mapped children) targetDbKeys s)
    = (calls s ++ new)%list
    /\ Forall (carries mapped) new.
Proof.
  revert s. induction targetDbKeys as [|k rest IH]; intros s; simpl.
  - exists []. rewrite app_nil_r. split; [reflexivity|constructor].
  - destruct (IH (Sync.place cl dbConfig masterId mapped children s k))
      as (new2 & -> & H2).
    destruct (place_calls s masterId mapped children k) as (new1 & -> & H1).
    exists (new1 ++ new2)%list. rewrite app_assoc. split; [reflexivity|].
    apply Forall_app. split; assumption.
Qed.

Lemma replicate_created_carry s job s' :
  Sync.replicate cl dbConfig copy s job = Return s' ->
  exists new,
    calls s' = (calls s ++ new)%list
    /\ forall db props children r, Created db props children r ∈ new ->
         nullish (Sync.masterId_of job) = false
         /\ Utils.mapProperties job copy = Return props.
Proof.
  unfold Sync.replicate. destruct (Utils.getPageTitle job) as [jobName|e]; [|discriminate].
  simpl. destruct (Sync.inconsistent job) eqn:Hinc.
  { intros [= <-]. exists []. rewrite app_nil_r. split; [reflexivity|].
    intros ? ? ? ? Hin. apply elem_of_nil in Hin. destruct Hin. }
  assert (Hid : nullish (Sync.masterId_of job) = false).
  { unfold Sync.inconsistent in Hinc. apply orb_false_iff in Hinc as [_ H]. exact H. }
  destruct (length (Utils.getTargetDatabases _ _) =? 0)%nat.
  { intros [= <-]. exists [Routed (Sync.jobType_of job) (Sync.level_of job)].
    split; [reflexivity|]. intros ? ? ? ? Hin.
    apply list_elem_of_singleton in Hin. discriminate. }
  destruct (Utils.mapProperties job copy) as [mapped|e] eqn:Hm; [|discriminate].
  simpl. unfold Sync.fetch_children. cbn [world called].
  destruct (getPageBlocks cl (page_id job) (world s)) as [blocks w1].
  set (s1 := called (ListedBlocks (page_id job) blocks) w1
               (called (Routed (Sync.jobType_of job) (Sync.level_of job)) (world s) s)).
  assert (Hfold : forall children,
    exists new, calls (fold_left (Sync.place cl dbConfig (Sync.masterId_of job) mapped children)
                         (Utils.getTargetDatabases (Sync.jobType_of job) (Sync.level_of job)) s1)
                = (calls s ++ new)%list
      /\ forall db props ch r, Created db props ch r ∈ new -> props = mapped).
  { intros children.
    destruct (fold_place_calls (Sync.masterId_of job) mapped children
                (Utils.getTargetDatabases (Sync.jobType_of job) (Sync.level_of job)) s1)
      as (new & -> & Hall).
    exists ([Routed (Sync.jobType_of job) (Sync.level_of job);
             ListedBlocks (page_id job) blocks] ++ new)%list.
    split.
    - unfold s1. simpl. rewrite <- !app_assoc. reflexivity.
    - intros db props ch r Hin. apply elem_of_app in Hin as [Hin|Hin].
      + apply elem_of_cons in Hin as [Hin|Hin]; [discriminate|].
        apply list_elem_of_singleton in Hin. discriminate.
      + rewrite Forall_forall in Hall. apply (Hall _ Hin). }
  destruct blocks as [blocks|e]; intros [= <-].
  - destruct (Hfold (Sync.sanitized_children blocks)) as (new & Hc & Hall).
    exists new. split; [exact Hc|]. intros db props ch r Hin.
    rewrite (Hall _ _ _ _ Hin). auto.
  - destruct (Hfold []) as (new & Hc & Hall).
    exists new. split; [exact Hc|]. intros db props ch r Hin.
    rewrite (Hall _ _ _ _ Hin). auto.
Qed.

(** C5, amended.  When the source record has a title property, the
    output holds its title field: the spans of the source as they are, the
    empty list when the property has none.  When the source record has a
    unique id, the output holds a masterId whose number is that of the
    unique id.  A record without title property gets no title field.  A
    record without unique-id property gets no masterId field, except when
    the masterId name is itself a listed property that the source holds:
    the output then holds what [buildPropertyValue] emits for it.  Every
    record the sync creates for a source record carries a masterId equal
    to the source's unique id. *)
Theorem mapProperties_title_and_master_id (source : page) (mapped : obj) :
  Utils.mapProperties source copy = Return mapped ->
  (forall titleProp spans,
     properties source !! "案件名" = Some (VObj titleProp) ->
     titleProp !! "title" = Some (VArr spans) ->
     mapped !! "案件名" = Some (VObj {[ "title" := VArr spans ]}))
  /\ (forall titleProp,
        properties source !! "案件名" = Some (VObj titleProp) ->
        titleProp !! "title" = None ->
        mapped !! "案件名" = Some (VObj {[ "title" := VArr [] ]}))
  /\ (forall idProp uid,
        properties source !! "案件ID" = Some (VObj idProp) ->
        idProp !! "unique_id" = Some (VObj uid) ->
        Sync.masterId_of source = default VUndef (uid !! "number")
        /\ mapped !! "マスター案件ID"
           = Some (VObj {[ "number" := default VUndef (uid !! "number") ]}))
  /\ (properties source !! "案件名" = None -> mapped !! "案件名" = None)
  /\ (properties source !! "案件ID" = None ->
      "マスター案件ID" ∉ copy \/ properties source !! "マスター案件ID" = None ->
      mapped !! "マスター案件ID" = None)
  /\ (forall prop,
        properties source !! "案件ID" = None ->
        "マスター案件ID" ∈ copy ->
        properties source !! "マスター案件ID" = Some prop -> truthy prop = true ->
        exists v, Utils.buildPropertyValue prop = Return v
          /\ mapped !! "マスター案件ID" = Some v)
  /\ (forall s s',
        Sync.replicate cl dbConfig copy s source = Return s' ->
        exists new,
          calls s' = (calls s ++ new)%list
          /\ forall db props children r, Created db props children r ∈ new ->
               nullish (Sync.masterId_of source) = false
               /\ props !! "マスター案件ID"
                  = Some (VObj {[ "number" := Sync.masterId_of source ]})).
Proof.
  intros Hrun.
  assert (Hloop : exists m0,
    Utils.copy_loop (properties source) copy ∅ = Return m0
    /\ (properties source !! "案件名" = None -> mapped !! "案件名" = m0 !! "案件名")
    /\ (properties source !! "案件ID" = None ->
        mapped !! "マスター案件ID" = m0 !! "マスター案件ID")).
  { pose proof Hrun as Hrun'. rewrite mapProperties_unfold in Hrun'.
    destruct (Utils.copy_loop (properties source) copy ∅) as [m0|e]; [|discriminate].
    cbn [bind] in Hrun'. injection Hrun' as <-. exists m0. split; [reflexivity|].
    split.
    - intros Ht. cbn zeta.
      assert (E : js_get (properties source) "案件名" = VUndef)
        by (unfold js_get; rewrite Ht; reflexivity).
      rewrite E. cbn [truthy].
      destruct (_ && _); rewrite ?lookup_insert_ne by discriminate; reflexivity.
    - intros Hid. cbn zeta.
      assert (E : js_get (properties source) "案件ID" = VUndef)
        by (unfold js_get; rewrite Hid; reflexivity).
      rewrite E. cbn [truthy andb].
      destruct (truthy (js_get (properties source) "案件名"));
        rewrite ?lookup_insert_ne by discriminate; reflexivity. }
  destruct Hloop as (m0 & Hloop & Htitle0 & Hid0).
  split_and!.
  - intros titleProp spans Hp Ht.
    rewrite (mapProperties_title _ _ _ _ Hrun Hp eq_refl).
    unfold opt_field. rewrite field_obj, Ht. reflexivity.
  - intros titleProp Hp Ht.
    rewrite (mapProperties_title _ _ _ _ Hrun Hp eq_refl).
    unfold opt_field. rewrite field_obj, Ht. reflexivity.
  - intros idProp uid Hp Hu.
    assert (Hid : Sync.masterId_of source = default VUndef (uid !! "number")).
    { unfold Sync.masterId_of, js_get. rewrite Hp. unfold opt_field at 2.
      rewrite field_obj, Hu. reflexivity. }
    split; [exact Hid|]. rewrite <- Hid.
    apply (mapProperties_master_id _ _ _ Hrun).
    unfold js_get. rewrite Hp. unfold opt_field. rewrite field_obj, Hu. reflexivity.
  - intros Ht. rewrite (Htitle0 Ht).
    rewrite (copy_loop_lookup _ _ _ _ "案件名" Hloop) by discriminate.
    case_bool_decide; reflexivity.
  - intros Hid Hcase. rewrite (Hid0 Hid).
    rewrite (copy_loop_lookup _ _ _ _ "マスター案件ID" Hloop) by discriminate.
    destruct Hcase as [Hnot | Habs].
    + rewrite bool_decide_eq_false_2 by assumption. reflexivity.
    + unfold copied, js_get. rewrite Habs. case_bool_decide; reflexivity.
  - intros prop Hid Hin Hp Htruthy. rewrite (Hid0 Hid).
    rewrite (copy_loop_lookup _ _ _ _ "マスター案件ID" Hloop) by discriminate.
    rewrite bool_decide_eq_true_2 by assumption.
    assert (Hc : copied (properties source) "マスター案件ID"
                 = Some (Utils.buildPropertyValue prop)).
    { unfold copied, js_get. rewrite Hp.
      replace (reserved "マスター案件ID") with false by reflexivity.
      rewrite Htruthy. reflexivity. }
    rewrite Hc. destruct (Utils.buildPropertyValue prop) as [v|e] eqn:Hb.
    + exists v. split; reflexivity.
    + destruct (copy_loop_throws _ _ _ _ Hin Hc ∅) as [e' He']. congruence.
  - intros s s' Hrep.
    destruct (replicate_created_carry s source s' Hrep) as (new & Hc & Hall).
    exists new. split; [exact Hc|]. intros db props children r Hin.
    destruct (Hall _ _ _ _ Hin) as [Hn Hm]. split; [exact Hn|].
    apply (mapProperties_master_id _ _ _ Hm). apply masterId_present. exact Hn.
Qed.

(** The other endings of a record and of a target (section 7 of the
    specification). *)

(** No Open record: the run ends after the listing, with every tally at
    zero and no other call. *)
Theorem sync_no_open_record (w w1 : W) :
  queryDatabase cl (VStr (Utils.master dbConfig)) Sync.open_filter w = (Return [], w1) ->
  Sync.sync cl dbConfig copy w
  = (Completed,
     Run w1 [Queried (VStr (Utils.master dbConfig)) Sync.open_filter (Return [])] 0 0 0 0).
Proof. intros Hq. unfold Sync.sync. simpl. rewrite Hq. reflexivity. Qed.

(** The listing of the Open records fails: the run ends through
    [process.exit(1)], after that one call. *)
Theorem sync_listing_fails (w w1 : W) (e : exn) :
  queryDatabase cl (VStr (Utils.master dbConfig)) Sync.open_filter w = (Throw e, w1) ->
  Sync.sync cl dbConfig copy w
  = (Exit1,
     Run w1 [Queried (VStr (Utils.master dbConfig)) Sync.open_filter (Throw e)] 0 0 0 0).
Proof. intros Hq. unfold Sync.sync. simpl. rewrite Hq. reflexivity. Qed.

(** A valid record that the routing table sends nowhere is counted as
    skipped, and the client is not called for it. *)
Theorem replicate_out_of_scope s job (jobName : string) :
  Utils.getPageTitle job = Return jobName ->
  Sync.inconsistent job = false ->
  Utils.getTargetDatabases (Sync.jobType_of job) (Sync.level_of job) = [] ->
  Sync.replicate cl dbConfig copy s job
  = Return (skipped (called (Routed (Sync.jobType_of job) (Sync.level_of job)) (world s) s)).
Proof.
  intros Ht Hinc Hnone. unfold Sync.replicate. rewrite Ht. simpl.
  rewrite Hinc, Hnone. reflexivity.
Qed.

(** A target without a configured identifier costs one error and no
    call, and the loop goes on with the next target. *)
Theorem place_unconfigured_target s (masterId : value) (mapped : obj)
    (children : list obj) (dbKey : string) (rest : list string) :
  truthy (public_get dbConfig dbKey) = false ->
  Sync.place cl dbConfig masterId mapped children s dbKey = failed s
  /\ fold_left (Sync.place cl dbConfig masterId mapped children) (dbKey :: rest) s
     = fold_left (Sync.place cl dbConfig masterId mapped children) rest (failed s).
Proof.
  intros Hd.
  assert (H : Sync.place cl dbConfig masterId mapped children s dbKey = failed s).
  { unfold Sync.place. rewrite Hd. reflexivity. }
  split; [exact H|]. simpl. rewrite H. reflexivity.
Qed.

(** A target whose existence query finds nothing gets a new record with
    the mapped fields and the sanitized content, counted as created. *)
Theorem place_creates s (masterId : value) (mapped : obj) (children : list obj)
    (dbKey dbId : string) (w1 w2 : W) (made : page) :
  public_get dbConfig dbKey = VStr dbId -> dbId <> "" ->
  queryDatabase cl (VStr dbId) (Sync.existence_filter masterId) (world s)
    = (Return [], w1) ->
  createPage cl (VStr dbId) mapped children w1 = (Return (Some made), w2) ->
  Sync.place cl dbConfig masterId mapped children s dbKey
  = created
      (called (Created (VStr dbId) mapped children (Return (Some made))) w2
         (called (Queried (VStr dbId) (Sync.existence_filter masterId) (Return [])) w1 s)).
Proof.
  intros Hd Hne Hq Hc. unfold Sync.place. rewrite Hd. simpl.
  rewrite bool_decide_eq_false_2 by assumption. simpl. rewrite Hq. simpl.
  rewrite Hc. reflexivity.
Qed.

(** When the content of the page cannot be listed, the record is
    replicated all the same, with no content. *)
Theorem replicate_content_fetch_fails s job (jobName : string) (mapped : obj)
    (e : exn) (w1 : W) :
  Utils.getPageTitle job = Return jobName ->
  Sync.inconsistent job = false ->
  Utils.getTargetDatabases (Sync.jobType_of job) (Sync.level_of job) <> [] ->
  Utils.mapProperties job copy = Return mapped ->
  getPageBlocks cl (page_id job) (world s) = (Throw e, w1) ->
  Sync.replicate cl dbConfig copy s job
  = Return
      (fold_left (Sync.place cl dbConfig (Sync.masterId_of job) mapped [])
         (Utils.getTargetDatabases (Sync.jobType_of job) (Sync.level_of job))
         (called (ListedBlocks (page_id job) (Throw e)) w1
            (called (Routed (Sync.jobType_of job) (Sync.level_of job)) (world s) s))).
Proof.
  intros Ht Hinc Hsome Hm Hb. unfold Sync.replicate. rewrite Ht. simpl.
  rewrite Hinc.
  destruct (Utils.getTargetDatabases _ _) as [|k keys] eqn:Hk; [contradiction|].
  simpl. rewrite Hm. simpl. unfold Sync.fetch_children. simpl. rewrite Hb.
  reflexivity.
Qed.

End SyncProperties.

(** ** Idempotence of the sync on the store in memory *)

Lemma extends_refl ds w : extends ds w w.
Proof. exists []. rewrite app_nil_r. split; [reflexivity|constructor]. Qed.

Lemma extends_trans ds w1 w2 w3 :
  extends ds w1 w2 -> extends ds w2 w3 -> extends ds w1 w3.
Proof.
  intros (m1 & H1 & F1) (m2 & H2 & F2). exists (m1 ++ m2)%list.
  rewrite H2, H1, app_assoc. split; [reflexivity|]. apply Forall_app; auto.
Qed.

Lemma has_copy_extends ds w w' d n :
  has_copy w d n -> extends ds w w' -> has_copy w' d n.
Proof.
  intros (e & Hin & Hsel) (more & Hm & _). exists e. split; [|exact Hsel].
  rewrite Hm. apply elem_of_app. left. exact Hin.
Qed.

Lemma settled_extends cfg ds w w' job :
  settled cfg w job -> extends ds w w' -> settled cfg w' job.
Proof.
  intros Hs Hext Hinc dbKey d n Hk Hd Hne Hid.
  apply (has_copy_extends ds w w'); [|exact Hext]. apply (Hs Hinc dbKey); assumption.
Qed.

Lemma query_existence w d n :
  Memory.query (VStr d) (Sync.existence_filter (VNum n)) w
  = (Return (Memory.document <$>
               filter (fun e => Memory.selected d (Sync.existence_filter (VNum n)) e = true)
                      (Memory.entries w)), w).
Proof. reflexivity. Qed.

Lemma has_copy_found w d n :
  has_copy w d n <->
  (0 < length (Memory.document <$>
           filter (fun e => Memory.selected d (Sync.existence_filter (VNum n)) e = true)
                  (Memory.entries w)))%nat.
Proof.
  rewrite length_fmap. split.
  - intros (e & Hin & Hsel).
    assert (He : e ∈ filter (fun e => Memory.selected d (Sync.existence_filter (VNum n)) e = true)
                   (Memory.entries w)) by (apply list_elem_of_filter; auto).
    destruct (filter _ _); [apply elem_of_nil in He; destruct He|simpl; lia].
  - intros Hlen.
    destruct (filter _ _) as [|e l] eqn:Hf; [simpl in Hlen; lia|].
    assert (He : e ∈ filter (fun e => Memory.selected d (Sync.existence_filter (VNum n)) e = true)
                   (Memory.entries w)) by (rewrite Hf; apply list_elem_of_here).
    apply list_elem_of_filter in He as [Hsel Hin]. exists e. auto.
Qed.

Lemma public_get_in cfg dbKey d :
  public_get cfg dbKey = VStr d -> d ∈ (snd <$> Utils.public cfg).
Proof.
  unfold public_get, js_get.
  destruct (list_to_map _ !! dbKey) as [v|] eqn:Hl.
  - intros ->. apply elem_of_list_to_map_2 in Hl.
    apply list_elem_of_fmap in Hl as ([k x] & Heq & Hin). simpl in Heq.
    injection Heq as Hk Hx. subst k x.
    apply list_elem_of_fmap. exists (dbKey, d). split; [reflexivity|exact Hin].
  - destruct (inherited dbKey); discriminate.
Qed.

Lemma public_get_cases cfg dbKey :
  (exists d, public_get cfg dbKey = VStr d)
  \/ public_get cfg dbKey = VNative dbKey
  \/ public_get cfg dbKey = VUndef.
Proof.
  unfold public_get, js_get.
  destruct (list_to_map _ !! dbKey) as [v|] eqn:Hl.
  - apply elem_of_list_to_map_2 in Hl.
    apply list_elem_of_fmap in Hl as ([k x] & Heq & Hin). simpl in Heq.
    injection Heq as Hk Hx. subst. left. eauto.
  - destruct (inherited dbKey); auto.
Qed.

(** [place] on the store in memory. *)

Section Idempotence.
Variable dbConfig : Utils.dbConfig.
Variable copy : list string.
Let ds := snd <$> Utils.public dbConfig.
Abbreviation place := (Sync.place Memory.memory dbConfig).
Abbreviation replicate := (Sync.replicate Memory.memory dbConfig copy).
Abbreviation replicate_all := (Sync.replicate_all Memory.memory dbConfig copy).

Lemma place_extends masterId mapped children s dbKey :
  extends ds (world s) (world (place masterId mapped children s dbKey)).
Proof.
  unfold Sync.place.
  destruct (public_get_cases dbConfig dbKey) as [[d Hd]|[Hd|Hd]]; rewrite Hd; simpl;
    try apply extends_refl.
  case_bool_decide; simpl; [apply extends_refl|].
  destruct masterId; simpl; try apply extends_refl.
  destruct (0 <? length _)%nat; simpl; [apply extends_refl|].
  eexists [_]. split; [reflexivity|]. repeat constructor. simpl.
  apply (public_get_in _ _ _ Hd).
Qed.

Lemma place_copies n mapped children s dbKey d :
  public_get dbConfig dbKey = VStr d -> d <> "" ->
  mapped !! "マスター案件ID" = Some (VObj {[ "number" := VNum n ]}) ->
  has_copy (world (place (VNum n) mapped children s dbKey)) d n.
Proof.
  intros Hd Hne Hm. unfold Sync.place. rewrite Hd. simpl.
  rewrite bool_decide_eq_false_2 by assumption. simpl.
  destruct (0 <? length _)%nat eqn:Hlen; simpl.
  - apply has_copy_found. apply Nat.ltb_lt. exact Hlen.
  - eexists. split; [apply elem_of_app; right; apply list_elem_of_here|].
    unfold Memory.selected. simpl. rewrite bool_decide_eq_true_2 by reflexivity.
    simpl. unfold js_get. rewrite Hm. simpl. apply Z.eqb_refl.
Qed.

Lemma place_settled masterId mapped children s dbKey :
  (forall d n, public_get dbConfig dbKey = VStr d -> d <> "" -> masterId = VNum n ->
     has_copy (world s) d n) ->
  world (place masterId mapped children s dbKey) = world s
  /\ createdCount (place masterId mapped children s dbKey) = createdCount s
  /\ count is_create (calls (place masterId mapped children s dbKey))
     = count is_create (calls s).
Proof.
  intros Hs. unfold Sync.place.
  destruct (public_get_cases dbConfig dbKey) as [[d Hd]|[Hd|Hd]]; rewrite Hd; simpl;
    try (split_and!; [reflexivity|reflexivity|
                      rewrite ?count_app, ?count_cons, ?count_nil; simpl; lia]).
  case_bool_decide as Hne; simpl.
  { split_and!; reflexivity. }
  destruct masterId as [| | |n| | | |]; simpl;
    try (split_and!; [reflexivity|reflexivity|
                      rewrite ?count_app, ?count_cons, ?count_nil; simpl; lia]).
  pose proof (Hs d n Hd Hne eq_refl) as Hc. apply has_copy_found in Hc.
  apply Nat.ltb_lt in Hc. rewrite Hc. simpl.
  split_and!; [reflexivity|reflexivity|
               rewrite ?count_app, ?count_cons, ?count_nil; simpl; lia].
Qed.

Lemma fold_place_extends masterId mapped children keys s :
  extends ds (world s) (world (fold_left (place masterId mapped children) keys s)).
Proof.
  revert s. induction keys as [|k keys IH]; intros s; simpl.
  - apply extends_refl.
  - eapply extends_trans; [apply place_extends|apply IH].
Qed.

Lemma fold_place_copies n mapped children keys s dbKey d :
  mapped !! "マスター案件ID" = Some (VObj {[ "number" := VNum n ]}) ->
  dbKey ∈ keys -> public_get dbConfig dbKey = VStr d -> d <> "" ->
  has_copy (world (fold_left (place (VNum n) mapped children) keys s)) d n.
Proof.
  intros Hm Hin Hd Hne. revert s. induction keys as [|k keys IH]; intros s.
  - apply elem_of_nil in Hin. destruct Hin.
  - simpl. apply elem_of_cons in Hin as [<-|Hin].
    + eapply has_copy_extends; [|apply fold_place_extends].
      apply place_copies; assumption.
    + apply IH. exact Hin.
Qed.

Lemma fold_place_settled masterId mapped children keys s :
  (forall dbKey d n, dbKey ∈ keys -> public_get dbConfig dbKey = VStr d -> d <> "" ->
     masterId = VNum n -> has_copy (world s) d n) ->
  world (fold_left (place masterId mapped children) keys s) = world s
  /\ createdCount (fold_left (place masterId mapped children) keys s) = createdCount s
  /\ count is_create (calls (fold_left (place masterId mapped children) keys s))
     = count is_create (calls s).
Proof.
  revert s. induction keys as [|k keys IH]; intros s Hs; simpl.
  - split_and!; reflexivity.
  - destruct (place_settled masterId mapped children s k) as (Hw & Hc & Hn).
    { intros d n. apply Hs. apply list_elem_of_here. }
    destruct (IH (place masterId mapped children s k)) as (Hw' & Hc' & Hn').
    { intros dbKey d n Hin. rewrite Hw. apply Hs. apply list_elem_of_further. exact Hin. }
    rewrite Hw', Hc', Hn', Hw, Hc, Hn. split_and!; reflexivity.
Qed.

(** One record. *)
Lemma replicate_settles s job s' :
  replicate s job = Return s' ->
  extends ds (world s) (world s') /\ settled dbConfig (world s') job.
Proof.
  unfold Sync.replicate. destruct (Utils.getPageTitle job) as [jobName|e]; [|discriminate].
  simpl. destruct (Sync.inconsistent job) eqn:Hinc.
  { intros [= <-]. split; [apply extends_refl|]. intros Hinc'. congruence. }
  assert (Hid : nullish (Sync.masterId_of job) = false).
  { unfold Sync.inconsistent in Hinc. apply orb_false_iff in Hinc as [_ H]. exact H. }
  destruct (length (Utils.getTargetDatabases _ _) =? 0)%nat eqn:Hlen.
  { intros [= <-]. split; [apply extends_refl|].
    intros _ dbKey d n Hk. apply Nat.eqb_eq in Hlen.
    destruct (Utils.getTargetDatabases _ _); [apply elem_of_nil in Hk; destruct Hk|discriminate]. }
  destruct (Utils.mapProperties job copy) as [mapped|e] eqn:Hm; [|discriminate].
  simpl. unfold Sync.fetch_children. simpl.
  pose proof (mapProperties_master_id _ _ _ Hm (masterId_present _ Hid)) as Hmid.
  set (s1 := called _ _ (called _ _ s)).
  intros [= <-]. split.
  - apply (fold_place_extends _ _ _ _ s1).
  - intros _ dbKey d n Hk Hd Hne Hn. rewrite Hn in *.
    apply (fold_place_copies n mapped _ _ s1 dbKey d); assumption.
Qed.

Lemma replicate_settled s job s' :
  settled dbConfig (world s) job ->
  replicate s job = Return s' ->
  world s' = world s
  /\ createdCount s' = createdCount s
  /\ count is_create (calls s') = count is_create (calls s).
Proof.
  intros Hs. unfold Sync.replicate.
  destruct (Utils.getPageTitle job) as [jobName|e]; [|discriminate].
  simpl. destruct (Sync.inconsistent job) eqn:Hinc.
  { intros [= <-]. split_and!; reflexivity. }
  destruct (length (Utils.getTargetDatabases _ _) =? 0)%nat eqn:Hlen.
  { intros [= <-]. simpl. rewrite count_app, count_cons, count_nil. simpl.
    split_and!; [reflexivity|reflexivity|lia]. }
  destruct (Utils.mapProperties job copy) as [mapped|e] eqn:Hm; [|discriminate].
  simpl. unfold Sync.fetch_children. simpl.
  set (s1 := called _ _ (called _ _ s)).
  intros [= <-].
  destruct (fold_place_settled (Sync.masterId_of job) mapped
              (Sync.sanitized_children (default [] (Memory.contents (world s) !! page_id job)))
              (Utils.getTargetDatabases (Sync.jobType_of job) (Sync.level_of job)) s1)
    as (Hw & Hc & Hn).
  { intros dbKey d n Hk Hd Hne Hid. apply (Hs Hinc dbKey); assumption. }
  rewrite Hw, Hc, Hn. unfold s1. simpl.
  rewrite !count_app, !count_cons, !count_nil. simpl.
  split_and!; [reflexivity|reflexivity|lia].
Qed.

(** Whether the processing of a record throws does not depend on the
    run. *)
Lemma replicate_throws s1 s2 job e :
  replicate s1 job = Throw e -> replicate s2 job = Throw e.
Proof.
  unfold Sync.replicate.
  destruct (Utils.getPageTitle job) as [jobName|e0]; [|intros H; exact H].
  simpl. destruct (Sync.inconsistent job); [discriminate|].
  destruct (length _ =? 0)%nat; [discriminate|].
  destruct (Utils.mapProperties job copy) as [mapped|e0]; [|intros H; exact H].
  simpl. unfold Sync.fetch_children. simpl. discriminate.
Qed.

(** The first run leaves every record it processed settled ... *)
Lemma replicate_all_settles jobs s :
  extends ds (world s) (world (replicate_all s jobs).2)
  /\ exists finished,
       Forall (settled dbConfig (world (replicate_all s jobs).2)) finished
       /\ match (replicate_all s jobs).1 with
          | None => jobs = finished
          | Some e => exists job rest,
              jobs = (finished ++ job :: rest)%list /\ forall s0, replicate s0 job = Throw e
          end.
Proof.
  revert s. induction jobs as [|job jobs IH]; intros s.
  - simpl. split; [apply extends_refl|]. exists []. split; [constructor|reflexivity].
  - cbn [Sync.replicate_all]. destruct (replicate s job) as [s'|e] eqn:Hr.
    + destruct (replicate_settles s job s' Hr) as [Hext Hset].
      destruct (IH s') as (Hext' & finished & Hall & Hend).
      split; [eapply extends_trans; eassumption|].
      exists (job :: finished). split.
      * constructor; [|exact Hall]. eapply settled_extends; eassumption.
      * destruct (Sync.replicate_all _ _ _ s' jobs).1 as [e|].
        -- destruct Hend as (j & rest & -> & Hthrow). exists j, rest. auto.
        -- rewrite Hend. reflexivity.
    + simpl. split; [apply extends_refl|]. exists []. split; [constructor|].
      exists job, jobs. split; [reflexivity|].
      intros s0. apply (replicate_throws s). exact Hr.
Qed.

(** ... and a run over settled records creates nothing. *)
Lemma replicate_all_settled finished s :
  Forall (settled dbConfig (world s)) finished ->
  forall tail,
    (tail = [] \/ exists job rest e, tail = job :: rest /\ forall s0, replicate s0 job = Throw e) ->
    world (replicate_all s (finished ++ tail)).2 = world s
    /\ createdCount (replicate_all s (finished ++ tail)).2 = createdCount s
    /\ count is_create (calls (replicate_all s (finished ++ tail)).2)
       = count is_create (calls s).
Proof.
  intros Hall tail Htail. revert s Hall.
  induction finished as [|job finished IH]; intros s Hall.
  - simpl. destruct Htail as [->|(job & rest & e & -> & Hthrow)].
    + simpl. split_and!; reflexivity.
    + cbn [Sync.replicate_all]. rewrite Hthrow. simpl. split_and!; reflexivity.
  - inversion Hall as [|? ? Hjob Hrest]; subst.
    cbn [app Sync.replicate_all].
    destruct (replicate s job) as [s'|e] eqn:Hr.
    + destruct (replicate_settled s job s' Hjob Hr) as (Hw & Hc & Hn).
      destruct (IH s') as (Hw' & Hc' & Hn').
      { rewrite Hw. exact Hrest. }
      rewrite Hw', Hc', Hn', Hw, Hc, Hn. split_and!; reflexivity.
    + simpl. split_and!; reflexivity.
Qed.

(** The listing of the master collection does not change when the store
    grows in the public collections. *)
Lemma listing_extends f w w' :
  Utils.master dbConfig ∉ ds -> extends ds w w' ->
  (Memory.query (VStr (Utils.master dbConfig)) f w').1
  = (Memory.query (VStr (Utils.master dbConfig)) f w).1.
Proof.
  intros Hm (more & Hmore & Hall). unfold Memory.query.
  destruct (Memory.well_formed f); [|reflexivity]. simpl. f_equal. f_equal.
  rewrite Hmore, filter_app.
  assert (Hnone : filter (fun e => Memory.selected (Utils.master dbConfig) f e = true) more = []).
  { clear Hmore. induction more as [|e more IH]; [reflexivity|].
    inversion Hall as [|? ? He Hrest]; subst.
    rewrite filter_cons_False; [apply IH; exact Hrest|].
    unfold Memory.selected. rewrite bool_decide_eq_false_2; [simpl; discriminate|].
    intros Heq. apply Hm. rewrite <- Heq. exact He. }
  rewrite Hnone, app_nil_r. reflexivity.
Qed.

Lemma query_world db f w : (Memory.query db f w).2 = w.
Proof.
  unfold Memory.query. destruct db; try reflexivity.
  destruct (Memory.well_formed f); reflexivity.
Qed.

Lemma open_records_extends w w' :
  Utils.master dbConfig ∉ ds -> extends ds w w' -> open_records dbConfig w' = open_records dbConfig w.
Proof.
  intros Hm Hext. pose proof (listing_extends Sync.open_filter w w' Hm Hext) as H.
  simpl in H. injection H as H. exact H.
Qed.

Lemma sync_unfold w :
  Sync.sync Memory.memory dbConfig copy w =
  let s0 := called (Queried (VStr (Utils.master dbConfig)) Sync.open_filter
                      (Return (open_records dbConfig w))) w (start w) in
  if (length (open_records dbConfig w) =? 0)%nat then (Completed, s0)
  else match replicate_all s0 (open_records dbConfig w) with
       | (None, s') => (Completed, s')
       | (Some _, s') => (Exit1, s')
       end.
Proof. reflexivity. Qed.

Lemma sync_world w :
  world (Sync.sync Memory.memory dbConfig copy w).2
  = world (replicate_all
             (called (Queried (VStr (Utils.master dbConfig)) Sync.open_filter
                        (Return (open_records dbConfig w))) w (start w))
             (open_records dbConfig w)).2.
Proof.
  rewrite sync_unfold. cbv zeta.
  destruct (length (open_records dbConfig w) =? 0)%nat eqn:Hlen.
  - apply Nat.eqb_eq in Hlen. destruct (open_records dbConfig w); [reflexivity|discriminate].
  - destruct (replicate_all _ _) as [[e|] s']; reflexivity.
Qed.

(** The second run of the sync, on the store the first run left, creates
    nothing and leaves the store as it is. *)
Theorem sync_twice (w : Memory.store) :
  Utils.master dbConfig ∉ ds ->
  let r1 := Sync.sync Memory.memory dbConfig copy w in
  let r2 := Sync.sync Memory.memory dbConfig copy (world r1.2) in
  world r2.2 = world r1.2
  /\ createdCount r2.2 = 0%nat
  /\ count is_create (calls r2.2) = 0%nat.
Proof.
  intros Hm r1 r2. subst r1 r2.
  set (w1 := world (Sync.sync Memory.memory dbConfig copy w).2).
  set (s0 := called (Queried (VStr (Utils.master dbConfig)) Sync.open_filter
                       (Return (open_records dbConfig w))) w (start w)).
  destruct (replicate_all_settles (open_records dbConfig w) s0) as (Hext & finished & Hall & Hend).
  assert (Hw1 : w1 = world (replicate_all s0 (open_records dbConfig w)).2) by apply sync_world.
  rewrite <- Hw1 in Hext, Hall. change (world s0) with w in Hext.
  assert (Htail : exists tail,
            open_records dbConfig w = (finished ++ tail)%list
            /\ (tail = [] \/ exists job rest e,
                  tail = job :: rest /\ forall s0, replicate s0 job = Throw e)).
  { destruct (replicate_all s0 (open_records dbConfig w)).1 as [e|].
    - destruct Hend as (job & rest & -> & Hthrow).
      exists (job :: rest). split; [reflexivity|]. right. exists job, rest, e. auto.
    - exists []. rewrite app_nil_r. split; [exact Hend|]. left. reflexivity. }
  destruct Htail as (tail & Hjobs & Htail).
  rewrite sync_unfold. cbv zeta.
  rewrite (open_records_extends w w1 Hm Hext).
  set (s0' := called (Queried (VStr (Utils.master dbConfig)) Sync.open_filter
                        (Return (open_records dbConfig w))) w1 (start w1)).
  destruct (length (open_records dbConfig w) =? 0)%nat.
  { simpl. split_and!; reflexivity. }
  destruct (replicate_all_settled finished s0' Hall tail Htail) as (Hw' & Hc' & Hn').
  rewrite <- Hjobs in Hw', Hc', Hn'.
  destruct (replicate_all s0' (open_records dbConfig w)) as [[e|] s']; simpl in *;
    (split_and!; [exact Hw'|exact Hc'|exact Hn']).
Qed.

End Idempotence.

(** The same for [main]: whatever the environment, when the master
    collection is not one of the public collections, a second run on the
    store the first run left creates nothing. *)
Theorem main_twice (env : gmap string string) (copy : list string) (w : Memory.store) :
  (forall dbConfig, Utils.loadDbConfig env = Return dbConfig ->
     Utils.master dbConfig ∉ (snd <$> Utils.public dbConfig)) ->
  let r1 := Sync.main Memory.memory env copy w in
  let r2 := Sync.main Memory.memory env copy (world r1.2) in
  world r2.2 = world r1.2
  /\ createdCount r2.2 = 0%nat
  /\ count is_create (calls r2.2) = 0%nat.
Proof.
  intros Hm. unfold Sync.main.
  destruct (Utils.unset env "NOTION_API_KEY"); [split_and!; reflexivity|].
  destruct (Utils.loadDbConfig env) as [dbConfig|e]; [|split_and!; reflexivity].
  apply sync_twice. apply Hm. reflexivity.
Qed.

(** ** Cleanup orchestrator *)

Lemma fan_out_app masterId dbIds1 dbIds2 tr1 tr2 :
  fan_out masterId dbIds1 tr1 -> fan_out masterId dbIds2 tr2 ->
  fan_out masterId (dbIds1 ++ dbIds2) (tr1 ++ tr2).
Proof.
  induction 1 as [|dbId dbIds e tr H IH|dbId dbIds found atr tr Ha H IH]; intros H2.
  - exact H2.
  - simpl. constructor. apply IH. exact H2.
  - simpl. rewrite <- app_assoc. constructor; [exact Ha|]. apply IH. exact H2.
Qed.









(** The configuration fails fast: [loadDbConfig] returns when the seven
    identifiers are set, and throws when one is not; [main] then ends
    before any call of the client. *)
Theorem loadDbConfig_fail_fast (env : gmap string string) :
  (Forall (fun k => Utils.unset env k = false) (snd <$> Utils.required) ->
   exists dbConfig, Utils.loadDbConfig env = Return dbConfig)
  /\ (forall k, k ∈ (snd <$> Utils.required) -> Utils.unset env k = true ->
      exists msg, Utils.loadDbConfig env = Throw (Error msg)
        /\ forall W (cl : client W) copy (w : W),
             calls (Sync.main cl env copy w).2 = []
             /\ calls (Cleanup.main cl env w).2 = []).
Proof.
  split.
  - intros Hset. unfold Utils.loadDbConfig.
    assert (Hnone : filter (fun e => Utils.unset env e = true) (snd <$> Utils.required) = []).
    { induction Hset as [|k ks Hk Hks IH]; [reflexivity|].
      rewrite filter_cons_False by congruence. exact IH. }
    rewrite Hnone. simpl. eexists. reflexivity.
  - intros k Hin Hk. unfold Utils.loadDbConfig.
    assert (Hin' : k ∈ filter (fun e => Utils.unset env e = true) (snd <$> Utils.required)).
    { apply list_elem_of_filter. split; assumption. }
    destruct (filter _ _) as [|k0 ks] eqn:Hf; [apply elem_of_nil in Hin'; destruct Hin'|].
    simpl. eexists. split; [reflexivity|].
    intros W cl copy w. unfold Sync.main, Cleanup.main, Utils.loadDbConfig.
    rewrite Hf. simpl. destruct (Utils.unset env "NOTION_API_KEY"); split; reflexivity.
Qed.

Section CleanupProperties.
Context {W : Type} (cl : client W).
Implicit Types (s : run W) (job : page).

Lemma grows_refl s : grows s s [] 0.
Proof.
  unfold grows. rewrite app_nil_r, count_nil. split_and!; try reflexivity; lia.
Qed.

Lemma grows_trans s1 s2 s3 new1 new2 e1 e2 :
  grows s1 s2 new1 e1 -> grows s2 s3 new2 e2 ->
  grows s1 s3 (new1 ++ new2) (e1 + e2).
Proof.
  intros (A1 & B1 & C1 & D1 & E1) (A2 & B2 & C2 & D2 & E2). unfold grows.
  rewrite A2, A1, B2, B1, C2, C1, D2, D1, E2, E1, count_app, app_assoc.
  split_and!; try reflexivity; lia.
Qed.

Lemma grows_called s c w1 :
  archive_returned c = false -> grows s (called c w1 s) [c] 0.
Proof.
  intros Hc. unfold grows. rewrite count_cons, Hc, count_nil. simpl.
  split_and!; try reflexivity; lia.
Qed.

Lemma grows_archived s pageId r w1 :
  grows s (archived (called (Archived pageId (Return r)) w1 s))
    [Archived pageId (Return r)] 0.
Proof.
  unfold grows. rewrite count_cons, count_nil. simpl.
  split_and!; try reflexivity; lia.
Qed.

Lemma grows_failed s s' new errs :
  grows s s' new errs -> grows s (failed s') new (S errs).
Proof.
  intros (A & B & C & D & E). unfold grows. simpl.
  rewrite A, B, C, D, E. split_and!; try reflexivity; lia.
Qed.

(** The loop over the pages found. *)
Lemma archive_all_spec s (found : list page) :
  exists atr,
    archives found atr
    /\ grows s (Cleanup.archive_all cl s found).2 atr 0
    /\ count thrown atr
       = match (Cleanup.archive_all cl s found).1 with
         | Some _ => 1%nat
         | None => 0%nat
         end.
Proof.
  revert s. induction found as [|p rest IH]; intros s.
  - exists []. simpl. split_and!; [constructor|apply grows_refl|reflexivity].
  - cbn [Cleanup.archive_all].
    destruct (archivePage cl (page_id p) (world s)) as [[r|e] w1].
    + destruct (IH (archived (called (Archived (page_id p) (Return r)) w1 s)))
        as (atr & Ha & Hg & Hn).
      exists (Archived (page_id p) (Return r) :: atr). split_and!.
      * constructor. exact Ha.
      * apply (grows_trans _ _ _ [_] atr 0 0 (grows_archived s _ r w1) Hg).
      * rewrite count_cons. simpl. exact Hn.
    + exists [Archived (page_id p) (Throw e)]. simpl. split_and!.
      * constructor.
      * apply grows_called. reflexivity.
      * reflexivity.
Qed.

(** The body of the loop over the collections, for a configured
    collection. *)
Lemma retract_spec (masterId : value) s (dbKey dbId : string) :
  dbId <> "" ->
  exists seg,
    fan_out masterId [dbId] seg
    /\ grows s (Cleanup.retract cl masterId s (dbKey, dbId)) seg (count thrown seg).
Proof.
  intros Hne. unfold Cleanup.retract. simpl.
  rewrite bool_decide_eq_false_2 by assumption. simpl.
  destruct (queryDatabase cl (VStr dbId) (Sync.existence_filter masterId) (world s))
    as [[found|e] w1].
  - set (s1 := called (Queried (VStr dbId) (Sync.existence_filter masterId) (Return found)) w1 s).
    destruct (archive_all_spec s1 found) as (atr & Ha & Hg & Hn).
    exists (Queried (VStr dbId) (Sync.existence_filter masterId) (Return found) :: atr ++ []).
    split.
    + constructor; [exact Ha|constructor].
    + rewrite app_nil_r, count_cons. simpl.
      pose proof (grows_trans _ _ _ [_] atr 0 0
                    (grows_called s
                       (Queried (VStr dbId) (Sync.existence_filter masterId) (Return found))
                       w1 eq_refl) Hg) as Hg'.
      simpl in Hg'.
      destruct (Cleanup.archive_all cl s1 found) as [[e|] s2]; simpl in *; rewrite Hn.
      * apply grows_failed. exact Hg'.
      * exact Hg'.
  - exists [Queried (VStr dbId) (Sync.existence_filter masterId) (Throw e)]. split.
    + constructor. constructor.
    + rewrite count_cons, count_nil. simpl. apply grows_failed.
      apply grows_called. reflexivity.
Qed.

Lemma fold_retract_spec (masterId : value) (entries : list (string * string)) s :
  Forall (fun e => e.2 <> "") entries ->
  exists new,
    fan_out masterId (snd <$> entries) new
    /\ grows s (fold_left (Cleanup.retract cl masterId) entries s) new (count thrown new).
Proof.
  revert s. induction entries as [|[dbKey dbId] rest IH]; intros s Hall.
  - exists []. split; [constructor|]. apply grows_refl.
  - inversion Hall as [|? ? Hne Hrest]; subst. simpl in Hne.
    destruct (retract_spec masterId s dbKey dbId Hne) as (seg & Hf & Hg).
    destruct (IH (Cleanup.retract cl masterId s (dbKey, dbId)) Hrest) as (new & Hf' & Hg').
    exists (seg ++ new)%list. split.
    + apply (fan_out_app masterId [dbId] (snd <$> rest) seg new Hf Hf').
    + rewrite count_app. apply (grows_trans _ _ _ _ _ _ _ Hg Hg').
Qed.








(** A Closed record without masterId costs one error and no call, and
    the loop goes on with the next record. *)
Theorem retire_without_masterId (dbConfig : Utils.dbConfig) s job
    (jobName : string) (rest : list page) :
  Utils.getPageTitle job = Return jobName ->
  nullish (Sync.masterId_of job) = true ->
  Cleanup.retire cl dbConfig s job = Return (failed s)
  /\ Cleanup.retire_all cl dbConfig s (job :: rest)
     = Cleanup.retire_all cl dbConfig (failed s) rest.
Proof.
  intros Ht Hid.
  assert (H : Cleanup.retire cl dbConfig s job = Return (failed s)).
  { unfold Cleanup.retire. rewrite Ht. simpl. rewrite Hid. reflexivity. }
  split; [exact H|]. cbn [Cleanup.retire_all]. rewrite H. reflexivity.
Qed.

End CleanupProperties.

(** ** The theorems at the fixtures of the tests *)

Lemma place_existing_is_skipped_witness :
  let s' := Sync.place Memory.memory Fixtures.config (VNum 1001) ∅ []
              (start Fixtures.replicated_once) "video_level1" in
  filter (fun c => is_create c = true) (calls s') = []
  /\ skippedCount s' = 1%nat /\ createdCount s' = 0%nat.
Proof.
  destruct (place_existing_is_skipped Memory.memory Fixtures.config
              (start Fixtures.replicated_once) (VNum 1001) ∅ [] "video_level1" "db-v1"
              [Fixtures.copy_of "copy-1" 1001] Fixtures.replicated_once
              eq_refl ltac:(discriminate) eq_refl ltac:(simpl; lia))
    as (_ & Hc & Hs & Hn & _).
  split_and!; [exact Hc|exact Hs|exact Hn].
Defined.

Lemma replicate_inconsistent_record_witness :
  Sync.replicate Memory.memory Fixtures.config Fixtures.copyFields
    (start Fixtures.fresh) Fixtures.untiered
  = Return (failed (start Fixtures.fresh)).
Proof.
  apply (replicate_inconsistent_record Memory.memory Fixtures.config Fixtures.copyFields
           (start Fixtures.fresh) Fixtures.untiered "テスト案件" [] eq_refl).
  right. left. reflexivity.
Defined.

Lemma mapProperties_title_and_master_id_witness :
  exists mapped,
    Utils.mapProperties Fixtures.job1 Fixtures.copyFields = Return mapped
    /\ mapped !! "案件名" = Some (VObj {[ "title" := VArr [Fixtures.text "テスト案件"] ]})
    /\ mapped !! "マスター案件ID" = Some (VObj {[ "number" := VNum 1001 ]}).
Proof.
  eexists. split; [reflexivity|].
  destruct (mapProperties_title_and_master_id Memory.memory Fixtures.config
              Fixtures.copyFields Fixtures.job1 _ eq_refl) as (Ht & _ & Hid & _).
  split.
  - apply (Ht _ [Fixtures.text "テスト案件"] eq_refl eq_refl).
  - apply (Hid _ {[ "number" := VNum 1001 ]} eq_refl eq_refl).
Defined.


Lemma sanitizeBlock_idempotent_witness :
  Sync.sanitizeBlock (Sync.sanitizeBlock Fixtures.paragraph)
  = Sync.sanitizeBlock Fixtures.paragraph.
Proof.
  apply (sanitizeBlock_idempotent Fixtures.paragraph "paragraph").
  split; reflexivity.
Defined.


(** ** The scenarios of the specification, run on the store in memory *)

(** A Tier1 video record without copies: three records are created, one
    in each tier of the video collections, each with the masterId of the
    source. *)
Example first_run_creates_three :
  let r := Sync.main Memory.memory Fixtures.env Fixtures.copyFields Fixtures.fresh in
  tallies r = (Completed, (3, 0, 0, 0)%nat)
  /\ created_in (calls r.2)
     = [ (VStr "db-v1", Some (VObj {[ "number" := VNum 1001 ]}));
         (VStr "db-v2", Some (VObj {[ "number" := VNum 1001 ]}));
         (VStr "db-v3", Some (VObj {[ "number" := VNum 1001 ]})) ].
Proof. vm_compute. split; reflexivity. Qed.

(** The second run on the store the first run left creates nothing. *)
Example second_run_creates_nothing :
  let r1 := Sync.main Memory.memory Fixtures.env Fixtures.copyFields Fixtures.fresh in
  let r2 := Sync.main Memory.memory Fixtures.env Fixtures.copyFields (world r1.2) in
  tallies r2 = (Completed, (0, 3, 0, 0)%nat) /\ created_in (calls r2.2) = [].
Proof. vm_compute. split; reflexivity. Qed.

(** No Open record: nothing is counted and nothing is written. *)
Example no_open_record :
  let r := Sync.main Memory.memory Fixtures.env Fixtures.copyFields Fixtures.retired in
  tallies r = (Completed, (0, 0, 0, 0)%nat) /\ world r.2 = Fixtures.retired.
Proof. vm_compute. split; reflexivity. Qed.

(** A Closed record with copies in two of the six public collections,
    two of them in one collection: six queries, and one archive call for
    each of the three copies. *)
Example cleanup_two_of_six :
  let r := Cleanup.main Memory.memory Fixtures.env Fixtures.retired in
  tallies r = (Completed, (0, 0, 3, 0)%nat)
  /\ archive_calls (calls r.2) = ["copy-a"; "copy-b"; "copy-c"]
  /\ count is_query (calls r.2) = 7%nat.
Proof. vm_compute. split_and!; reflexivity. Qed.

(** A category named like an inherited member is routed to three
    targets that are not configured: three errors, where the
    specification counts one skipped record. *)
Example inherited_category_is_not_skipped :
  let w := Memory.Store
             [Memory.Entry "db-master" (Fixtures.open_job "job-4" 4004 "constructor" "レベル1") false] ∅ in
  tallies (Sync.main Memory.memory Fixtures.env Fixtures.copyFields w)
  = (Completed, (0, 0, 0, 3)%nat).
Proof. vm_compute. reflexivity. Qed.

(** ** The further properties at the fixtures *)

Lemma withRetry_rate_limit_then_success_witness :
  NotionClient.withRetry (scripted (Return 7)) [Throw (rate_limit_error (Some 2))]
  = Some (Return (Some 7), [],
          [NotionClient.Failed 1 (rate_limit_error (Some 2)); NotionClient.Sleep 2000;
           NotionClient.Succeeded 2; NotionClient.Sleep 350]).
Proof.
  apply (withRetry_rate_limit_then_success (scripted (Return 7))
           [Throw (rate_limit_error (Some 2))] [] []
           {| code := Some "rate_limited"; status := Some 429;
              retry_after := Some 2; message := "rate limited" |} 2 7);
    try reflexivity.
  discriminate.
Defined.

Lemma withRetry_transient_exhaustion_witness :
  exists w' tr,
    NotionClient.withRetry (R := Z) (always (Throw server_error)) tt
    = Some (Throw server_error, w', tr) /\ NotionClient.attempts tr = 3%nat.
Proof.
  apply (withRetry_transient_exhaustion (always (Throw server_error)) tt server_error);
    try reflexivity.
  intros w0. exists w0. reflexivity.
Defined.

Lemma sync_no_open_record_witness :
  Sync.sync Memory.memory Fixtures.config Fixtures.copyFields Fixtures.retired
  = (Completed,
     Run Fixtures.retired [Queried (VStr "db-master") Sync.open_filter (Return [])] 0 0 0 0).
Proof.
  apply (sync_no_open_record Memory.memory Fixtures.config Fixtures.copyFields
           Fixtures.retired Fixtures.retired).
  reflexivity.
Defined.

Lemma sync_listing_fails_witness :
  Sync.sync down Fixtures.config Fixtures.copyFields tt
  = (Exit1, Run tt [Queried (VStr "db-master") Sync.open_filter (Throw unavailable)] 0 0 0 0).
Proof.
  apply (sync_listing_fails down Fixtures.config Fixtures.copyFields tt tt unavailable).
  reflexivity.
Defined.

Lemma replicate_out_of_scope_witness :
  let job := Fixtures.open_job "job-5" 5005 "プログラミング" "レベル1" in
  Sync.replicate Memory.memory Fixtures.config Fixtures.copyFields (start Fixtures.fresh) job
  = Return (skipped (called (Routed (VStr "プログラミング") (VStr "レベル1"))
                       Fixtures.fresh (start Fixtures.fresh))).
Proof.
  apply (replicate_out_of_scope Memory.memory Fixtures.config Fixtures.copyFields
           (start Fixtures.fresh)
           (Fixtures.open_job "job-5" 5005 "プログラミング" "レベル1") "テスト案件");
    reflexivity.
Defined.

Lemma place_unconfigured_target_witness :
  Sync.place Memory.memory Fixtures.config (VNum 1001) ∅ [] (start Fixtures.fresh)
    "audio_level1"
  = failed (start Fixtures.fresh).
Proof.
  apply (place_unconfigured_target Memory.memory Fixtures.config (start Fixtures.fresh)
           (VNum 1001) ∅ [] "audio_level1" []).
  reflexivity.
Defined.

Lemma place_creates_witness :
  createdCount
    (Sync.place Memory.memory Fixtures.config (VNum 1001) ∅ [] (start Fixtures.fresh)
       "video_level1")
  = 1%nat.
Proof.
  rewrite (place_creates Memory.memory Fixtures.config (start Fixtures.fresh) (VNum 1001)
             ∅ [] "video_level1" "db-v1" Fixtures.fresh
             (Memory.create (VStr "db-v1") ∅ [] Fixtures.fresh).2
             (Page "page-1" ∅) eq_refl ltac:(discriminate) eq_refl eq_refl).
  reflexivity.
Defined.

Lemma replicate_content_fetch_fails_witness :
  exists s',
    Sync.replicate Memory.without_content Fixtures.config Fixtures.copyFields
      (start Fixtures.fresh) Fixtures.job1 = Return s'
    /\ createdCount s' = 3%nat.
Proof.
  eexists. split.
  - apply (replicate_content_fetch_fails Memory.without_content Fixtures.config
             Fixtures.copyFields (start Fixtures.fresh) Fixtures.job1 "テスト案件"
             _ unavailable Fixtures.fresh eq_refl eq_refl ltac:(discriminate)
             eq_refl eq_refl).
  - vm_compute. reflexivity.
Defined.

Lemma retire_without_masterId_witness :
  Cleanup.retire Memory.memory Fixtures.config (start Fixtures.retired) (Page "job-6" ∅)
  = Return (failed (start Fixtures.retired)).
Proof.
  apply (retire_without_masterId Memory.memory Fixtures.config (start Fixtures.retired)
           (Page "job-6" ∅) Utils.untitled []); reflexivity.
Defined.

Lemma main_twice_witness :
  let r1 := Sync.main Memory.memory Fixtures.env Fixtures.copyFields Fixtures.fresh in
  let r2 := Sync.main Memory.memory Fixtures.env Fixtures.copyFields (world r1.2) in
  world r2.2 = world r1.2 /\ createdCount r2.2 = 0%nat
  /\ count is_create (calls r2.2) = 0%nat.
Proof.
  apply (main_twice Fixtures.env Fixtures.copyFields Fixtures.fresh).
  intros dbConfig Hcfg. vm_compute in Hcfg. injection Hcfg as <-.
  cbn [Utils.master Utils.public fmap list_fmap snd].
  intros Hin. repeat (apply elem_of_cons in Hin as [Hin|Hin]; [discriminate Hin|]).
  by apply elem_of_nil in Hin.
Defined.

(** * Further properties

    What the code shows beyond the statements above: the helpers of
    utils.js, the listing loops of notion-client.js, and the two
    orchestrators against any remote store. *)

(** ** The title of a page *)

(** [getPageTitle] never returns the empty text: a page without a
    usable title is called [(無題)]. *)
Theorem getPageTitle_never_empty (p : page) (title : string) :
  Utils.getPageTitle p = Return title -> title <> "".
Proof.
  unfold Utils.getPageTitle.
  destruct (truthy (js_get (properties p) "案件名")); cbn [negb];
    [|intros [= <-]; discriminate].
  destruct (field _ "title") as [t|e]; cbn [bind]; [|discriminate].
  destruct (truthy t); cbn [negb]; [|intros [= <-]; discriminate].
  destruct t; try discriminate.
  destruct (Utils.plain_texts l) as [xs|e]; cbn [bind]; [|discriminate].
  intros [= <-]. case_bool_decide; [discriminate|assumption].
Qed.

Lemma plain_texts_strings (texts : list string) (spans : list obj) :
  (fun m : obj => m !! "plain_text") <$> spans = (fun t => Some (VStr t)) <$> texts ->
  Utils.plain_texts (VObj <$> spans) = Return texts.
Proof.
  revert texts. induction spans as [|m spans IH]; intros [|t texts] H;
    try discriminate; [reflexivity|].
  cbn in H. injection H as Hm Hrest.
  cbn [fmap list_fmap Utils.plain_texts field]. rewrite Hm. cbn [default bind].
  rewrite (IH texts Hrest). reflexivity.
Qed.

(** The title of a page is the plain texts of the spans of its title
    property, in their order, with nothing between them; [(無題)] when
    they are all empty or there is no span. *)
Theorem getPageTitle_concatenates (p : page) (o : obj) (spans : list obj)
    (texts : list string) :
  properties p !! "案件名" = Some (VObj o) ->
  o !! "title" = Some (VArr (VObj <$> spans)) ->
  (fun m : obj => m !! "plain_text") <$> spans = (fun t => Some (VStr t)) <$> texts ->
  Utils.getPageTitle p
  = Return (if bool_decide (String.concat "" texts = "") then Utils.untitled
            else String.concat "" texts).
Proof.
  intros Hp Ho Hs. unfold Utils.getPageTitle, js_get. rewrite Hp.
  cbn [truthy negb field]. rewrite Ho. cbn [default bind truthy negb].
  unfold id. cbn [truthy negb].
  rewrite (plain_texts_strings texts spans Hs). reflexivity.
Qed.

(** A page without the title property, or whose title property holds no
    list of spans, is untitled. *)
Lemma getPageTitle_untitled (p : page) :
  (properties p !! "案件名" = None -> Utils.getPageTitle p = Return Utils.untitled)
  /\ (forall o, properties p !! "案件名" = Some (VObj o) ->
        o !! "title" = None \/ o !! "title" = Some VNull
        \/ o !! "title" = Some VUndef \/ o !! "title" = Some (VArr []) ->
        Utils.getPageTitle p = Return Utils.untitled).
Proof.
  split.
  - intros Hp. unfold Utils.getPageTitle, js_get. rewrite Hp. reflexivity.
  - intros o Hp Ho. unfold Utils.getPageTitle, js_get. rewrite Hp.
    cbn [truthy negb field].
    destruct Ho as [-> | [-> | [-> | ->]]]; reflexivity.
Qed.

(** ** The timestamp of a log line *)

Lemma in_range (P : Z -> bool) (lo len : Z) :
  forallb P (seqZ lo len) = true -> forall n, lo <= n < lo + len -> P n = true.
Proof.
  intros H n Hn. rewrite forallb_forall in H. apply H.
  apply list_elem_of_In. apply elem_of_seqZ. lia.
Qed.

Lemma pad_written n : 0 <= n <= 99 -> written 2 (Utils.pad n) n = true.
Proof.
  intros H. apply (in_range (fun n => written 2 (Utils.pad n) n) 0 100);
    [vm_compute; reflexivity|lia].
Qed.

Lemma year_written n : 1000 <= n <= 9999 -> written 4 (pretty n) n = true.
Proof.
  intros H. apply (in_range (fun n => written 4 (pretty n) n) 1000 9000);
    [vm_compute; reflexivity|lia].
Qed.

Lemma written_2 s n :
  written 2 s n = true ->
  exists a b, s = String a (String b EmptyString) /\ number 0 [a; b] = Some n.
Proof.
  unfold written. intros H. apply andb_prop in H as [Hl Hn].
  destruct s as [|a [|b [|c s]]]; try discriminate.
  exists a, b. split; [reflexivity|]. cbn [String.list_ascii_of_string] in Hn.
  destruct (number 0 [a; b]) as [m|]; [|discriminate].
  apply Z.eqb_eq in Hn. congruence.
Qed.

Lemma written_4 s n :
  written 4 s n = true ->
  exists a b c d, s = String a (String b (String c (String d EmptyString)))
    /\ number 0 [a; b; c; d] = Some n.
Proof.
  unfold written. intros H. apply andb_prop in H as [Hl Hn].
  destruct s as [|a [|b [|c [|d [|e s]]]]]; try discriminate.
  exists a, b, c, d. split; [reflexivity|]. cbn [String.list_ascii_of_string] in Hn.
  destruct (number 0 [a; b; c; d]) as [m|]; [|discriminate].
  apply Z.eqb_eq in Hn. congruence.
Qed.

(** The timestamp has the documented shape, and reads back as the date
    it was made from. *)
Lemma getTimestamp_read (now : Utils.date) :
  calendar now -> read_timestamp (Utils.getTimestamp now) = Some now.
Proof.
  intros (Hy & Hmo & Hd & Hh & Hn & Hs). unfold Utils.getTimestamp.
  destruct (written_4 _ _ (year_written _ Hy)) as (y1 & y2 & y3 & y4 & -> & Ey).
  destruct (written_2 _ _ (pad_written (Utils.getMonth now + 1) ltac:(lia)))
    as (m1 & m2 & -> & Em).
  destruct (written_2 _ _ (pad_written (Utils.getDate now) ltac:(lia)))
    as (d1 & d2 & -> & Ed).
  destruct (written_2 _ _ (pad_written (Utils.getHours now) ltac:(lia)))
    as (h1 & h2 & -> & Eh).
  destruct (written_2 _ _ (pad_written (Utils.getMinutes now) ltac:(lia)))
    as (n1 & n2 & -> & En).
  destruct (written_2 _ _ (pad_written (Utils.getSeconds now) ltac:(lia)))
    as (s1 & s2 & -> & Es).
  unfold read_timestamp.
  simpl. simpl in Ey, Em, Ed, Eh, En, Es.
  rewrite Ey, Em, Ed, Eh, En, Es.
  destruct now. cbn [Utils.getFullYear Utils.getMonth Utils.getDate Utils.getHours
                     Utils.getMinutes Utils.getSeconds].
  f_equal. f_equal. lia.
Qed.

(** [log] writes one line, on the error stream when the level is ERROR
    and on the output stream otherwise; the line opens with a timestamp
    of the shape YYYY-MM-DD HH:mm:ss between brackets, which reads back
    as the local time of the call, then gives the level and the
    message. *)
Theorem log_line_round_trip (now : Utils.date) (level message : string)
    (c : Utils.console) :
  calendar now ->
  exists timestamp,
    read_timestamp timestamp = Some now
    /\ let line := "[" +:+ timestamp +:+ "] " +:+ level +:+ ": " +:+ message in
       (level = "ERROR" ->
        Utils.log now level message c
        = Utils.Console (Utils.stdout c) (Utils.stderr c ++ [line]))
       /\ (level <> "ERROR" ->
           Utils.log now level message c
           = Utils.Console (Utils.stdout c ++ [line]) (Utils.stderr c)).
Proof.
  intros Hc. exists (Utils.getTimestamp now). split; [exact (getTimestamp_read now Hc)|].
  cbn zeta. unfold Utils.log. split; intros H.
  - rewrite bool_decide_eq_true_2 by assumption. reflexivity.
  - rewrite bool_decide_eq_false_2 by assumption. reflexivity.
Qed.

(** ** Routing and configuration together *)

Lemma unset_false env k : Utils.unset env k = false -> Utils.getenv env k <> "".
Proof. unfold Utils.unset. intros H. by apply bool_decide_eq_false in H. Qed.

(** Every target key the routing table gives for one of its two
    categories names a collection of the loaded configuration, with an
    identifier that is not empty: for these categories the sync never
    meets a target without identifier. *)
Theorem routed_targets_are_configured (env : gmap string string)
    (dbConfig : Utils.dbConfig) (jobType : string) (level : value) (dbKey : string) :
  Utils.loadDbConfig env = Return dbConfig ->
  jobType = "動画制作" \/ jobType = "デザイン制作" ->
  dbKey ∈ Utils.getTargetDatabases (VStr jobType) level ->
  exists dbId, public_get dbConfig dbKey = VStr dbId /\ dbId <> ""
    /\ truthy (public_get dbConfig dbKey) = true.
Proof.
  intros Hcfg Hty Hin.
  unfold Utils.loadDbConfig in Hcfg.
  destruct (0 <? length _)%nat eqn:Hmiss; [discriminate|].
  apply Nat.ltb_ge in Hmiss.
  assert (Hall : Forall (fun k => Utils.unset env k = false) (snd <$> Utils.required)).
  { apply Forall_forall. intros k Hk.
    destruct (Utils.unset env k) eqn:E; [|reflexivity].
    exfalso.
    assert (k ∈ filter (fun e => Utils.unset env e = true) (snd <$> Utils.required))
      by (apply list_elem_of_filter; split; assumption).
    destruct (filter _ _); [by apply elem_of_nil in H|simpl in Hmiss; lia]. }
  injection Hcfg as <-.
  cbn in Hall.
  repeat match goal with
         | H : Forall _ (_ :: _) |- _ => apply Forall_cons in H as [?%unset_false H]
         end.
  assert (Hkey : forall d, d <> "" -> exists dbId, VStr d = VStr dbId /\ dbId <> ""
                            /\ truthy (VStr d) = true).
  { intros d Hd. exists d. split_and!; [reflexivity|assumption|].
    cbn. by rewrite bool_decide_eq_false_2. }
  unfold Utils.getTargetDatabases in Hin.
  destruct Hty as [-> | ->];
    [rewrite getTypePrefix_video in Hin | rewrite getTypePrefix_design in Hin];
    cbn [truthy negb bool_decide js_toString] in Hin;
    (destruct (is_string level "レベル1");
     [|destruct (is_string level "レベル2");
       [|destruct (is_string level "レベル3")]]);
    repeat (apply elem_of_cons in Hin as [-> | Hin];
            [vm_compute public_get; apply Hkey; assumption|]);
    by apply elem_of_nil in Hin.
Qed.

(** ** What makes the mapper throw *)

Lemma field_returns v k : truthy v = true -> exists x, field v k = Return x.
Proof.
  destruct v; try discriminate; intros _; cbn [field]; eauto.
  destruct (_ && _); eauto.
Qed.

Lemma field_throws v k e : field v k = Throw e -> nullish v = true.
Proof.
  destruct v; cbn [field]; try discriminate; try reflexivity.
  destruct (_ && _); discriminate.
Qed.

Lemma map_name_of_throws items e :
  Utils.map_name_of items = Throw e -> exists item, item ∈ items /\ nullish item = true.
Proof.
  induction items as [|item rest IH]; [discriminate|]. cbn [Utils.map_name_of].
  unfold Utils.name_of.
  destruct (field item "name") as [n|e'] eqn:E; cbn [bind].
  - destruct (Utils.map_name_of rest) as [xs|e'] eqn:Er; cbn [bind]; [discriminate|].
    intros [= ->]. destruct (IH eq_refl) as (x & Hin & Hx).
    exists x. split; [right; exact Hin|exact Hx].
  - intros _. exists item. split; [left|]. exact (field_throws _ _ _ E).
Qed.

Lemma buildPropertyValue_throws prop e :
  truthy prop = true -> Utils.buildPropertyValue prop = Throw e ->
  exists o ms, prop = VObj o /\ o !! "type" = Some (VStr "multi_select")
    /\ o !! "multi_select" = Some ms /\ malformed_choices ms.
Proof.
  intros Ht. unfold Utils.buildPropertyValue.
  destruct (field_returns prop "type" Ht) as (ty & Hty). rewrite Hty. cbn [bind].
  assert (Hpass : forall k, Utils.pass_through prop k = Throw e -> False).
  { intros k. unfold Utils.pass_through.
    destruct (field_returns prop k Ht) as (x & ->). discriminate. }
  assert (Hrich : Utils.rich_text_of prop = Throw e -> False).
  { unfold Utils.rich_text_of.
    destruct (field_returns prop "rich_text" Ht) as (x & ->). discriminate. }
  assert (Hsel : Utils.select_of prop = Throw e -> False).
  { unfold Utils.select_of.
    destruct (field_returns prop "select" Ht) as (x & ->). cbn [bind].
    destruct (truthy x) eqn:Hx; [|discriminate].
    destruct (field_returns x "name" Hx) as (n & ->). discriminate. }
  destruct (is_string ty "rich_text"); [intros H; destruct (Hrich H)|].
  destruct (is_string ty "number"); [intros H; destruct (Hpass _ H)|].
  destruct (is_string ty "select"); [intros H; destruct (Hsel H)|].
  destruct (is_string ty "multi_select") eqn:Hms.
  2:{ repeat (match goal with
              | |- context [if ?b then _ else _] => destruct b
              end; [intros H; destruct (Hpass _ H)|]).
      intros H; destruct (Hrich H). }
  destruct ty as [| | | |t| | |]; try discriminate.
  apply bool_decide_eq_true in Hms as ->.
  unfold Utils.multi_select_of.
  destruct prop as [| | | | | |o|n]; try discriminate.
  cbn [field] in Hty |- *. injection Hty as Hty.
  destruct (o !! "type") as [t|] eqn:Ho; cbn in Hty; [subst t|discriminate].
  cbn [bind]. unfold js_or.
  destruct (o !! "multi_select") as [ms|] eqn:Hm; cbn [default truthy];
    [|discriminate].
  unfold id. destruct (truthy ms) eqn:Htms; [|discriminate].
  intros H. exists o, ms. split_and!; try reflexivity; try assumption.
  split; [assumption|].
  destruct ms; try exact I.
  cbn [Utils.js_map_name_of] in H.
  destruct (Utils.map_name_of l) as [xs|e'] eqn:E; [discriminate|].
  exact (map_name_of_throws _ _ E).
Qed.

Lemma copy_loop_throws_at sourceProps copy m e :
  Utils.copy_loop sourceProps copy m = Throw e ->
  exists f, f ∈ copy /\ truthy (js_get sourceProps f) = true
    /\ Utils.buildPropertyValue (js_get sourceProps f) = Throw e.
Proof.
  revert m. induction copy as [|f rest IH]; intros m; [discriminate|].
  cbn [Utils.copy_loop].
  assert (Hrest : Utils.copy_loop sourceProps rest m = Throw e ->
                  exists f0, f0 ∈ f :: rest /\ truthy (js_get sourceProps f0) = true
                    /\ Utils.buildPropertyValue (js_get sourceProps f0) = Throw e).
  { intros H. destruct (IH _ H) as (f0 & Hin & H0).
    exists f0. split; [right; exact Hin|exact H0]. }
  destruct (bool_decide (f = "案件詳細")); [exact Hrest|].
  destruct (bool_decide (f = "案件名")); [exact Hrest|].
  destruct (truthy (js_get sourceProps f)) eqn:Ht; cbn [negb]; [|exact Hrest].
  destruct (Utils.buildPropertyValue (js_get sourceProps f)) as [v|e'] eqn:Eb; cbn [bind].
  - intros H. destruct (IH _ H) as (f0 & Hin & H0).
    exists f0. split; [right; exact Hin|exact H0].
  - intros [= ->]. exists f. split; [left|]. split; [exact Ht|exact Eb].
Qed.

(** The property mapper throws on one kind of record only: one that
    holds, under a listed name, a multi-choice property whose choices are
    not a list, or a list with a hole. *)
Theorem mapProperties_throws_only_on_multi_select (source : page)
    (copy : list string) (e : exn) :
  Utils.mapProperties source copy = Throw e ->
  exists f o ms,
    f ∈ copy /\ properties source !! f = Some (VObj o)
    /\ o !! "type" = Some (VStr "multi_select")
    /\ o !! "multi_select" = Some ms /\ malformed_choices ms.
Proof.
  rewrite mapProperties_unfold.
  destruct (Utils.copy_loop (properties source) copy ∅) as [m|e'] eqn:E; [discriminate|].
  cbn [bind]. intros [= ->].
  destruct (copy_loop_throws_at _ _ _ _ E) as (f & Hin & Ht & Hb).
  destruct (buildPropertyValue_throws _ _ Ht Hb) as (o & ms & Hp & Hty & Hm & Hbad).
  exists f, o, ms. split_and!; try assumption.
  unfold js_get in Hp. destruct (properties source !! f) as [v|]; [congruence|].
  destruct (inherited f); discriminate.
Qed.

(** ** The schedule of the retries *)

Section RetrySchedule.
Context {W R : Type}.
Implicit Types (fn : NotionClient.thunk (W := W) (R := R)).
Import NotionClient.

(** A call that fails twice with a transient error and then succeeds
    returns its result: three attempts, 2 s and 4 s between them, and the
    pause of 350 ms after the success. *)
Theorem withRetry_backoff_schedule fn (w w1 w2 w3 : W) (e1 e2 : exn) (result : R) :
  rate_limited e1 = false -> isRetryable e1 = true ->
  rate_limited e2 = false -> isRetryable e2 = true ->
  fn w = (Throw e1, w1) -> fn w1 = (Throw e2, w2) -> fn w2 = (Return result, w3) ->
  withRetry fn w
  = Some (Return (Some result), w3,
          [Failed 1 e1; Sleep 2000; Failed 2 e2; Sleep 4000; Succeeded 3; Sleep 350]).
Proof.
  intros Hl1 Hr1 Hl2 Hr2 H1 H2 H3. unfold withRetry, MAX_RETRIES. cbn [retry_from].
  rewrite !bool_decide_eq_true_2 by (unfold MAX_RETRIES; lia).
  rewrite H1, Hl1, Hr1. cbn [andb].
  rewrite H2, Hl2, Hr2. cbn [andb].
  rewrite H3. reflexivity.
Qed.

End RetrySchedule.

(** ** The listing loops *)

Section ListingProperties.
Context {W A : Type}.
Variable list_page : value -> NotionClient.thunk (W := W) (R := NotionClient.response A).
Import NotionClient.

Lemma withRetry_first_success (fn : thunk (W := W) (R := response A)) w r w' :
  fn w = (Return r, w') -> withRetry fn w = Some (Return (Some r), w', one_request).
Proof.
  intros H. unfold withRetry, MAX_RETRIES. cbn [retry_from].
  rewrite bool_decide_eq_true_2 by (unfold MAX_RETRIES; lia). rewrite H. reflexivity.
Qed.

Lemma paginate_serves cursor w chunks w' :
  serves list_page cursor w chunks w' ->
  forall fuel acc, (length chunks <= fuel)%nat ->
    paginate fuel list_page cursor acc w
    = Some (Return (acc ++ concat chunks)%list, w',
            concat (replicate (length chunks) one_request)).
Proof.
  induction 1 as [cursor w r w' Hp Hstop | cursor w r w1 chunks w' Hp Hm Hc Hs IH];
    intros [|fuel] acc Hf; simpl in Hf; try lia.
  - cbn [paginate]. rewrite (withRetry_first_success _ _ _ _ Hp).
    assert (E : truthy (if has_more r then next_cursor r else VUndef) = false).
    { destruct Hstop as [-> | Hn]; [reflexivity|].
      destruct (has_more r); [exact Hn|reflexivity]. }
    rewrite E. cbn [concat length replicate]. rewrite !app_nil_r. reflexivity.
  - cbn [paginate]. rewrite (withRetry_first_success _ _ _ _ Hp).
    rewrite Hm, Hc. rewrite IH by lia.
    cbn [concat length replicate]. rewrite <- app_assoc. reflexivity.
Qed.

Lemma paginate_breaks e cursor w n w' :
  rate_limited e = false -> isRetryable e = false ->
  breaks list_page e cursor w n w' ->
  forall fuel acc, (n < fuel)%nat ->
    paginate fuel list_page cursor acc w
    = Some (Throw e, w', (concat (replicate n one_request) ++ [Failed 1 e])%list).
Proof.
  intros Hrl Hre.
  induction 1 as [cursor w w' Hp | cursor w r w1 n w' Hp Hm Hc Hs IH];
    intros [|fuel] acc Hf; try lia.
  - cbn [paginate].
    assert (E : withRetry (list_page cursor) w = Some (Throw e, w', [Failed 1 e])).
    { unfold withRetry, MAX_RETRIES. cbn [retry_from].
      rewrite bool_decide_eq_true_2 by (unfold MAX_RETRIES; lia).
      rewrite Hp, Hrl, Hre, andb_false_r. reflexivity. }
    rewrite E. reflexivity.
  - cbn [paginate]. rewrite (withRetry_first_success _ _ _ _ Hp).
    rewrite Hm, Hc. rewrite IH by lia.
    cbn [concat replicate]. rewrite <- app_assoc. reflexivity.
Qed.

End ListingProperties.

(** [queryDatabase] and [getPageBlocks] follow the cursor to the last
    page and return the results of all the pages, in the order the store
    served them, after one request and one pause per page. *)
Theorem listing_collects_all_pages {W} (notion : NotionClient.sdk W) (fuel : nat)
    (databaseId : value) (f : query_filter) (pageId : string) (w w1 w2 : W)
    (pages : list (list page)) (blocks : list (list obj)) :
  serves (NotionClient.databases_query notion databaseId f) VUndef w pages w1 ->
  serves (NotionClient.blocks_children_list notion pageId) VUndef w blocks w2 ->
  (length pages <= fuel)%nat -> (length blocks <= fuel)%nat ->
  NotionClient.queryDatabase notion fuel databaseId f w
  = Some (Return (concat pages), w1, concat (replicate (length pages) one_request))
  /\ NotionClient.getPageBlocks notion fuel pageId w
     = Some (Return (concat blocks), w2, concat (replicate (length blocks) one_request)).
Proof.
  intros Hp Hb Hfp Hfb. unfold NotionClient.queryDatabase, NotionClient.getPageBlocks.
  rewrite (paginate_serves _ _ _ _ _ Hp fuel [] Hfp).
  rewrite (paginate_serves _ _ _ _ _ Hb fuel [] Hfb). split; reflexivity.
Qed.

(** When a page of a listing fails with an error that is not retried,
    [queryDatabase] and [getPageBlocks] throw that error: the results of
    the pages before it are lost, and no other page is asked for. *)
Theorem listing_discards_partial_results {W} (notion : NotionClient.sdk W) (fuel : nat)
    (databaseId : value) (f : query_filter) (pageId : string) (w w1 w2 : W)
    (e : exn) (n m : nat) :
  NotionClient.rate_limited e = false -> NotionClient.isRetryable e = false ->
  breaks (NotionClient.databases_query notion databaseId f) e VUndef w n w1 ->
  breaks (NotionClient.blocks_children_list notion pageId) e VUndef w m w2 ->
  (n < fuel)%nat -> (m < fuel)%nat ->
  NotionClient.queryDatabase notion fuel databaseId f w
  = Some (Throw e, w1, (concat (replicate n one_request) ++ [NotionClient.Failed 1 e])%list)
  /\ NotionClient.getPageBlocks notion fuel pageId w
     = Some (Throw e, w2,
             (concat (replicate m one_request) ++ [NotionClient.Failed 1 e])%list).
Proof.
  intros Hrl Hre Hp Hb Hfp Hfb.
  unfold NotionClient.queryDatabase, NotionClient.getPageBlocks.
  rewrite (paginate_breaks _ _ _ _ _ _ Hrl Hre Hp fuel [] Hfp).
  rewrite (paginate_breaks _ _ _ _ _ _ Hrl Hre Hb fuel [] Hfb). split; reflexivity.
Qed.

(** Against a store that answers every attempt with a rate-limit error,
    each function of the client gives up after three attempts without
    the error: the two listings throw a TypeError, since they read the
    results of the [undefined] that [withRetry] returned, and
    [createPage] and [archivePage] return [undefined]. *)
Theorem rate_limit_exhaustion_in_the_client {W} (notion : NotionClient.sdk W)
    (fuel : nat) (databaseId : value) (f : query_filter) (properties : obj)
    (children : list obj) (pageId : string) (w : W) :
  (forall cursor w0, exists e w1,
     NotionClient.databases_query notion databaseId f cursor w0 = (Throw e, w1)
     /\ NotionClient.rate_limited e = true) ->
  (forall cursor w0, exists e w1,
     NotionClient.blocks_children_list notion pageId cursor w0 = (Throw e, w1)
     /\ NotionClient.rate_limited e = true) ->
  (forall ch w0, exists e w1,
     NotionClient.pages_create notion databaseId properties ch w0 = (Throw e, w1)
     /\ NotionClient.rate_limited e = true) ->
  (forall w0, exists e w1,
     NotionClient.pages_update_archived notion pageId w0 = (Throw e, w1)
     /\ NotionClient.rate_limited e = true) ->
  (exists msg w' tr,
     NotionClient.queryDatabase notion (S fuel) databaseId f w
     = Some (Throw (TypeError msg), w', tr) /\ NotionClient.attempts tr = 3%nat)
  /\ (exists msg w' tr,
        NotionClient.getPageBlocks notion (S fuel) pageId w
        = Some (Throw (TypeError msg), w', tr) /\ NotionClient.attempts tr = 3%nat)
  /\ (exists w' tr,
        NotionClient.createPage notion databaseId properties children w
        = Some (Return None, w', tr) /\ NotionClient.attempts tr = 3%nat)
  /\ (exists w' tr,
        NotionClient.archivePage notion pageId w
        = Some (Return None, w', tr) /\ NotionClient.attempts tr = 3%nat).
Proof.
  intros Hq Hb Hc Ha.
  assert (Hlist : forall A (list_page : value -> NotionClient.thunk (W := W)
                                           (R := NotionClient.response A)),
    (forall cursor w0, exists e w1, list_page cursor w0 = (Throw e, w1)
       /\ NotionClient.rate_limited e = true) ->
    exists msg w' tr,
      NotionClient.paginate (S fuel) list_page VUndef [] w
      = Some (Throw (TypeError msg), w', tr) /\ NotionClient.attempts tr = 3%nat).
  { intros A list_page H.
    destruct (retry_from_rate_limited NotionClient.MAX_RETRIES 1 (list_page VUndef) w
                (H VUndef)) as (w' & tr & Hr & Hn);
      [unfold NotionClient.MAX_RETRIES; lia|].
    cbn [NotionClient.paginate]. unfold NotionClient.withRetry. rewrite Hr.
    eexists _, w', tr. split; [reflexivity|exact Hn]. }
  split_and!.
  - apply Hlist. exact Hq.
  - apply Hlist. exact Hb.
  - unfold NotionClient.createPage, NotionClient.withRetry.
    apply (retry_from_rate_limited NotionClient.MAX_RETRIES 1);
      [apply Hc|unfold NotionClient.MAX_RETRIES; lia].
  - unfold NotionClient.archivePage, NotionClient.withRetry.
    apply (retry_from_rate_limited NotionClient.MAX_RETRIES 1);
      [apply Ha|unfold NotionClient.MAX_RETRIES; lia].
Qed.

(** ** The forward sync against any remote store *)

Lemma checked_app tr1 tr2 : checked tr1 -> checked tr2 -> checked (tr1 ++ tr2).
Proof.
  induction 1; intros H2; simpl; [assumption| |].
  - apply checked_create; auto.
  - apply checked_other; auto.
Qed.

Ltac tally :=
  unfold advances, accounted;
  cbn [called failed skipped created calls createdCount skippedCount errorCount
       archivedCount world];
  rewrite ?app_nil_r, <- ?app_assoc;
  split; [reflexivity|];
  rewrite ?count_cons, ?count_nil; cbv [create_returned];
  split_and!; try reflexivity; try lia.

Section SyncTrace.
Context {W : Type} (cl : client W).
Variable dbConfig : Utils.dbConfig.
Variable copy : list string.
Implicit Types (s : run W) (job : page).

Lemma advances_refl s : advances s s [] 0.
Proof.
  unfold advances. rewrite app_nil_r, count_nil.
  split_and!; try reflexivity; try constructor; lia.
Qed.

Lemma advances_trans s1 s2 s3 new1 new2 n1 n2 :
  advances s1 s2 new1 n1 -> advances s2 s3 new2 n2 ->
  advances s1 s3 (new1 ++ new2) (n1 + n2).
Proof.
  intros (A1 & B1 & C1 & D1 & E1 & F1) (A2 & B2 & C2 & D2 & E2 & F2). unfold advances.
  rewrite A2, A1, D2, D1, E2, E1, F2, F1, count_app, app_assoc.
  split_and!; try reflexivity; try lia.
  - apply checked_app; assumption.
  - apply Forall_app; split; assumption.
Qed.

Lemma advances_called s c w1 :
  is_create c = false -> is_archive c = false ->
  advances s (called c w1 s) [c] 0.
Proof.
  intros Hc Ha. unfold advances, accounted. cbn [called calls createdCount skippedCount
    errorCount archivedCount]. rewrite count_cons, count_nil.
  replace (create_returned c) with false by (destruct c; try reflexivity; discriminate).
  split_and!; try reflexivity; try lia.
  - apply checked_other; [assumption|constructor].
  - repeat constructor. assumption.
Qed.

Lemma place_advances s (masterId : value) (mapped : obj) (children : list obj)
    (dbKey : string) :
  mapped !! "マスター案件ID" = Some (VObj {[ "number" := masterId ]}) ->
  exists new,
    advances s (Sync.place cl dbConfig masterId mapped children s dbKey) new 1.
Proof.
  intros Hid. unfold Sync.place.
  destruct (negb (truthy (public_get dbConfig dbKey))).
  { exists []. tally; constructor. }
  destruct (queryDatabase cl _ _ (world s)) as [[existing|e] w1].
  2:{ eexists [_]. tally.
      - apply checked_other; [reflexivity|constructor].
      - repeat constructor. }
  destruct existing as [|p existing]; cbn [length Nat.ltb Nat.leb].
  2:{ eexists [_]. tally.
      - apply checked_other; [reflexivity|constructor].
      - repeat constructor. }
  cbn [world called].
  destruct (createPage cl _ mapped children w1) as [[[made|]|e] w2];
    (eexists [_; _]; tally;
     [apply checked_create; [exact Hid|constructor] | repeat constructor]).
Qed.

Lemma fold_place_advances (masterId : value) (mapped : obj) (children : list obj)
    (targetDbKeys : list string) s :
  mapped !! "マスター案件ID" = Some (VObj {[ "number" := masterId ]}) ->
  exists new,
    advances s (fold_left (Sync.place cl dbConfig masterId mapped children) targetDbKeys s)
      new (length targetDbKeys).
Proof.
  intros Hid. revert s. induction targetDbKeys as [|k rest IH]; intros s; simpl.
  - exists []. apply advances_refl.
  - destruct (place_advances s masterId mapped children k Hid) as (new1 & H1).
    destruct (IH (Sync.place cl dbConfig masterId mapped children s k)) as (new2 & H2).
    exists (new1 ++ new2)%list. apply (advances_trans _ _ _ _ _ _ _ H1 H2).
Qed.

Lemma replicate_advances s job s' :
  Sync.replicate cl dbConfig copy s job = Return s' ->
  exists new,
    advances s s' new
      (if Sync.inconsistent job then 1
       else Nat.max 1 (length (Utils.getTargetDatabases (Sync.jobType_of job)
                                   (Sync.level_of job)))).
Proof.
  unfold Sync.replicate. destruct (Utils.getPageTitle job) as [jobName|e]; [|discriminate].
  simpl. destruct (Sync.inconsistent job) eqn:Hinc.
  { intros [= <-]. exists []. tally; constructor. }
  assert (Hid : nullish (Sync.masterId_of job) = false).
  { unfold Sync.inconsistent in Hinc. apply orb_false_iff in Hinc as [_ H]. exact H. }
  set (targets := Utils.getTargetDatabases (Sync.jobType_of job) (Sync.level_of job)).
  pose proof (advances_called s (Routed (Sync.jobType_of job) (Sync.level_of job))
                (world s) eq_refl eq_refl) as H0.
  destruct targets as [|k targets'] eqn:Et; cbn [length Nat.eqb].
  { intros [= <-]. eexists.
    eapply (advances_trans _ _ _ _ [] 0 1 H0).
    tally; constructor. }
  destruct (Utils.mapProperties job copy) as [mapped|e] eqn:Hm; [|discriminate].
  pose proof (mapProperties_master_id _ _ _ Hm (masterId_present _ Hid)) as Hmid.
  simpl. unfold Sync.fetch_children. cbn [world called].
  destruct (getPageBlocks cl (page_id job) (world s)) as [blocks w1].
  set (s0 := called (Routed (Sync.jobType_of job) (Sync.level_of job)) (world s) s) in *.
  pose proof (advances_called s0 (ListedBlocks (page_id job) blocks) w1 eq_refl eq_refl)
    as H1.
  set (s1 := called (ListedBlocks (page_id job) blocks) w1 s0) in *.
  assert (Hfold : forall children, exists new,
    advances s (fold_left (Sync.place cl dbConfig (Sync.masterId_of job) mapped children)
                  (k :: targets') s1) new (Nat.max 1 (S (length targets')))).
  { intros children.
    destruct (fold_place_advances (Sync.masterId_of job) mapped children (k :: targets') s1
                Hmid) as (new & H2).
    eexists.
    replace (Nat.max 1 (S (length targets'))) with (0 + (0 + length (k :: targets')))%nat
      by (simpl; lia).
    exact (advances_trans _ _ _ _ _ _ _ H0 (advances_trans _ _ _ _ _ _ _ H1 H2)). }
  destruct blocks as [blocks|e]; intros [= <-]; apply Hfold.
Qed.

Lemma replicate_all_advances jobs s :
  exists new n, advances s (Sync.replicate_all cl dbConfig copy s jobs).2 new n.
Proof.
  revert s. induction jobs as [|job rest IH]; intros s; simpl.
  - exists [], 0%nat. apply advances_refl.
  - destruct (Sync.replicate cl dbConfig copy s job) as [s'|e] eqn:E.
    + destruct (replicate_advances s job s' E) as (new1 & H1).
      destruct (IH s') as (new2 & n2 & H2).
      eexists _, _. exact (advances_trans _ _ _ _ _ _ _ H1 H2).
    + exists [], 0%nat. apply advances_refl.
Qed.

Lemma sync_advances (w : W) :
  exists new n,
    advances (start w) (Sync.sync cl dbConfig copy w).2 new n.
Proof.
  unfold Sync.sync. cbn [world start].
  destruct (queryDatabase cl _ Sync.open_filter w) as [activeJobs w1].
  pose proof (advances_called (start w)
                (Queried (VStr (Utils.master dbConfig)) Sync.open_filter activeJobs) w1
                eq_refl eq_refl) as H0.
  set (s0 := called _ w1 (start w)) in *.
  destruct activeJobs as [activeJobs|e]; [|eexists _, _; exact H0].
  destruct (length activeJobs =? 0)%nat; [eexists _, _; exact H0|].
  destruct (replicate_all_advances activeJobs s0) as (new & n & H1).
  destruct (Sync.replicate_all cl dbConfig copy s0 activeJobs) as [[e|] s'];
    eexists _, _; exact (advances_trans _ _ _ _ _ _ _ H0 H1).
Qed.

(** Whatever the remote store answers, the forward sync creates a record
    only right after it asked the same collection for the masterId the
    record carries, and was answered that there is none. *)
Theorem sync_creates_only_after_empty_check (w : W) :
  checked (calls (Sync.sync cl dbConfig copy w).2).
Proof.
  destruct (sync_advances w) as (new & n & Hc & Hchk & _).
  rewrite Hc. exact Hchk.
Qed.

(** The summary of the forward sync agrees with what it did, whatever
    the remote store answers: the created tally is the number of create
    calls that returned a page, and the sync archives nothing. *)
Theorem sync_tallies_match_trace (w : W) :
  let r := Sync.sync cl dbConfig copy w in
  createdCount r.2 = count create_returned (calls r.2)
  /\ count is_archive (calls r.2) = 0%nat
  /\ archivedCount r.2 = 0%nat.
Proof.
  destruct (sync_advances w) as (new & n & Hc & _ & Hna & Hcr & _ & Har).
  cbn zeta. rewrite Hc, Hcr, Har. cbn [start calls createdCount archivedCount app].
  split_and!; try reflexivity.
  unfold count. apply length_zero_iff_nil. clear Hc Hcr.
  induction Hna as [|c tr Hc' _ IH]; [reflexivity|].
  rewrite filter_cons_False by congruence. exact IH.
Qed.

(** Every target of a valid record ends in exactly one of the three
    tallies: created, skipped or error. *)
Theorem replicate_accounts_every_target s job s' :
  Sync.replicate cl dbConfig copy s job = Return s' ->
  Sync.inconsistent job = false ->
  Utils.getTargetDatabases (Sync.jobType_of job) (Sync.level_of job) <> [] ->
  (createdCount s' + skippedCount s' + errorCount s')%nat
  = (createdCount s + skippedCount s + errorCount s
     + length (Utils.getTargetDatabases (Sync.jobType_of job) (Sync.level_of job)))%nat.
Proof.
  intros Hr Hinc Ht.
  destruct (replicate_advances s job s' Hr) as (new & _ & _ & _ & _ & Hacc & _).
  rewrite Hinc in Hacc. unfold accounted in Hacc. rewrite Hacc.
  destruct (Utils.getTargetDatabases _ _); [contradiction|]. simpl. lia.
Qed.

Lemma replicate_readable s job :
  readable copy job -> exists s', Sync.replicate cl dbConfig copy s job = Return s'.
Proof.
  intros [(jobName & Ht) (mapped & Hm)]. unfold Sync.replicate. rewrite Ht. cbn [bind].
  destruct (Sync.inconsistent job); [eauto|].
  destruct (length _ =? 0)%nat; [eauto|].
  rewrite Hm. cbn [bind]. destruct (Sync.fetch_children cl job _). eauto.
Qed.

Lemma replicate_unreadable s job e :
  unreadable copy job e -> Sync.replicate cl dbConfig copy s job = Throw e.
Proof.
  intros [Ht | ((jobName & Ht) & Hinc & Hr & Hm)]; unfold Sync.replicate; rewrite Ht;
    [reflexivity|].
  cbn [bind]. rewrite Hinc.
  destruct (Utils.getTargetDatabases _ _) as [|k ks]; [contradiction|].
  cbn [length Nat.eqb]. rewrite Hm. reflexivity.
Qed.

Lemma replicate_all_readable before s :
  Forall (readable copy) before ->
  (Sync.replicate_all cl dbConfig copy s before).1 = None
  /\ forall rest,
       Sync.replicate_all cl dbConfig copy s (before ++ rest)%list
       = Sync.replicate_all cl dbConfig copy
           (Sync.replicate_all cl dbConfig copy s before).2 rest.
Proof.
  intros Hall. revert s. induction Hall as [|job before Hj _ IH]; intros s.
  - split; reflexivity.
  - cbn [Sync.replicate_all app].
    destruct (replicate_readable s job Hj) as (s' & ->). apply IH.
Qed.

(** A record that cannot be read stops the run: the sync ends through
    [process.exit(1)] in the state the records before it left, and the
    records after it are not processed. *)
Theorem sync_stops_at_first_throw (w w1 : W) (before after : list page) job (e : exn) :
  queryDatabase cl (VStr (Utils.master dbConfig)) Sync.open_filter w
    = (Return (before ++ job :: after)%list, w1) ->
  Forall (readable copy) before ->
  unreadable copy job e ->
  Sync.sync cl dbConfig copy w
  = (Exit1,
     (Sync.replicate_all cl dbConfig copy
        (called (Queried (VStr (Utils.master dbConfig)) Sync.open_filter
                   (Return (before ++ job :: after)%list)) w1 (start w))
        before).2).
Proof.
  intros Hq Hb Hj. unfold Sync.sync. cbn [world start]. rewrite Hq.
  replace (length (before ++ job :: after)%list =? 0)%nat with false
    by (symmetry; apply Nat.eqb_neq; rewrite length_app; simpl; lia).
  set (s0 := called _ w1 _).
  destruct (replicate_all_readable before s0 Hb) as [Hnone Happ].
  rewrite Happ. cbn [Sync.replicate_all].
  rewrite (replicate_unreadable _ job e Hj). reflexivity.
Qed.

(** A create call that returns [undefined], as [createPage] does once
    its attempts are used up by rate-limit errors, is counted as an error
    and not as a creation. *)
Theorem place_create_returns_undefined s (masterId : value) (mapped : obj)
    (children : list obj) (dbKey dbId : string) (w1 w2 : W) :
  public_get dbConfig dbKey = VStr dbId -> dbId <> "" ->
  queryDatabase cl (VStr dbId) (Sync.existence_filter masterId) (world s)
    = (Return [], w1) ->
  createPage cl (VStr dbId) mapped children w1 = (Return None, w2) ->
  let s' := Sync.place cl dbConfig masterId mapped children s dbKey in
  createdCount s' = createdCount s
  /\ errorCount s' = S (errorCount s)
  /\ skippedCount s' = skippedCount s
  /\ world s' = w2.
Proof.
  intros Hd Hne Hq Hc. cbn zeta. unfold Sync.place. rewrite Hd.
  cbn [truthy negb]. rewrite bool_decide_eq_false_2 by assumption. cbn [negb].
  rewrite Hq. cbn [length Nat.ltb Nat.leb world called]. rewrite Hc.
  split_and!; reflexivity.
Qed.

End SyncTrace.

(** ** The cleanup against any remote store *)

Lemma licensed_app allowed tr1 tr2 :
  licensed allowed tr1 -> self_contained tr2 -> licensed allowed (tr1 ++ tr2).
Proof.
  intros H1 H2. revert allowed H1.
  induction tr1 as [|c tr1 IH]; intros allowed H1; simpl; [apply H2|].
  destruct c as [| db f r | | pid r |]; simpl in H1 |- *; try contradiction.
  - destruct f; [apply IH; exact H1|]. destruct r; apply IH; exact H1.
  - destruct H1 as [Hin H1]. split; [exact Hin|]. apply IH. exact H1.
Qed.

Lemma self_contained_app tr1 tr2 :
  self_contained tr1 -> self_contained tr2 -> self_contained (tr1 ++ tr2).
Proof. intros H1 H2 allowed. apply licensed_app; [apply H1|exact H2]. Qed.

Lemma self_contained_nil : self_contained [].
Proof. intros allowed. exact I. Qed.

Lemma archives_licensed found atr allowed tr :
  archives found atr -> (page_id <$> found) ⊆ allowed -> self_contained tr ->
  licensed allowed (atr ++ tr).
Proof.
  intros Ha. revert allowed. induction Ha as [|p rest r atr Ha IH|p rest e];
    intros allowed Hsub Htr; simpl.
  - apply Htr.
  - split; [apply Hsub; left|].
    apply IH; [|exact Htr]. intros x Hx. apply Hsub. right. exact Hx.
  - split; [apply Hsub; left|apply Htr].
Qed.

Lemma fan_out_self_contained masterId dbIds tr :
  fan_out masterId dbIds tr -> self_contained tr.
Proof.
  induction 1 as [|dbId dbIds e tr _ IH|dbId dbIds found atr tr Ha _ IH]; intros allowed.
  - exact I.
  - simpl. apply IH.
  - simpl. apply (archives_licensed found); [exact Ha|reflexivity|exact IH].
Qed.

Section CleanupTrace.
Context {W : Type} (cl : client W).
Variable dbConfig : Utils.dbConfig.
Implicit Types (s : run W) (job : page).

Lemma retires_refl s : retires s s.
Proof.
  exists [], 0%nat. split_and!; [apply grows_refl|apply self_contained_nil|].
  rewrite count_nil. lia.
Qed.

Lemma retires_trans s1 s2 s3 : retires s1 s2 -> retires s2 s3 -> retires s1 s3.
Proof.
  intros (n1 & e1 & G1 & S1 & T1) (n2 & e2 & G2 & S2 & T2).
  exists (n1 ++ n2)%list, (e1 + e2)%nat. split_and!.
  - exact (grows_trans _ _ _ _ _ _ _ G1 G2).
  - apply self_contained_app; assumption.
  - rewrite count_app. lia.
Qed.

Lemma retract_retires (masterId : value) s (entry : string * string) :
  retires s (Cleanup.retract cl masterId s entry).
Proof.
  destruct entry as [dbKey dbId].
  destruct (decide (dbId = "")) as [-> | Hne]; [apply retires_refl|].
  destruct (retract_spec cl masterId s dbKey dbId Hne) as (seg & Hf & Hg).
  exists seg, (count thrown seg). split_and!; [exact Hg| |lia].
  exact (fan_out_self_contained _ _ _ Hf).
Qed.

Lemma fold_retract_retires (masterId : value) (entries : list (string * string)) s :
  retires s (fold_left (Cleanup.retract cl masterId) entries s).
Proof.
  revert s. induction entries as [|entry rest IH]; intros s; simpl.
  - apply retires_refl.
  - exact (retires_trans _ _ _ (retract_retires masterId s entry) (IH _)).
Qed.

Lemma retire_retires s job s' :
  Cleanup.retire cl dbConfig s job = Return s' -> retires s s'.
Proof.
  unfold Cleanup.retire. destruct (Utils.getPageTitle job); [|discriminate]. simpl.
  destruct (nullish (Sync.masterId_of job)); intros [= <-].
  - exists [], 1%nat. split_and!; [|apply self_contained_nil|rewrite count_nil; lia].
    apply grows_failed. apply grows_refl.
  - apply fold_retract_retires.
Qed.

Lemma retire_all_retires jobs s : retires s (Cleanup.retire_all cl dbConfig s jobs).2.
Proof.
  revert s. induction jobs as [|job rest IH]; intros s; simpl; [apply retires_refl|].
  destruct (Cleanup.retire cl dbConfig s job) as [s'|e] eqn:E; [|apply retires_refl].
  exact (retires_trans _ _ _ (retire_retires s job s' E) (IH s')).
Qed.

(** The run after the listing of the Closed records. *)
Lemma cleanup_retires (w : W) :
  let listing := queryDatabase cl (VStr (Utils.master dbConfig)) Cleanup.closed_filter w in
  let s0 := called (Queried (VStr (Utils.master dbConfig)) Cleanup.closed_filter listing.1)
              listing.2 (start w) in
  retires s0 (Cleanup.cleanup cl dbConfig w).2
  /\ ((Cleanup.cleanup cl dbConfig w).1 = Completed -> exists found, listing.1 = Return found).
Proof.
  cbn zeta. unfold Cleanup.cleanup. cbn [world start].
  destruct (queryDatabase cl _ Cleanup.closed_filter w) as [closedJobs w1]. cbn [fst snd].
  set (s0 := called _ w1 (start w)).
  destruct closedJobs as [closedJobs|e]; [|split; [apply retires_refl|discriminate]].
  destruct (length closedJobs =? 0)%nat; [split; [apply retires_refl|eauto]|].
  pose proof (retire_all_retires closedJobs s0) as H.
  destruct (Cleanup.retire_all cl dbConfig s0 closedJobs) as [[e|] s']; split; eauto.
Qed.


(** The summary of the cleanup agrees with what it did: the archived
    tally is the number of archive calls that returned, nothing is
    counted as created or skipped, and when the run completes every call
    that threw is counted as an error. *)
Theorem cleanup_tallies_match_trace (w : W) :
  let r := Cleanup.cleanup cl dbConfig w in
  archivedCount r.2 = count archive_returned (calls r.2)
  /\ createdCount r.2 = 0%nat
  /\ skippedCount r.2 = 0%nat
  /\ (r.1 = Completed -> (count thrown (calls r.2) <= errorCount r.2)%nat).
Proof.
  cbn zeta.
  destruct (cleanup_retires w) as [(new & errs & (Hc & Ha & He & Hcr & Hsk) & _ & Ht) Hok].
  rewrite Hc, Ha, He, Hcr, Hsk.
  cbn [called calls start app archivedCount createdCount skippedCount errorCount].
  rewrite !count_cons. cbn [archive_returned].
  split_and!; try reflexivity.
  intros Hdone. destruct (Hok Hdone) as (found & ->). cbn [thrown]. lia.
Qed.

(** An archive call that returns [undefined], as [archivePage] does once
    its attempts are used up by rate-limit errors, is counted as an
    archived record and not as an error. *)
Theorem retract_archive_returns_undefined s (masterId : value) (dbKey dbId : string)
    (found : list page) (w1 : W) :
  dbId <> "" ->
  queryDatabase cl (VStr dbId) (Sync.existence_filter masterId) (world s)
    = (Return found, w1) ->
  (forall pageId w0, archivePage cl pageId w0 = (Return None, w0)) ->
  let s' := Cleanup.retract cl masterId s (dbKey, dbId) in
  archivedCount s' = (archivedCount s + length found)%nat
  /\ errorCount s' = errorCount s
  /\ world s' = w1.
Proof.
  intros Hne Hq Ha. cbn zeta. unfold Cleanup.retract. cbn [snd truthy negb].
  rewrite bool_decide_eq_false_2 by assumption. cbn [negb]. rewrite Hq.
  set (s1 := called _ w1 s).
  assert (Hall : forall fs s0,
    Cleanup.archive_all cl s0 fs
    = (None, (Cleanup.archive_all cl s0 fs).2)
    /\ archivedCount (Cleanup.archive_all cl s0 fs).2 = (archivedCount s0 + length fs)%nat
    /\ errorCount (Cleanup.archive_all cl s0 fs).2 = errorCount s0
    /\ world (Cleanup.archive_all cl s0 fs).2 = world s0).
  { induction fs as [|p fs IH]; intros s0; cbn [Cleanup.archive_all].
    - split_and!; try reflexivity. simpl. lia.
    - rewrite Ha.
      destruct (IH (archived (called (Archived (page_id p) (Return None)) (world s0) s0)))
        as (E & A & B & C).
      split_and!; [exact E|rewrite A; simpl; lia|rewrite B; reflexivity
                  |rewrite C; reflexivity]. }
  destruct (Hall found s1) as (E & A & B & C). rewrite E.
  split_and!; [rewrite A|rewrite B|rewrite C]; reflexivity.
Qed.

End CleanupTrace.

(** ** The cleanup on the store in memory *)

Lemma ages_refl w : ages w w.
Proof.
  unfold ages. apply Forall2_same_length_lookup_2; [reflexivity|].
  intros i e e' H1 H2. rewrite H1 in H2. injection H2 as <-. auto.
Qed.

Lemma ages_trans w1 w2 w3 : ages w1 w2 -> ages w2 w3 -> ages w1 w3.
Proof.
  unfold ages. intros H12 H23. eapply Forall2_trans; [|exact H12|exact H23].
  intros e1 e2 e3 (A1 & B1 & C1) (A2 & B2 & C2). split_and!; [congruence|congruence|auto].
Qed.

Lemma ages_mark pageId w :
  ages w (Memory.Store (Memory.mark pageId <$> Memory.entries w) (Memory.contents w)).
Proof.
  unfold ages. cbn [Memory.entries]. apply Forall2_fmap_r.
  apply Forall_Forall2_diag. apply Forall_forall.
  intros e _. unfold compose, Memory.mark. case_bool_decide; cbn; auto.
Qed.

(** A document that is live in the older store was live before. *)
Lemma ages_has_copy w w' d n : ages w w' -> has_copy w' d n -> has_copy w d n.
Proof.
  intros Ha (e' & Hin & Hsel).
  apply list_elem_of_lookup in Hin as (i & Hi).
  destruct (Forall2_lookup_r _ _ _ _ _ Ha Hi) as (e & He & Hc & Hd & Harch).
  exists e. split; [apply list_elem_of_lookup; eauto|].
  unfold Memory.selected in *. rewrite <- Hc, <- Hd.
  destruct (Memory.is_archived e) eqn:E.
  - rewrite (Harch eq_refl) in Hsel. rewrite andb_false_r in Hsel. discriminate.
  - destruct (Memory.is_archived e'); [rewrite andb_false_r in Hsel; discriminate|].
    exact Hsel.
Qed.

Lemma ages_present w w' pageId :
  ages w w' ->
  (exists e, e ∈ Memory.entries w /\ page_id (Memory.document e) = pageId) ->
  exists e', e' ∈ Memory.entries w' /\ page_id (Memory.document e') = pageId.
Proof.
  intros Ha (e & Hin & Hid). apply list_elem_of_lookup in Hin as (i & Hi).
  destruct (Forall2_lookup_l _ _ _ _ _ Ha Hi) as (e' & He' & _ & Hd & _).
  exists e'. split; [apply list_elem_of_lookup; eauto|congruence].
Qed.

Lemma ages_archived w w' pageId :
  ages w w' ->
  (forall e, e ∈ Memory.entries w -> page_id (Memory.document e) = pageId ->
             Memory.is_archived e = true) ->
  forall e', e' ∈ Memory.entries w' -> page_id (Memory.document e') = pageId ->
             Memory.is_archived e' = true.
Proof.
  intros Ha H e' Hin Hid. apply list_elem_of_lookup in Hin as (i & Hi).
  destruct (Forall2_lookup_r _ _ _ _ _ Ha Hi) as (e & He & _ & Hd & Harch).
  apply Harch. apply H; [apply list_elem_of_lookup; eauto|congruence].
Qed.

Lemma archive_present pageId w :
  (exists e, e ∈ Memory.entries w /\ page_id (Memory.document e) = pageId) ->
  exists p,
    Memory.archive pageId w
    = (Return (Some p),
       Memory.Store (Memory.mark pageId <$> Memory.entries w) (Memory.contents w)).
Proof.
  intros (e & Hin & Hid). unfold Memory.archive.
  assert (He : e ∈ filter (fun e => page_id (Memory.document e) = pageId) (Memory.entries w))
    by (apply list_elem_of_filter; auto).
  destruct (filter _ _) as [|e0 l]; [by apply elem_of_nil in He|]. eauto.
Qed.

Lemma archive_all_memory (found : list page) (s : run Memory.store) :
  (forall p, p ∈ found ->
     exists e, e ∈ Memory.entries (world s) /\ page_id (Memory.document e) = page_id p) ->
  (Cleanup.archive_all Memory.memory s found).1 = None
  /\ ages (world s) (world (Cleanup.archive_all Memory.memory s found).2)
  /\ forall p, p ∈ found ->
       forall e', e' ∈ Memory.entries (world (Cleanup.archive_all Memory.memory s found).2) ->
         page_id (Memory.document e') = page_id p -> Memory.is_archived e' = true.
Proof.
  revert s. induction found as [|p rest IH]; intros s Hpresent.
  - cbn. split_and!; [reflexivity|apply ages_refl|].
    intros p Hp. by apply elem_of_nil in Hp.
  - cbn [Cleanup.archive_all archivePage Memory.memory].
    destruct (archive_present (page_id p) (world s) (Hpresent p ltac:(left))) as (q & ->).
    set (w1 := Memory.Store _ _).
    set (s1 := archived (called (Archived (page_id p) (Return (Some q))) w1 s)).
    assert (Ha1 : ages (world s) w1) by apply ages_mark.
    destruct (IH s1) as (Hnone & Ha & Hdone).
    { intros p' Hp'. cbn [s1 world archived called].
      apply (ages_present _ _ _ Ha1). apply Hpresent. right. exact Hp'. }
    split_and!; [exact Hnone|exact (ages_trans _ _ _ Ha1 Ha)|].
    intros p' Hp' e' Hin Hid. apply elem_of_cons in Hp' as [-> | Hp'].
    + revert e' Hin Hid. apply (ages_archived w1); [exact Ha|].
      intros e Hin Hid. unfold w1 in Hin. cbn [Memory.entries] in Hin.
      apply list_elem_of_fmap in Hin as (e0 & -> & Hin0).
      unfold Memory.mark in *. case_bool_decide as Hb; [reflexivity|].
      contradiction.
    + exact (Hdone p' Hp' e' Hin Hid).
Qed.

Section CleanupMemory.
Variable dbConfig : Utils.dbConfig.
Implicit Types (s : run Memory.store) (job : page).

Lemma retract_ages masterId s entry :
  ages (world s) (world (Cleanup.retract Memory.memory masterId s entry)).
Proof.
  unfold Cleanup.retract. destruct (negb (truthy (VStr entry.2))); [apply ages_refl|].
  cbn [queryDatabase Memory.memory]. unfold Memory.query.
  destruct (Memory.well_formed _); [|apply ages_refl].
  set (found := Memory.document <$> _). set (s1 := called _ (world s) s).
  destruct (archive_all_memory found s1) as (Hnone & Ha & _).
  { intros p Hp. unfold found in Hp. apply list_elem_of_fmap in Hp as (e & -> & He).
    apply list_elem_of_filter in He as [_ He]. exists e. auto. }
  destruct (Cleanup.archive_all Memory.memory s1 found) as [[e|] s2]; exact Ha.
Qed.

Lemma retract_clears (n : Z) s (dbKey d : string) :
  d <> "" ->
  ~ has_copy (world (Cleanup.retract Memory.memory (VNum n) s (dbKey, d))) d n.
Proof.
  intros Hne. unfold Cleanup.retract. cbn [snd truthy].
  rewrite bool_decide_eq_false_2 by assumption. cbn [negb queryDatabase Memory.memory].
  rewrite query_existence.
  set (found := Memory.document <$> _). set (s1 := called _ (world s) s).
  destruct (archive_all_memory found s1) as (Hnone & Ha & Hdone).
  { intros p Hp. unfold found in Hp. apply list_elem_of_fmap in Hp as (e & -> & He).
    apply list_elem_of_filter in He as [_ He]. exists e. auto. }
  assert (Hclear : ~ has_copy (world (Cleanup.archive_all Memory.memory s1 found).2) d n).
  { intros (e' & Hin & Hsel).
    assert (Hlive : Memory.is_archived e' = false).
    { unfold Memory.selected in Hsel. destruct (Memory.is_archived e'); [|reflexivity].
      rewrite andb_false_r in Hsel. discriminate. }
    destruct (list_elem_of_lookup_1 _ _ Hin) as (i & Hi).
    destruct (Forall2_lookup_r _ _ _ _ _ Ha Hi) as (e & He & Hc & Hd & Harch).
    assert (Hsel0 : Memory.selected d (Sync.existence_filter (VNum n)) e = true).
    { unfold Memory.selected in *. rewrite <- Hc, <- Hd.
      destruct (Memory.is_archived e); [rewrite (Harch eq_refl) in Hlive; discriminate|].
      rewrite Hlive in Hsel. exact Hsel. }
    assert (Hf : Memory.document e ∈ found).
    { unfold found. apply list_elem_of_fmap. exists e. split; [reflexivity|].
      apply list_elem_of_filter. split; [exact Hsel0|].
      apply list_elem_of_lookup. eauto. }
    rewrite (Hdone _ Hf e' Hin) in Hlive; [discriminate|congruence]. }
  destruct (Cleanup.archive_all Memory.memory s1 found) as [[e|] s2]; exact Hclear.
Qed.

Lemma fold_retract_ages masterId entries s :
  ages (world s) (world (fold_left (Cleanup.retract Memory.memory masterId) entries s)).
Proof.
  revert s. induction entries as [|entry rest IH]; intros s; simpl; [apply ages_refl|].
  exact (ages_trans _ _ _ (retract_ages masterId s entry) (IH _)).
Qed.

Lemma fold_retract_clears (n : Z) entries s (d : string) :
  d ∈ (snd <$> entries) -> d <> "" ->
  ~ has_copy (world (fold_left (Cleanup.retract Memory.memory (VNum n)) entries s)) d n.
Proof.
  revert s. induction entries as [|[k d0] rest IH]; intros s Hin Hne; simpl.
  - by apply elem_of_nil in Hin.
  - cbn in Hin. apply elem_of_cons in Hin as [-> | Hin]; [|apply IH; assumption].
    intros Hcopy. apply (retract_clears n s k d0 Hne).
    exact (ages_has_copy _ _ _ _ (fold_retract_ages _ rest _) Hcopy).
Qed.

Lemma retire_ages s job s' :
  Cleanup.retire Memory.memory dbConfig s job = Return s' -> ages (world s) (world s').
Proof.
  unfold Cleanup.retire. destruct (Utils.getPageTitle job); [|discriminate]. cbn [bind].
  destruct (nullish _); intros [= <-]; [apply ages_refl|apply fold_retract_ages].
Qed.

Lemma retire_clears s job s' (n : Z) (d : string) :
  Cleanup.retire Memory.memory dbConfig s job = Return s' ->
  Sync.masterId_of job = VNum n ->
  d ∈ (snd <$> Utils.public dbConfig) -> d <> "" ->
  ~ has_copy (world s') d n.
Proof.
  unfold Cleanup.retire. destruct (Utils.getPageTitle job); [|discriminate]. cbn [bind].
  intros H Hid. rewrite Hid in H. cbn [nullish] in H. injection H as <-.
  apply fold_retract_clears.
Qed.

Lemma retire_all_ages jobs s :
  ages (world s) (world (Cleanup.retire_all Memory.memory dbConfig s jobs).2).
Proof.
  revert s. induction jobs as [|job rest IH]; intros s; simpl; [apply ages_refl|].
  destruct (Cleanup.retire Memory.memory dbConfig s job) as [s'|e] eqn:E; [|apply ages_refl].
  exact (ages_trans _ _ _ (retire_ages s job s' E) (IH s')).
Qed.

Lemma retire_all_clears jobs s job (n : Z) (d : string) :
  (Cleanup.retire_all Memory.memory dbConfig s jobs).1 = None ->
  job ∈ jobs -> Sync.masterId_of job = VNum n ->
  d ∈ (snd <$> Utils.public dbConfig) -> d <> "" ->
  ~ has_copy (world (Cleanup.retire_all Memory.memory dbConfig s jobs).2) d n.
Proof.
  revert s. induction jobs as [|job0 rest IH]; intros s Hnone Hin Hid Hd Hne.
  - by apply elem_of_nil in Hin.
  - cbn [Cleanup.retire_all] in *.
    destruct (Cleanup.retire Memory.memory dbConfig s job0) as [s'|e] eqn:E; [|discriminate].
    apply elem_of_cons in Hin as [-> | Hin]; [|apply IH; assumption].
    intros Hcopy. apply (retire_clears s job0 s' n d E Hid Hd Hne).
    exact (ages_has_copy _ _ _ _ (retire_all_ages rest s') Hcopy).
Qed.

(** On the store in memory, a cleanup that completes leaves no live copy
    of any Closed record in any public collection: every copy that
    carries the masterId of a Closed record is archived, and nothing is
    restored. *)
Theorem cleanup_leaves_no_copy (w : Memory.store) job (n : Z) (d : string) :
  (Cleanup.cleanup Memory.memory dbConfig w).1 = Completed ->
  job ∈ closed_records dbConfig w ->
  Sync.masterId_of job = VNum n ->
  d ∈ (snd <$> Utils.public dbConfig) -> d <> "" ->
  ~ has_copy (world (Cleanup.cleanup Memory.memory dbConfig w).2) d n.
Proof.
  unfold Cleanup.cleanup. cbn [world start queryDatabase Memory.memory Memory.query
    Memory.well_formed Cleanup.closed_filter].
  fold Cleanup.closed_filter. fold (closed_records dbConfig w).
  set (s0 := called _ w (start w)).
  intros Hdone Hin Hid Hd Hne.
  destruct (closed_records dbConfig w) as [|j0 js] eqn:Ejobs; [by apply elem_of_nil in Hin|].
  cbn [length Nat.eqb] in *.
  pose proof (retire_all_clears (j0 :: js) s0 job n d) as H.
  destruct (Cleanup.retire_all Memory.memory dbConfig s0 (j0 :: js)) as [[e|] s'];
    [discriminate|].
  apply H; auto.
Qed.

End CleanupMemory.

(** ** These properties at the fixtures *)

Lemma getPageTitle_never_empty_witness :
  Utils.getPageTitle Fixtures.mockNotionPage = Return "テスト案件" /\ "テスト案件" <> "".
Proof.
  split; [reflexivity|].
  apply (getPageTitle_never_empty Fixtures.mockNotionPage "テスト案件"). reflexivity.
Defined.

Lemma getPageTitle_concatenates_witness :
  Utils.getPageTitle
    (Page "p" {[ "案件名" := Fixtures.prop "title"
                               (VArr [Fixtures.text "急募: "; Fixtures.text "動画編集"]) ]})
  = Return "急募: 動画編集".
Proof.
  apply (getPageTitle_concatenates
           (Page "p" {[ "案件名" := Fixtures.prop "title"
                                      (VArr [Fixtures.text "急募: "; Fixtures.text "動画編集"]) ]})
           {[ "type" := VStr "title";
              "title" := VArr [Fixtures.text "急募: "; Fixtures.text "動画編集"] ]}
           [ {[ "type" := VStr "text"; "plain_text" := VStr "急募: ";
                "text" := VObj {[ "content" := VStr "急募: " ]} ]};
             {[ "type" := VStr "text"; "plain_text" := VStr "動画編集";
                "text" := VObj {[ "content" := VStr "動画編集" ]} ]} ]
           ["急募: "; "動画編集"]); reflexivity.
Defined.

Lemma log_line_round_trip_witness :
  exists timestamp,
    read_timestamp timestamp = Some (Utils.Date 2026 2 1 9 5 0)
    /\ let line := "[" +:+ timestamp +:+ "] " +:+ "WARN" +:+ ": " +:+ "x" in
       ("WARN" = "ERROR" ->
        Utils.log (Utils.Date 2026 2 1 9 5 0) "WARN" "x" (Utils.Console [] [])
        = Utils.Console (Utils.stdout (Utils.Console [] []))
            (Utils.stderr (Utils.Console [] []) ++ [line]))
       /\ ("WARN" <> "ERROR" ->
           Utils.log (Utils.Date 2026 2 1 9 5 0) "WARN" "x" (Utils.Console [] [])
           = Utils.Console (Utils.stdout (Utils.Console [] []) ++ [line])
               (Utils.stderr (Utils.Console [] []))).
Proof.
  apply (log_line_round_trip (Utils.Date 2026 2 1 9 5 0) "WARN" "x" (Utils.Console [] [])).
  unfold calendar. simpl. lia.
Defined.

Lemma routed_targets_are_configured_witness :
  exists dbId, public_get Fixtures.config "video_level2" = VStr dbId /\ dbId <> ""
    /\ truthy (public_get Fixtures.config "video_level2") = true.
Proof.
  apply (routed_targets_are_configured Fixtures.env Fixtures.config "動画制作"
           (VStr "レベル1") "video_level2").
  - vm_compute. reflexivity.
  - left. reflexivity.
  - vm_compute. right. left.
Defined.

Lemma mapProperties_throws_only_on_multi_select_witness :
  exists f o ms,
    f ∈ ["タグ"] /\ properties broken_tags !! f = Some (VObj o)
    /\ o !! "type" = Some (VStr "multi_select")
    /\ o !! "multi_select" = Some ms /\ malformed_choices ms.
Proof.
  apply (mapProperties_throws_only_on_multi_select broken_tags ["タグ"]
           (TypeError "map is not a function")).
  vm_compute. reflexivity.
Defined.

Lemma withRetry_backoff_schedule_witness :
  NotionClient.withRetry (scripted (Return 7)) [Throw server_error; Throw server_error]
  = Some (Return (Some 7), [],
          [NotionClient.Failed 1 server_error; NotionClient.Sleep 2000;
           NotionClient.Failed 2 server_error; NotionClient.Sleep 4000;
           NotionClient.Succeeded 3; NotionClient.Sleep 350]).
Proof.
  apply (withRetry_backoff_schedule (scripted (Return 7))
           [Throw server_error; Throw server_error] [Throw server_error] [] []
           server_error server_error 7); reflexivity.
Defined.

Lemma listing_collects_all_pages_witness :
  let notion :=
    paged_sdk [Return [Fixtures.job1]; Return [Fixtures.job2; Fixtures.untiered]]
              [Return [Fixtures.paragraph]] in
  NotionClient.queryDatabase notion 5 (VStr "db-master") Sync.open_filter tt
  = Some (Return [Fixtures.job1; Fixtures.job2; Fixtures.untiered], tt,
          concat (replicate 2 one_request))
  /\ NotionClient.getPageBlocks notion 5 "job-1" tt
     = Some (Return [Fixtures.paragraph], tt, concat (replicate 1 one_request)).
Proof.
  apply (listing_collects_all_pages
           (paged_sdk [Return [Fixtures.job1]; Return [Fixtures.job2; Fixtures.untiered]]
                      [Return [Fixtures.paragraph]])
           5 (VStr "db-master") Sync.open_filter "job-1" tt tt tt
           [[Fixtures.job1]; [Fixtures.job2; Fixtures.untiered]] [[Fixtures.paragraph]]).
  - eapply (serves_more _ VUndef tt (NotionClient.Response [Fixtures.job1] true (VNum 1)));
      [reflexivity|reflexivity|reflexivity|].
    eapply (serves_last _ (VNum 1) tt
              (NotionClient.Response [Fixtures.job2; Fixtures.untiered] false VNull));
      [reflexivity|left; reflexivity].
  - eapply (serves_last _ VUndef tt (NotionClient.Response [Fixtures.paragraph] false VNull));
      [reflexivity|left; reflexivity].
  - simpl. lia.
  - simpl. lia.
Defined.

Lemma listing_discards_partial_results_witness :
  let notion :=
    paged_sdk [Return [Fixtures.job1]; Throw validation_error; Return [Fixtures.job2]]
              [Throw validation_error] in
  NotionClient.queryDatabase notion 5 (VStr "db-master") Sync.open_filter tt
  = Some (Throw validation_error, tt,
          (concat (replicate 1 one_request) ++ [NotionClient.Failed 1 validation_error])%list)
  /\ NotionClient.getPageBlocks notion 5 "job-1" tt
     = Some (Throw validation_error, tt,
             (concat (replicate 0 one_request)
              ++ [NotionClient.Failed 1 validation_error])%list).
Proof.
  apply (listing_discards_partial_results
           (paged_sdk [Return [Fixtures.job1]; Throw validation_error; Return [Fixtures.job2]]
                      [Throw validation_error])
           5 (VStr "db-master") Sync.open_filter "job-1" tt tt tt validation_error 1 0).
  - reflexivity.
  - reflexivity.
  - eapply (breaks_later _ _ VUndef tt (NotionClient.Response [Fixtures.job1] true (VNum 1)));
      [reflexivity|reflexivity|reflexivity|].
    apply breaks_now. reflexivity.
  - apply breaks_now. reflexivity.
  - lia.
  - lia.
Defined.

Lemma rate_limit_exhaustion_in_the_client_witness :
  (exists msg w' tr,
     NotionClient.queryDatabase throttled 1 (VStr "db-v1")
       (Sync.existence_filter (VNum 1001)) tt
     = Some (Throw (TypeError msg), w', tr) /\ NotionClient.attempts tr = 3%nat)
  /\ (exists msg w' tr,
        NotionClient.getPageBlocks throttled 1 "job-1" tt
        = Some (Throw (TypeError msg), w', tr) /\ NotionClient.attempts tr = 3%nat)
  /\ (exists w' tr,
        NotionClient.createPage throttled (VStr "db-v1") ∅ [] tt
        = Some (Return None, w', tr) /\ NotionClient.attempts tr = 3%nat)
  /\ (exists w' tr,
        NotionClient.archivePage throttled "job-1" tt
        = Some (Return None, w', tr) /\ NotionClient.attempts tr = 3%nat).
Proof.
  apply (rate_limit_exhaustion_in_the_client throttled 0 (VStr "db-v1")
           (Sync.existence_filter (VNum 1001)) ∅ [] "job-1" tt);
    intros; eexists _, _; split; reflexivity.
Defined.

Lemma replicate_accounts_every_target_witness :
  exists s',
    Sync.replicate Memory.memory Fixtures.config Fixtures.copyFields
      (start Fixtures.fresh) Fixtures.job1 = Return s'
    /\ (createdCount s' + skippedCount s' + errorCount s')%nat = 3%nat.
Proof.
  destruct (replicate_readable Memory.memory Fixtures.config Fixtures.copyFields
              (start Fixtures.fresh) Fixtures.job1) as (s' & E).
  { split.
    - eexists. vm_compute. reflexivity.
    - exists (match Utils.mapProperties Fixtures.job1 Fixtures.copyFields with
              | Return m => m
              | Throw _ => ∅
              end). reflexivity. }
  exists s'. split; [exact E|].
  apply (replicate_accounts_every_target Memory.memory Fixtures.config
           Fixtures.copyFields (start Fixtures.fresh) Fixtures.job1 s' E eq_refl).
  discriminate.
Defined.

Lemma sync_stops_at_first_throw_witness :
  Sync.sync (exhausted [Fixtures.job1; holed_title; Fixtures.job1])
    Fixtures.config Fixtures.copyFields tt
  = (Exit1,
     (Sync.replicate_all (exhausted [Fixtures.job1; holed_title; Fixtures.job1])
        Fixtures.config Fixtures.copyFields
        (called (Queried (VStr (Utils.master Fixtures.config)) Sync.open_filter
                   (Return ([Fixtures.job1] ++ holed_title :: [Fixtures.job1])%list))
           tt (start tt))
        [Fixtures.job1]).2).
Proof.
  apply (sync_stops_at_first_throw
           (exhausted [Fixtures.job1; holed_title; Fixtures.job1])
           Fixtures.config Fixtures.copyFields tt tt
           [Fixtures.job1] [Fixtures.job1] holed_title
           (TypeError "Cannot read properties of undefined or null, reading plain_text")).
  - reflexivity.
  - constructor; [|constructor]. split.
    + eexists. vm_compute. reflexivity.
    + exists (match Utils.mapProperties Fixtures.job1 Fixtures.copyFields with
              | Return m => m
              | Throw _ => ∅
              end). reflexivity.
  - left. vm_compute. reflexivity.
Defined.

Lemma place_create_returns_undefined_witness :
  let s' := Sync.place (exhausted []) Fixtures.config (VNum 1001) ∅ []
              (start tt) "video_level1" in
  createdCount s' = 0%nat /\ errorCount s' = 1%nat /\ skippedCount s' = 0%nat
  /\ world s' = tt.
Proof.
  apply (place_create_returns_undefined (exhausted []) Fixtures.config (start tt)
           (VNum 1001) ∅ [] "video_level1" "db-v1" tt tt); try reflexivity.
  discriminate.
Defined.

Lemma retract_archive_returns_undefined_witness :
  let s' := Cleanup.retract (exhausted [Fixtures.copy_of "copy-a" 2002;
                                         Fixtures.copy_of "copy-b" 2002])
              (VNum 2002) (start tt) ("video_level2", "db-v2") in
  archivedCount s' = 2%nat /\ errorCount s' = 0%nat /\ world s' = tt.
Proof.
  apply (retract_archive_returns_undefined
           (exhausted [Fixtures.copy_of "copy-a" 2002; Fixtures.copy_of "copy-b" 2002])
           (start tt) (VNum 2002) "video_level2" "db-v2"
           [Fixtures.copy_of "copy-a" 2002; Fixtures.copy_of "copy-b" 2002] tt);
    try reflexivity.
  discriminate.
Defined.

Lemma cleanup_leaves_no_copy_witness :
  ~ has_copy (world (Cleanup.cleanup Memory.memory Fixtures.config Fixtures.retired).2)
      "db-d3" 2002.
Proof.
  apply (cleanup_leaves_no_copy Fixtures.config Fixtures.retired Fixtures.job2 2002 "db-d3").
  - vm_compute. reflexivity.
  - vm_compute. left.
  - reflexivity.
  - vm_compute. do 5 right. left.
  - discriminate.
Defined.
